(** * Self-evolution monitor: change detection, file locks and conflict arbitration

    A shallow embedding of [Util/Self-evolution.py] (class
    [SelfEvolutionMonitor]) and of the part of [Util/rules_loader.py] it
    calls, with the variable file of [RulesLoader], followed by the properties
    of the specification that concern them and by further properties of the
    code.

    Conventions of the embedding.
    - A Python [str] is a Rocq [string] holding the UTF-8 encoding of the text;
      the string methods used by the monitor are defined on that encoding.
    - A [Path] is the text of a normalised absolute path; [str(path)] is the
      path itself and two paths are equal when their texts are.
    - The file system is a finite map from path text to files.  A file whose
      [f_data] is [None] exists but every [open] of it raises.
    - The clock counts milliseconds.  [time.sleep(0.1)] advances it by 100
      and every other operation is instantaneous.
    - Logger calls are diagnostics only and are left out; the conflict log
      written by [log_conflict] is kept as a list of records. *)

From Stdlib Require Import ZArith Ascii String List Lia Bool.
From stdpp Require Import base gmap strings list fin_maps.

Local Open Scope string_scope.
Local Open Scope Z_scope.

(** ** Python string methods on UTF-8 text *)

Module PyStr.

Definition code (c : ascii) : N := N_of_ascii c.

Definition is_code (n : N) (c : ascii) : bool := (code c =? n)%N.

Definition quote : string := String (ascii_of_N 34) EmptyString.
Definition LF : string := String (ascii_of_N 10) EmptyString.
Definition CR : string := String (ascii_of_N 13) EmptyString.

(** [s.startswith(p)] *)
Fixpoint startswith (p s : string) : bool :=
  match p, s with
  | EmptyString, _ => true
  | String a p', String b s' => if Ascii.eqb a b then startswith p' s' else false
  | String _ _, EmptyString => false
  end.

(** [s[len(p):]] when [s.startswith(p)] *)
Fixpoint strip_prefix (p s : string) : option string :=
  match p, s with
  | EmptyString, _ => Some s
  | String a p', String b s' => if Ascii.eqb a b then strip_prefix p' s' else None
  | String _ _, EmptyString => None
  end.

Fixpoint rev_acc (s acc : string) : string :=
  match s with
  | EmptyString => acc
  | String a s' => rev_acc s' (String a acc)
  end.

Definition rev (s : string) : string := rev_acc s EmptyString.

(** [s.endswith(p)] *)
Definition endswith (p s : string) : bool := startswith (rev p) (rev s).

(** [p in s] *)
Fixpoint contains (p s : string) : bool :=
  startswith p s ||
  match s with
  | EmptyString => false
  | String _ s' => contains p s'
  end.

(** Truth value of a string: empty is false. *)
Definition nonempty (s : string) : bool :=
  match s with EmptyString => false | String _ _ => true end.

(** One-byte white space of [str.isspace]: U+0009..U+000D, U+001C..U+001F, U+0020. *)
Definition is_space1 (c : ascii) : bool :=
  let n := code c in
  ((9 <=? n) && (n <=? 13) || (28 <=? n) && (n <=? 31) || (n =? 32))%N.

(** Two- and three-byte white space of [str.isspace]: U+0085, U+00A0, and
    U+1680, U+2000..U+200A, U+2028, U+2029, U+202F, U+205F, U+3000. *)
Definition is_space2 (a b : ascii) : bool :=
  is_code 194 a && (is_code 133 b || is_code 160 b).

Definition is_space3 (a b c : ascii) : bool :=
  is_code 225 a && is_code 154 b && is_code 128 c
  || is_code 226 a && is_code 128 b &&
     ((128 <=? code c)%N && (code c <=? 138)%N
      || is_code 168 c || is_code 169 c || is_code 175 c)
  || is_code 226 a && is_code 129 b && is_code 159 c
  || is_code 227 a && is_code 128 b && is_code 128 c.

(** Number of leading bytes that encode one white-space code point
    (0 when the text does not start with white space). *)
Definition space_width (s : string) : nat :=
  match s with
  | String a r =>
    if is_space1 a then 1%nat
    else match r with
    | String b r' =>
      if is_space2 a b then 2%nat
      else match r' with
      | String c _ => if is_space3 a b c then 3%nat else 0%nat
      | EmptyString => 0%nat
      end
    | EmptyString => 0%nat
    end
  | EmptyString => 0%nat
  end.

(** The same, read from the end of the text: [s] is the reversed text. *)
Definition space_width_rev (s : string) : nat :=
  match s with
  | String a r =>
    if is_space1 a then 1%nat
    else match r with
    | String b r' =>
      if is_space2 b a then 2%nat
      else match r' with
      | String c _ => if is_space3 c b a then 3%nat else 0%nat
      | EmptyString => 0%nat
      end
    | EmptyString => 0%nat
    end
  | EmptyString => 0%nat
  end.

Fixpoint drop (n : nat) (s : string) : string :=
  match n, s with
  | O, _ => s
  | S n', String _ s' => drop n' s'
  | S _, EmptyString => EmptyString
  end.

Fixpoint strip_loop (width : string -> nat) (fuel : nat) (s : string) : string :=
  match fuel with
  | O => s
  | S fuel' =>
    match width s with
    | O => s
    | S k => strip_loop width fuel' (drop (S k) s)
    end
  end.

(** [s.lstrip()], [s.rstrip()], [s.strip()].  At most [length s] white-space
    code points can be removed, so that much fuel is never used up. *)
Definition lstrip (s : string) : string := strip_loop space_width (String.length s) s.

Definition rstrip (s : string) : string :=
  rev (strip_loop space_width_rev (String.length s) (rev s)).

Definition strip (s : string) : string := rstrip (lstrip s).

(** [s.split(sep)] for a one-character separator: never an empty list. *)
Fixpoint split (sep : ascii) (s : string) : list string :=
  match s with
  | EmptyString => [EmptyString]
  | String a s' =>
    if Ascii.eqb a sep then EmptyString :: split sep s'
    else match split sep s' with
         | x :: xs => String a x :: xs
         | [] => [String a EmptyString]
         end
  end.

(** [s.split(sep, 1)[0]]: the text before the first separator. *)
Fixpoint split1_head (sep : ascii) (s : string) : string :=
  match s with
  | EmptyString => EmptyString
  | String a s' => if Ascii.eqb a sep then EmptyString else String a (split1_head sep s')
  end.

(** [sep.join(l)] *)
Fixpoint join (sep : string) (l : list string) : string :=
  match l with
  | [] => EmptyString
  | [x] => x
  | x :: xs => x ++ sep ++ join sep xs
  end.

(** Newline translation of a text-mode read: CR LF and lone CR become LF. *)
Fixpoint universal_newlines (s : string) : string :=
  match s with
  | EmptyString => EmptyString
  | String a r =>
    if is_code 13 a then
      match r with
      | String b r' =>
        if is_code 10 b then String b (universal_newlines r')
        else String (ascii_of_N 10) (universal_newlines r)
      | EmptyString => LF
      end
    else String a (universal_newlines r)
  end.

(** The lines a text-mode file object yields ([for line in f], [readlines]):
    each keeps its terminating LF, the last one may lack it. *)
Fixpoint readlines_acc (s : string) (cur : string) : list string :=
  match s with
  | EmptyString => if nonempty cur then [rev cur] else []
  | String a r =>
    if is_code 10 a then rev (String a cur) :: readlines_acc r EmptyString
    else readlines_acc r (String a cur)
  end.

Definition readlines (s : string) : list string := readlines_acc s EmptyString.

(** Width in bytes of the line boundary [str.splitlines] sees at the start
    of the text: LF, CR, CR LF, VT, FF, FS, GS, RS, U+0085, U+2028, U+2029. *)
Definition linebreak_width (s : string) : nat :=
  match s with
  | String a r =>
    if is_code 13 a then
      match r with
      | String b _ => if is_code 10 b then 2%nat else 1%nat
      | EmptyString => 1%nat
      end
    else if is_code 10 a || is_code 11 a || is_code 12 a
            || is_code 28 a || is_code 29 a || is_code 30 a then 1%nat
    else match r with
    | String b r' =>
      if is_code 194 a && is_code 133 b then 2%nat
      else match r' with
      | String c _ =>
        if is_code 226 a && is_code 128 b && (is_code 168 c || is_code 169 c)
        then 3%nat else 0%nat
      | EmptyString => 0%nat
      end
    | EmptyString => 0%nat
    end
  | EmptyString => 0%nat
  end.

(** [s.splitlines()]: [skip] counts the bytes of a boundary still to drop. *)
Fixpoint splitlines_acc (s : string) (skip : nat) (cur : string) : list string :=
  match s with
  | EmptyString => if nonempty cur then [rev cur] else []
  | String a r =>
    match skip with
    | S k => splitlines_acc r k cur
    | O =>
      match linebreak_width s with
      | O => splitlines_acc r O (String a cur)
      | S k => rev cur :: splitlines_acc r k EmptyString
      end
    end
  end.

Definition splitlines (s : string) : list string := splitlines_acc s O EmptyString.

(** [l.insert(i, x)]: past the end it appends. *)
Definition list_insert_at {A} (i : nat) (x : A) (l : list A) : list A :=
  (take i l ++ x :: List.skipn i l)%list.

End PyStr.

(** ** MD5 (RFC 1321), as [hashlib.md5(data).hexdigest()] *)

Module MD5.

Definition mask32 (x : Z) : Z := Z.land x 4294967295.

Definition rotl32 (x : Z) (c : Z) : Z :=
  mask32 (Z.lor (Z.shiftl x c) (Z.shiftr (mask32 x) (32 - c))).

Definition not32 (x : Z) : Z := Z.lxor (mask32 x) 4294967295.

Definition K : list Z :=
  [ 3614090360; 3905402710; 606105819; 3250441966;
    4118548399; 1200080426; 2821735955; 4249261313;
    1770035416; 2336552879; 4294925233; 2304563134;
    1804603682; 4254626195; 2792965006; 1236535329;
    4129170786; 3225465664; 643717713; 3921069994;
    3593408605; 38016083; 3634488961; 3889429448;
    568446438; 3275163606; 4107603335; 1163531501;
    2850285829; 4243563512; 1735328473; 2368359562;
    4294588738; 2272392833; 1839030562; 4259657740;
    2763975236; 1272893353; 4139469664; 3200236656;
    681279174; 3936430074; 3572445317; 76029189;
    3654602809; 3873151461; 530742520; 3299628645;
    4096336452; 1126891415; 2878612391; 4237533241;
    1700485571; 2399980690; 4293915773; 2240044497;
    1873313359; 4264355552; 2734768916; 1309151649;
    4149444226; 3174756917; 718787259; 3951481745 ].

Definition shifts : list Z :=
  [ 7; 12; 17; 22; 7; 12; 17; 22; 7; 12; 17; 22; 7; 12; 17; 22;
    5; 9; 14; 20; 5; 9; 14; 20; 5; 9; 14; 20; 5; 9; 14; 20;
    4; 11; 16; 23; 4; 11; 16; 23; 4; 11; 16; 23; 4; 11; 16; 23;
    6; 10; 15; 21; 6; 10; 15; 21; 6; 10; 15; 21; 6; 10; 15; 21 ].

Definition bytes_of (s : string) : list Z :=
  map (fun c => Z.of_N (N_of_ascii c)) (list_ascii_of_string s).

(** [n] as [k] little-endian bytes *)
Fixpoint le_bytes (k : nat) (n : Z) : list Z :=
  match k with
  | O => []
  | S k' => Z.land n 255 :: le_bytes k' (Z.shiftr n 8)
  end.

Definition pad (msg : list Z) : list Z :=
  let len := Z.of_nat (length msg) in
  let zeros := Z.to_nat ((55 - len) mod 64) in
  (msg ++ 128 :: repeat 0 zeros ++ le_bytes 8 (8 * len))%list.

(** The little-endian 32-bit words of a byte sequence *)
Fixpoint words (fuel : nat) (bytes : list Z) : list Z :=
  match fuel with
  | O => []
  | S fuel' =>
    match bytes with
    | b0 :: b1 :: b2 :: b3 :: rest =>
      (b0 + Z.shiftl b1 8 + Z.shiftl b2 16 + Z.shiftl b3 24) :: words fuel' rest
    | _ => []
    end
  end.

Definition round (M : list Z) (st : Z * Z * Z * Z) (i : nat) : Z * Z * Z * Z :=
  let '(A, B, C, D) := st in
  let iz := Z.of_nat i in
  let '(F, g) :=
    if iz <? 16 then (Z.lor (Z.land B C) (Z.land (not32 B) D), iz)
    else if iz <? 32 then (Z.lor (Z.land D B) (Z.land (not32 D) C), (5 * iz + 1) mod 16)
    else if iz <? 48 then (Z.lxor (Z.lxor B C) D, (3 * iz + 5) mod 16)
    else (Z.lxor C (Z.lor B (not32 D)), (7 * iz) mod 16) in
  let F := mask32 (F + A + nth i K 0 + nth (Z.to_nat g) M 0) in
  (D, mask32 (B + rotl32 F (nth i shifts 0)), B, C).

Definition block (st : Z * Z * Z * Z) (M : list Z) : Z * Z * Z * Z :=
  let '(a0, b0, c0, d0) := st in
  let '(A, B, C, D) := fold_left (round M) (seq 0 64) st in
  (mask32 (a0 + A), mask32 (b0 + B), mask32 (c0 + C), mask32 (d0 + D)).

Fixpoint blocks (fuel : nat) (ws : list Z) : list (list Z) :=
  match fuel with
  | O => []
  | S fuel' =>
    match ws with
    | [] => []
    | _ => firstn 16 ws :: blocks fuel' (skipn 16 ws)
    end
  end.

Definition hex_digit (n : Z) : ascii :=
  if n <? 10 then ascii_of_N (Z.to_N (48 + n)) else ascii_of_N (Z.to_N (87 + n)).

Definition hex_byte (b : Z) : string :=
  String (hex_digit (Z.shiftr b 4)) (String (hex_digit (Z.land b 15)) EmptyString).

Definition digest (data : string) : list Z :=
  let bytes := pad (bytes_of data) in
  let ws := words (length bytes) bytes in
  let '(a, b, c, d) :=
    fold_left block (blocks (length ws) ws)
              (1732584193, 4023233417, 2562383102, 271733878) in
  (le_bytes 4 a ++ le_bytes 4 b ++ le_bytes 4 c ++ le_bytes 4 d)%list.

Definition hexdigest (data : string) : string :=
  String.concat "" (map hex_byte (digest data)).

End MD5.

Import PyStr.

(** ** The host: what the OS and the clock-rendering library calls provide *)

Abbreviation Path := string.

Class Host := {
  (** [str(self.project_root)] *)
  project_root : Path;
  (** [datetime.now().isoformat()] at a clock reading *)
  isoformat : Z -> string;
  (** [datetime.now().strftime('%Y-%m-%d')] at a clock reading *)
  strftime_ymd : Z -> string;
  (** [str(os.getpid())] *)
  getpid : string;
  (** [str(e)] of the exception an [open] of the path raises *)
  strerror : Path -> string
}.

(** ** State *)

Record file := File {
  f_data : option string;   (* None: the file exists, opening it raises *)
  f_mtime : Z               (* st_mtime, in milliseconds *)
}.

Record ConflictRecord := {
  cr_timestamp : string;
  cr_path : Path;
  cr_mode : string;
  cr_reason : string;
  cr_resolution : string
}.

Record world := World {
  fs : gmap string file;
  now : Z;
  (** [RulesLoader.variables], loaded once when the monitor is built *)
  variables : gmap string string;
  (** what [get_rule_files_to_monitor] returns; the path resolution of
      [RulesLoader] behind it is not part of the model *)
  rule_files : list Path;
  rules_hash_cache : gmap string (option string);
  project_files_hash_cache : gmap string (option string);
  (** the lines of [Logs/path_conflicts.log], oldest first *)
  conflict_log : list ConflictRecord
}.

Definition with_fs (m : gmap string file) (w : world) : world :=
  World m (now w) (variables w) (rule_files w) (rules_hash_cache w)
        (project_files_hash_cache w) (conflict_log w).

Definition with_now (t : Z) (w : world) : world :=
  World (fs w) t (variables w) (rule_files w) (rules_hash_cache w)
        (project_files_hash_cache w) (conflict_log w).

Definition with_rules_hash_cache (c : gmap string (option string)) (w : world) : world :=
  World (fs w) (now w) (variables w) (rule_files w) c
        (project_files_hash_cache w) (conflict_log w).

Definition with_project_files_hash_cache (c : gmap string (option string)) (w : world) : world :=
  World (fs w) (now w) (variables w) (rule_files w) (rules_hash_cache w)
        c (conflict_log w).

Definition with_conflict_log (l : list ConflictRecord) (w : world) : world :=
  World (fs w) (now w) (variables w) (rule_files w) (rules_hash_cache w)
        (project_files_hash_cache w) l.

(** [path.exists()] *)
Definition exists_ (w : world) (p : Path) : bool :=
  match fs w !! p with Some _ => true | None => false end.

(** [path.unlink()] of an existing file *)
Definition unlink (p : Path) (w : world) : world := with_fs (delete p (fs w)) w.

(** [open(p, 'w').write(text)] and [open(p, 'x').write(text)] *)
Definition write_text (p : Path) (text : string) (w : world) : world :=
  with_fs (<[p := File (Some text) (now w)]> (fs w)) w.

(** [time.sleep(ms / 1000)] *)
Definition sleep (ms : Z) (w : world) : world := with_now (now w + ms) w.

(** Result of [open(p, 'r', encoding='utf-8').read()]: [None] when it raises. *)
Definition read_text (w : world) (p : Path) : option string :=
  match fs w !! p with
  | Some f => universal_newlines <$> f_data f
  | None => None
  end.

Inductive ResolutionOutcome := PROCEED | FORCED_WITH_LOCK | SKIPPED.

Record ModConfig := {
  mode : string;
  rule_var_name : string;
  rule_file : string
}.

Definition truthy (o : option string) : bool :=
  match o with Some s => nonempty s | None => false end.

Section Model.
Context `{Host}.

(** *** [RulesLoader] *)

Definition get_variable (w : world) (var_name : string) : option string :=
  variables w !! var_name.

Definition get_project_mod_config (w : world) : option ModConfig :=
  match get_variable w "PG_ProjectMod" with
  | None => None
  | Some project_mod =>
    if negb (nonempty project_mod) then None
    else match split "," project_mod with
    | p0 :: p1 :: _ =>
      let mode := strip p0 in
      let rule_var_name := strip p1 in
      let rule_file := get_variable w rule_var_name in
      if negb (truthy rule_file) then None
      else Some {| mode := mode; rule_var_name := rule_var_name;
                   rule_file := default "" rule_file |}
    | _ => None
    end
  end.

(** The rule dictionary is the same for every file; only its keys matter. *)
Definition get_applicable_rules_for_file (file_path : Path) : list string :=
  ["encoding"; "header_comment"; "other_rules"].

(** *** [SelfEvolutionMonitor]: paths *)

Definition todo_file_path : Path := project_root ++ "/rules/todo_Self-evolution_lists.txt".
Definition user_activity_file : Path := project_root ++ "/.trae/.user_activity".
Definition lock_dir : Path := project_root ++ "/.trae/.locks".

(** [path.name] and [path.suffix] *)
Definition path_name (p : Path) : string := List.last (split "/" p) "".

Definition path_suffix (p : Path) : string :=
  let parts := split "." (path_name p) in
  let ext := List.last parts "" in
  let stem := join "." (removelast parts) in
  if (2 <=? length parts)%nat && nonempty ext && nonempty stem then "." ++ ext else "".

(** *** Fingerprints, mode and activity *)

Definition calculate_file_hash (w : world) (file_path : Path) : option string :=
  match fs w !! file_path with
  | None => None
  | Some f =>
    match f_data f with
    | Some data => Some (MD5.hexdigest data)
    | None => None
    end
  end.

Definition get_project_mode (w : world) : string :=
  match get_project_mod_config w with
  | Some config => mode config
  | None => "devP"
  end.

Definition is_user_active (w : world) : bool :=
  match fs w !! user_activity_file with
  | None => false
  | Some f => now w - f_mtime f <? 300000
  end.

Definition should_execute_evolution (w : world) : bool :=
  let mode := get_project_mode w in
  let user_active := is_user_active w in
  if String.eqb mode "devP" then true else negb user_active.

(** *** Project population *)

Definition default_extensions : list string :=
  [".py"; ".txt"; ".md"; ".json"; ".yaml"; ".yml"; ".ps1"; ".sh"].

Definition skipped_dirs : list string :=
  [".git"; "__pycache__"; ".idea"; "node_modules"].

(** Whether [os.walk] from the project root, pruned of the skipped
    directories, reaches the file and its name has one of the extensions. *)
Definition walk_selects (extensions : list string) (p : Path) : bool :=
  match strip_prefix (project_root ++ "/") p with
  | None => false
  | Some rel =>
    let parts := split "/" rel in
    forallb (fun d => negb (existsb (String.eqb d) skipped_dirs)) (removelast parts)
    && existsb (fun ext => endswith ext (List.last parts "")) extensions
  end.

(** The walk order is the key order of the file map. *)
Definition scan_project_files (w : world) : list Path :=
  List.filter (walk_selects default_extensions) (map fst (map_to_list (fs w))).

(** *** Change detection *)

Definition rule_change_step (w : world)
    (st : list Path * gmap string (option string)) (file_path : Path)
  : list Path * gmap string (option string) :=
  let '(changed_files, cache) := st in
  let current_hash := calculate_file_hash w file_path in
  match cache !! file_path with
  | None =>
    (changed_files, if truthy current_hash then <[file_path := current_hash]> cache else cache)
  | Some cached =>
    if bool_decide (current_hash ≠ cached)
    then ((changed_files ++ [file_path])%list, <[file_path := current_hash]> cache)
    else (changed_files, cache)
  end.

Definition check_rule_files_changes (w : world) : list Path * world :=
  let '(changed_files, cache) :=
    fold_left (rule_change_step w) (rule_files w) ([], rules_hash_cache w) in
  (changed_files, with_rules_hash_cache cache w).

Definition project_change_step (w : world)
    (st : list Path * gmap string (option string)) (file_path : Path)
  : list Path * gmap string (option string) :=
  let '(changed_files, cache) := st in
  let current_hash := calculate_file_hash w file_path in
  match cache !! file_path with
  | None =>
    (changed_files, if truthy current_hash then <[file_path := current_hash]> cache else cache)
  | Some cached =>
    if bool_decide (current_hash ≠ cached)
    then (if bool_decide (file_path ≠ todo_file_path)
          then (changed_files ++ [file_path])%list else changed_files,
          <[file_path := current_hash]> cache)
    else (changed_files, cache)
  end.

(** The loop of [check_project_files_changes] over a given enumeration. *)
Definition detect_project_changes (w : world) (project_files : list Path)
  : list Path * gmap string (option string) :=
  fold_left (project_change_step w) project_files ([], project_files_hash_cache w).

Definition check_project_files_changes (w : world) : list Path * world :=
  let '(changed_files, cache) := detect_project_changes w (scan_project_files w) in
  (changed_files, with_project_files_hash_cache cache w).

(** *** Conflict log and file locks *)

Definition log_conflict (file_path : Path) (conflict_reason resolution : string)
    (w : world) : world :=
  with_conflict_log
    (conflict_log w ++
     [{| cr_timestamp := isoformat (now w); cr_path := file_path;
         cr_mode := get_project_mode w; cr_reason := conflict_reason;
         cr_resolution := resolution |}])%list w.

Definition get_lock_file_path (file_path : Path) : Path :=
  lock_dir ++ "/" ++ MD5.hexdigest file_path ++ ".lock".

(** The note of a lock, as text.  The source writes it through
    [open(lock_file, 'x')], in the default encoding of the locale, and reads
    sentinels as UTF-8; the embedding keeps the text, as on a host whose
    default encoding is UTF-8. *)
Definition lock_note (w : world) : string :=
  "锁定时间: " ++ isoformat (now w) ++ LF ++ "进程ID: " ++ getpid ++ LF.

(** The [while] loop of [acquire_file_lock]; times are in milliseconds.
    Every turn that does not return sleeps 100 ms, so the fuel
    [acquire_fuel] gives is never used up (lemma [acquire_loop_fuel]). *)
Fixpoint acquire_loop (fuel : nat) (lock_file : Path) (start_time timeout : Z)
    (w : world) : bool * world :=
  match fuel with
  | O => (false, w)
  | S fuel' =>
    if now w - start_time <? timeout then
      match fs w !! lock_file with
      | None => (true, write_text lock_file (lock_note w) w)
      | Some f =>
        let w' := if now w - f_mtime f >? 300000 then unlink lock_file w else w in
        acquire_loop fuel' lock_file start_time timeout (sleep 100 w')
      end
    else (false, w)
  end.

Definition acquire_fuel (timeout : Z) : nat := S (Z.to_nat ((timeout + 99) / 100)).

(** [timeout] is in seconds, as in the source. *)
Definition acquire_file_lock (w : world) (file_path : Path) (timeout : Z) : bool * world :=
  acquire_loop (acquire_fuel (timeout * 1000)) (get_lock_file_path file_path)
               (now w) (timeout * 1000) w.

Definition release_file_lock (file_path : Path) (w : world) : world :=
  let lock_file := get_lock_file_path file_path in
  if exists_ w lock_file then unlink lock_file w else w.

Definition is_file_locked (w : world) (file_path : Path) : bool * option string :=
  let lock_file := get_lock_file_path file_path in
  if negb (exists_ w lock_file) then (false, None)
  else match read_text w lock_file with
       | Some text => (true, Some (strip text))
       | None => (false, None)
       end.

(** *** Conflict check and resolution *)

Definition check_path_conflicts (w : world) (file_path : Path) : bool * string :=
  let project_mode := get_project_mode w in
  let '(is_locked, lock_info) := is_file_locked w file_path in
  if is_locked && truthy lock_info then
    (true, "文件被锁定: " ++ default "" lock_info)
  else
    let user_active := is_user_active w in
    if String.eqb project_mode "devP" then
      if user_active then (false, "devP模式下自我进化优先级高于人工")
      else (false, "无用户活动")
    else if String.eqb project_mode "proD" then
      if user_active then (true, "proD模式下用户活动优先级高于自我进化")
      else (false, "无用户活动")
    else if user_active then (true, "未知模式下用户活动优先级高于自我进化")
    else (false, "无冲突").

Definition resolve_path_conflict (w : world) (file_path : Path) (conflict_reason : string)
  : string * world :=
  let project_mode := get_project_mode w in
  let w := log_conflict file_path conflict_reason "待处理" w in
  if String.eqb project_mode "devP" then
    let '(acquired, w) := acquire_file_lock w file_path 5 in
    if acquired then
      let resolution := "devP模式下强制获取锁，执行自我进化" in
      (resolution, log_conflict file_path conflict_reason resolution w)
    else
      let resolution := "无法获取文件锁，跳过处理" in
      (resolution, log_conflict file_path conflict_reason resolution w)
  else
    let resolution := "proD模式下跳过处理，尊重用户活动" in
    (resolution, log_conflict file_path conflict_reason resolution w).

(** The test both callers apply to a resolution. *)
Definition is_skip (resolution : string) : bool := contains "跳过处理" resolution.

(** The per-file decision as both callers ([check_project_files_compliance]
    and [add_files_to_todo]) take it: the conflict check, then the resolver
    when a conflict was reported, then the skip test on its answer. *)
Definition check_and_resolve (w : world) (file_path : Path) : ResolutionOutcome * world :=
  let '(has_conflict, conflict_reason) := check_path_conflicts w file_path in
  if has_conflict then
    let '(resolution, w) := resolve_path_conflict w file_path conflict_reason in
    (if is_skip resolution then SKIPPED else FORCED_WITH_LOCK, w)
  else (PROCEED, w).

(** *** Compliance check and repair *)

Definition coding_line : string := "# -*- coding: utf-8 -*-".

Definition triple_quote : string := quote ++ quote ++ quote.

(** [d[k] = True] on the keys of a dictionary, kept in insertion order. *)
Definition dict_add_key (k : string) (d : list string) : list string :=
  if existsb (String.eqb k) d then d else (d ++ [k])%list.

Definition has_key (k : string) (d : list string) : bool := existsb (String.eqb k) d.

Definition not_nil {A} (l : list A) : bool :=
  match l with [] => false | _ :: _ => true end.

Record Compliance := {
  is_compliant : bool;
  issues : list string;
  update_info : list string     (* keys of the update dictionary *)
}.

(** Body of the loop over the applicable rules in [check_file_compliance]. *)
Definition rule_check_step (file_path : Path) (file_content : string)
    (st : Compliance) (rule_name : string) : Compliance :=
  let st :=
    if String.eqb rule_name "header_comment" then
      if negb (startswith "#" (strip file_content))
         && existsb (String.eqb (path_suffix file_path)) [".py"; ".sh"; ".ps1"]
      then {| is_compliant := false;
              issues := (issues st ++ ["缺少标准头部注释"])%list;
              update_info := dict_add_key "header_comment" (update_info st) |}
      else st
    else st in
  if String.eqb rule_name "encoding_declaration" && String.eqb (path_suffix file_path) ".py" then
    if negb (contains coding_line file_content)
    then {| is_compliant := false;
            issues := (issues st ++ ["缺少UTF-8编码声明"])%list;
            update_info := dict_add_key "encoding_declaration" (update_info st) |}
    else st
  else st.

Definition check_file_compliance (w : world) (file_path : Path) : Compliance :=
  if negb (exists_ w file_path) then
    {| is_compliant := false; issues := ["文件不存在: " ++ file_path]; update_info := [] |}
  else
    let applicable_rules := get_applicable_rules_for_file file_path in
    if negb (not_nil applicable_rules) then
      {| is_compliant := true; issues := []; update_info := [] |}
    else
      match read_text w file_path with
      | None =>
        {| is_compliant := false; issues := ["检查失败: " ++ strerror file_path];
           update_info := [] |}
      | Some file_content =>
        fold_left (rule_check_step file_path file_content) applicable_rules
                  {| is_compliant := true; issues := []; update_info := [] |}
      end.

(** [results[key] = value] on an insertion-ordered dictionary. *)
Fixpoint dict_set {V} (key : string) (value : V) (d : list (string * V)) : list (string * V) :=
  match d with
  | [] => [(key, value)]
  | (k, v) :: d' => if String.eqb k key then (k, value) :: d' else (k, v) :: dict_set key value d'
  end.

Fixpoint compliance_loop (files : list Path) (results : list (string * Compliance))
    (w : world) : list (string * Compliance) * world :=
  match files with
  | [] => (results, w)
  | file_path :: rest =>
    let '(has_conflict, conflict_reason) := check_path_conflicts w file_path in
    let '(skip, w) :=
      if has_conflict then
        let '(resolution, w) := resolve_path_conflict w file_path conflict_reason in
        (is_skip resolution, w)
      else (false, w) in
    if skip then
      compliance_loop rest
        (dict_set file_path
           {| is_compliant := false; issues := [conflict_reason]; update_info := [] |}
           results) w
    else
      compliance_loop rest (dict_set file_path (check_file_compliance w file_path) results) w
  end.

Definition check_project_files_compliance (w : world) (files : list Path)
  : list (string * Compliance) * world :=
  compliance_loop files [] w.

(** [for i, line in enumerate(items): lines.insert(pos + i, line)] *)
Fixpoint insert_all (pos : nat) (items lines : list string) : list string :=
  match items with
  | [] => lines
  | x :: xs => insert_all (S pos) xs (list_insert_at pos x lines)
  end.

Definition starts_with_shebang (lines : list string) : bool :=
  match lines with
  | l0 :: _ => startswith "#!" l0
  | [] => false
  end.

(** The text [update_file_compliance] computes from what it read. *)
Definition updated_text (today : string) (file_path : Path) (update_info : list string)
    (file_content : string) : string :=
  let updated_content := file_content in
  let updated_content :=
    if has_key "encoding_declaration" update_info && String.eqb (path_suffix file_path) ".py" then
      let lines := splitlines updated_content in
      if not_nil lines then
        let lines :=
          if starts_with_shebang lines then
            if (1 <? length lines)%nat && negb (startswith coding_line (nth 1 lines ""))
            then list_insert_at 1 coding_line lines else lines
          else list_insert_at 0 coding_line lines in
        join LF lines
      else updated_content
    else updated_content in
  if has_key "header_comment" update_info then
    let lines := splitlines updated_content in
    let lines :=
      if String.eqb (path_suffix file_path) ".py"
         && negb (existsb (contains coding_line) (take 5 lines)) then
        if starts_with_shebang lines then list_insert_at 1 coding_line lines
        else list_insert_at 0 coding_line lines
      else lines in
    let has_header_comment :=
      existsb (fun line => startswith triple_quote (strip line) || startswith "'''" (strip line))
              (take 10 lines) in
    if negb has_header_comment then
      let insert_pos := if starts_with_shebang lines then 1%nat else 0%nat in
      let insert_pos :=
        if (insert_pos <? length lines)%nat && startswith coding_line (nth insert_pos lines "")
        then S insert_pos else insert_pos in
      let header_comment :=
        [triple_quote; path_name file_path; "功能说明："; ""; "作者：自我进化系统";
         "更新时间：" ++ today; triple_quote] in
      join LF (insert_all insert_pos header_comment lines)
    else updated_content
  else updated_content.

Definition update_file_compliance (w : world) (file_path : Path) (update_info : list string)
  : bool * world :=
  let '(acquired, w) := acquire_file_lock w file_path 5 in
  if negb acquired then (false, w)
  else
    match read_text w file_path with
    | None =>
      (* the read raises: [finally] releases, the handler releases again *)
      (false, release_file_lock file_path (release_file_lock file_path w))
    | Some file_content =>
      let updated_content :=
        updated_text (strftime_ymd (now w)) file_path update_info file_content in
      let w :=
        if negb (String.eqb updated_content file_content)
        then write_text file_path updated_content w else w in
      (true, release_file_lock file_path w)
    end.

Fixpoint repair_loop (results : list (string * Compliance)) (updated_files : nat)
    (w : world) : nat * world :=
  match results with
  | [] => (updated_files, w)
  | (file_path, r) :: rest =>
    if negb (is_compliant r) && not_nil (issues r) && not_nil (update_info r) then
      let '(updated, w) := update_file_compliance w file_path (update_info r) in
      if updated then
        let new_hash := calculate_file_hash w file_path in
        let w :=
          if truthy new_hash
          then with_project_files_hash_cache
                 (<[file_path := new_hash]> (project_files_hash_cache w)) w
          else w in
        repair_loop rest (S updated_files) w
      else repair_loop rest updated_files w
    else repair_loop rest updated_files w
  end.

(** Returns [(total_files, updated_files)]. *)
Definition process_files_for_compliance (w : world) (files : list Path)
  : (nat * nat) * world :=
  let '(compliance_results, w) := check_project_files_compliance w files in
  let total_files := length compliance_results in
  let '(updated_files, w) := repair_loop compliance_results 0%nat w in
  ((total_files, updated_files), w).

(** *** Todo ledger *)

Definition todo_header : string := "# 待处理文件路径|优先级|添加时间" ++ LF.

(** The path column of a ledger line, when the line is a data line. *)
Definition ledger_key (line : string) : option string :=
  let line := strip line in
  if nonempty line && negb (startswith "#" line)
  then Some (strip (split1_head "|" line)) else None.

Definition existing_files_of (text : string) : gset string :=
  list_to_set (omap ledger_key (readlines text)).

Definition todo_priority (w : world) : string :=
  if String.eqb (get_project_mode w) "devP" then "HIGH" else "LOW".

Definition todo_item (w : world) (file_path : Path) : string :=
  file_path ++ "|" ++ todo_priority w ++ "|" ++ isoformat (now w).

(** The loop of [add_files_to_todo]: the lines to add, the skipped files
    with the resolution that skipped them, and the state after. *)
Fixpoint todo_loop (existing_files : gset string) (files : list Path) (w : world)
  : list string * list (Path * string) * world :=
  match files with
  | [] => ([], [], w)
  | file_path :: rest =>
    let '(has_conflict, conflict_reason) := check_path_conflicts w file_path in
    if bool_decide (file_path ∈ existing_files) then todo_loop existing_files rest w
    else
      let '(skip, resolution, w) :=
        if has_conflict then
          let '(resolution, w) := resolve_path_conflict w file_path conflict_reason in
          (is_skip resolution, resolution, w)
        else (false, "", w) in
      if skip then
        let '(files_to_add, skipped_files, w') := todo_loop existing_files rest w in
        (files_to_add, (file_path, resolution) :: skipped_files, w')
      else
        let item := todo_item w file_path in
        let '(files_to_add, skipped_files, w') := todo_loop existing_files rest w in
        (item :: files_to_add, skipped_files, w')
  end.

Definition ledger_block (files_to_add : list string) : string :=
  todo_header ++ String.concat "" (map (fun item => item ++ LF) files_to_add).

(** [open(p, 'a').write(text)] on a file that is absent or can be opened. *)
Definition append_text (p : Path) (text : string) (w : world) : world :=
  match fs w !! p with
  | None => write_text p text w
  | Some f =>
    match f_data f with
    | Some data => write_text p (data ++ text) w
    | None => w
    end
  end.

Definition add_files_to_todo (w : world) (files : list Path) : world :=
  if negb (not_nil files) then w
  else
    match fs w !! todo_file_path with
    | Some {| f_data := None |} => w     (* reading the ledger raises: nothing is done *)
    | existing =>
      let existing_files :=
        match existing with
        | Some f => existing_files_of (universal_newlines (default "" (f_data f)))
        | None => ∅
        end in
      let '(files_to_add, skipped_files, w) := todo_loop existing_files files w in
      if not_nil files_to_add
      then append_text todo_file_path (ledger_block files_to_add) w
      else w
    end.

(** *** The monitor cycle *)

(** The detection half of [run_monitor_cycle]: the value of [files_to_process]
    and the state once both change checks have run. *)
Definition cycle_candidates (w : world) : list Path * world :=
  let '(changed_rule_files, w) := check_rule_files_changes w in
  let '(changed_project_files, w) := check_project_files_changes w in
  let files_to_process :=
    if not_nil changed_rule_files then scan_project_files w
    else if not_nil changed_project_files then changed_project_files
    else [] in
  (files_to_process, w).

Definition run_monitor_cycle (w : world) : world :=
  let '(files_to_process, w) := cycle_candidates w in
  if not_nil files_to_process && should_execute_evolution w then
    let '((total_checked, total_updated), w) :=
      process_files_for_compliance w files_to_process in
    if (total_updated <? total_checked)%nat
    then add_files_to_todo w files_to_process
    else w
  else w.

(** The raw text of the ledger file; an absent file holds no text, and
    [None] means that opening the file raises. *)
Definition ledger_data (w : world) : option string :=
  match fs w !! todo_file_path with
  | None => Some ""
  | Some f => f_data f
  end.

End Model.

(** ** Further definitions of the model *)

(** A byte that neither is white space nor starts a white-space code point. *)
Definition plain_head (a : ascii) : bool :=
  negb (is_space1 a) && negb (is_code 194 a) && negb (is_code 225 a)
  && negb (is_code 226 a) && negb (is_code 227 a).

(** The test [update_file_compliance] applies to the first ten lines to decide
    that a file already has a header comment. *)
Definition opens_docstring (line : string) : bool :=
  startswith triple_quote (strip line) || startswith "'''" (strip line).

(** The header comment template of [update_file_compliance]. *)
Definition standard_header (today : string) (file_path : Path) : list string :=
  [triple_quote; path_name file_path; "功能说明："; ""; "作者：自我进化系统";
   "更新时间：" ++ today; triple_quote].

Section MoreModel.
Context `{Host}.

(** [update_user_activity]: the failure of the [open] is logged and
    swallowed, so a file that cannot be opened is left as it is. *)
Definition update_user_activity (w : world) : world :=
  match fs w !! user_activity_file with
  | Some {| f_data := None |} => w
  | _ => write_text user_activity_file ("Last activity: " ++ isoformat (now w)) w
  end.

(** Body of the two loops at the head of [start_monitoring]. *)
Definition init_cache_step (w : world) (cache : gmap string (option string))
    (file_path : Path) : gmap string (option string) :=
  let current_hash := calculate_file_hash w file_path in
  if truthy current_hash then <[file_path := current_hash]> cache else cache.

Definition init_hash_caches (w : world) : world :=
  let w :=
    with_rules_hash_cache
      (fold_left (init_cache_step w) (rule_files w) (rules_hash_cache w)) w in
  with_project_files_hash_cache
    (fold_left (init_cache_step w) (scan_project_files w) (project_files_hash_cache w)) w.

(** [start_monitoring] up to its first [time.sleep]. *)
Definition start_monitoring_prologue (w : world) : world :=
  run_monitor_cycle (init_hash_caches w).

(** The survivors of an enqueue, in the words of the specification: the
    given paths that the ledger read at the start does not list and that a
    fresh pass of the conflict resolver does not skip, in the order given, each
    with the clock reading its pass ends at. *)
Fixpoint surviving_paths (existing_files : gset string) (files : list Path) (w : world)
  : list (Path * Z) :=
  match files with
  | [] => []
  | file_path :: rest =>
    if bool_decide (file_path ∈ existing_files)
    then surviving_paths existing_files rest w
    else
      let '(outcome, w') := check_and_resolve w file_path in
      match outcome with
      | SKIPPED => surviving_paths existing_files rest w'
      | _ => (file_path, now w') :: surviving_paths existing_files rest w'
      end
  end.

End MoreModel.

(** A byte of the ASCII range that is not white space: it is no part of any
    white-space code point. *)
Definition ascii_plain (a : ascii) : bool := (code a <? 128)%N && negb (is_space1 a).

(** A path that the ledger can hold: it starts with a plain byte other than
    [#], holds no column separator and no line break, and has no white space
    around it. *)
Definition ledger_safe (p : string) : bool :=
  match p with
  | String a _ => plain_head a && negb (Ascii.eqb a "#")
  | EmptyString => false
  end
  && negb (contains "|" p) && negb (contains LF p) && negb (contains CR p)
  && String.eqb (strip p) p.

(** [readlines] without its accumulator: the lines of a text, each with its
    terminating LF, the last one possibly without. *)
Fixpoint lines_of (s : string) : list string :=
  match s with
  | EmptyString => []
  | String a r =>
    if is_code 10 a then String a EmptyString :: lines_of r
    else match lines_of r with
         | [] => [String a EmptyString]
         | l :: ls => String a l :: ls
         end
  end.

(** *** [RulesLoader]: the variable file *)

Definition with_variables (v : gmap string string) (w : world) : world :=
  World (fs w) (now w) v (rule_files w) (rules_hash_cache w)
        (project_files_hash_cache w) (conflict_log w).

(** [s[1:-1]] *)
Definition strip_ends (s : string) : string := rev (drop 1 (rev (drop 1 s))).

(** The quotes around a value are removed, once. *)
Definition unquote (var_value : string) : string :=
  if startswith quote var_value && endswith quote var_value then strip_ends var_value
  else if startswith "'" var_value && endswith "'" var_value then strip_ends var_value
  else var_value.

(** Body of the loop of [load_variables]: the variable a line defines. *)
Definition parse_var_line (line : string) : option (string * string) :=
  let line := strip line in
  if negb (nonempty line) || startswith "#" line then None
  else match split "|" line with
       | p0 :: _ :: p2 :: _ => Some (strip p0, unquote (strip p2))
       | _ => None
       end.

Definition load_step (variables : gmap string string) (line : string)
  : gmap string string :=
  match parse_var_line line with
  | Some (var_name, var_value) => <[var_name := var_value]> variables
  | None => variables
  end.

(** The line [switch_project_mode] writes for a mode. *)
Definition rule_var_of (mode : string) : string :=
  if String.eqb mode "devP" then "PG_RuleFileName" else "PG_ProdProjectRuleFileName".

Definition project_mod_line (mode : string) : string :=
  "PG_ProjectMod|project_var|" ++ quote ++ mode ++ "," ++ rule_var_of mode ++ quote ++ LF.

(** The first line whose stripped text starts with [PG_ProjectMod|] is
    replaced; [None] when there is no such line. *)
Fixpoint replace_first (new_line : string) (lines : list string) : option (list string) :=
  match lines with
  | [] => None
  | line :: rest =>
    if startswith "PG_ProjectMod|" (strip line) then Some (new_line :: rest)
    else cons line <$> replace_first new_line rest
  end.

(** The lines that follow the first line [replace_first] would replace. *)
Fixpoint lines_after_match (lines : list string) : list string :=
  match lines with
  | [] => []
  | line :: rest =>
    if startswith "PG_ProjectMod|" (strip line) then rest else lines_after_match rest
  end.

Definition switched_lines (mode : string) (lines : list string) : list string :=
  match replace_first (project_mod_line mode) lines with
  | Some lines' => lines'
  | None =>
    (lines ++ [(LF ++ "# PG_ProjectMod配置参数" ++ LF)%string; project_mod_line mode])%list
  end.

Section Loader.
Context `{Host}.

Definition project_vars_file : Path := project_root ++ "/rules/project_vars.txt".

(** [load_variables]: the dictionary is updated in place, never cleared. *)
Definition load_variables (w : world) : bool * world :=
  match read_text w project_vars_file with
  | None => (false, w)
  | Some text =>
    (true, with_variables (fold_left load_step (readlines text) (variables w)) w)
  end.

(** [switch_project_mode]: the file is rewritten with [writelines] and the
    variables are loaded again.  The monitor's list of rule files is no field of
    the loader; the monitor computes it anew at its next scan, and it is carried
    along here as it is. *)
Definition switch_project_mode (w : world) (mode : string) : bool * world :=
  if negb (String.eqb mode "devP" || String.eqb mode "proD") then (false, w)
  else
    match read_text w project_vars_file with
    | None => (false, w)
    | Some text =>
      let lines := switched_lines mode (readlines text) in
      let w := write_text project_vars_file (String.concat "" lines) w in
      (true, snd (load_variables w))
    end.

End Loader.

(** ** A host: POSIX paths, clock rendered in UTC *)

Module PosixUtc.

Definition digit (n : Z) : ascii := ascii_of_N (Z.to_N (48 + n mod 10)).

(** The last [k] decimal digits of [n], zero padded. *)
Fixpoint digits (k : nat) (n : Z) (acc : string) : string :=
  match k with
  | O => acc
  | S k' => digits k' (n / 10) (String (digit n) acc)
  end.

Definition padded (k : nat) (n : Z) : string := digits k n EmptyString.

(** Year, month and day of a day count from 1970-01-01 (proleptic Gregorian). *)
Definition civil (days : Z) : Z * Z * Z :=
  let z := days + 719468 in
  let era := z / 146097 in
  let doe := z - era * 146097 in
  let yoe := (doe - doe / 1460 + doe / 36524 - doe / 146096) / 365 in
  let doy := doe - (365 * yoe + yoe / 4 - yoe / 100) in
  let mp := (5 * doy + 2) / 153 in
  let d := doy - (153 * mp + 2) / 5 + 1 in
  let m := if mp <? 10 then mp + 3 else mp - 9 in
  let y := yoe + era * 400 + (if m <=? 2 then 1 else 0) in
  (y, m, d).

Definition ymd (ms : Z) : string :=
  let '(y, m, d) := civil (ms / 1000 / 86400) in
  padded 4 y ++ "-" ++ padded 2 m ++ "-" ++ padded 2 d.

Definition iso (ms : Z) : string :=
  let secs := (ms / 1000) mod 86400 in
  ymd ms ++ "T" ++ padded 2 (secs / 3600) ++ ":" ++ padded 2 (secs mod 3600 / 60)
         ++ ":" ++ padded 2 (secs mod 60)
         ++ (if ms mod 1000 =? 0 then "" else "." ++ padded 6 (ms mod 1000 * 1000)).

Definition host : Host := {|
  project_root := "/proj";
  isoformat := iso;
  strftime_ymd := ymd;
  getpid := "4711";
  strerror p := "[Errno 13] Permission denied: '" ++ p ++ "'"
|}.

End PosixUtc.

(** ** Concrete states on the POSIX host *)

Module Demo.

(** 2024-01-01T00:00:00 UTC, in milliseconds *)
Definition t0 : Z := 1704067200000.

Definition no_vars : gmap string string := ∅.

Definition vars_of (project_mod : string) : gmap string string :=
  <["PG_ProjectMod" := project_mod]> (<["PG_RuleFileName" := "./rules/base_rules.md"]> ∅).

Definition vars_dev : gmap string string := vars_of "devP,PG_RuleFileName".
Definition vars_prod : gmap string string := vars_of "proD,PG_RuleFileName".

Definition activity_file : Path := "/proj/.trae/.user_activity".
Definition ledger_file : Path := "/proj/rules/todo_Self-evolution_lists.txt".

Definition source (text : string) : file := File (Some text) (t0 - 86400000).

Definition touched_10s_ago : file := File (Some "Last activity: 2023-12-31T23:59:50") (t0 - 10000).

(** Scenario B: 'proD', the human was active 10 s ago, no sentinel for b.py. *)
Definition prod_active : world :=
  World (<["/proj/b.py" := source "print(1)"]> (<[activity_file := touched_10s_ago]> ∅))
        t0 vars_prod [] ∅ ∅ [].

(** The same workspace when the mode source is missing. *)
Definition unset_active : world :=
  World (<["/proj/b.py" := source "print(1)"]> (<[activity_file := touched_10s_ago]> ∅))
        t0 no_vars [] ∅ ∅ [].

(** A tracked file that can no longer be opened. *)
Definition a_unreadable : world :=
  World (<["/proj/a.py" := File None (t0 - 86400000)]> ∅)
        t0 vars_dev [] ∅ (<["/proj/a.py" := Some (MD5.hexdigest "print(1)")]> ∅) [].

(** Scenario C: the sentinel of c.py is 400 s old. *)
Definition c_lock : Path := "/proj/.trae/.locks/" ++ MD5.hexdigest "/proj/c.py" ++ ".lock".

Definition c_stale : world :=
  World (<[c_lock := File (Some "锁定时间: 2023-12-31T23:53:20") (t0 - 400000)]>
           (<["/proj/c.py" := source "print(1)"]> ∅))
        t0 vars_dev [] ∅ ∅ [].

(** The sentinel of c.py was created a moment ago and nothing is written to it yet. *)
Definition c_blank : world :=
  World (<[c_lock := File (Some "") (t0 - 1)]> (<["/proj/c.py" := source "print(1)"]> ∅))
        t0 vars_prod [] ∅ ∅ [].

(** Scenario D: the ledger holds d.py. *)
Definition d_ledger : string :=
  "# 待处理文件路径|优先级|添加时间" ++ LF ++ "/proj/d.py|HIGH|2024-01-01T00:00:00" ++ LF.

Definition d_listed : world :=
  World (<[ledger_file := File (Some d_ledger) (t0 - 60000)]>
           (<["/proj/d.py" := source "print(1)"]>
              (<["/proj/e.py" := source "print(2)"]> ∅)))
        (t0 + 60000) vars_prod [] ∅ ∅ [].

(** A project file whose name holds the column separator of the ledger. *)
Definition bar_file : Path := "/proj/a|b.py".

Definition bar_world : world :=
  World (<[bar_file := source "print(1)"]> ∅) t0 vars_dev [] ∅ ∅ [].

(** A cycle with two changed files: a.py lacks its header and can be
    repaired, b.py cannot be opened. *)
Definition two_changed : world :=
  World (<["/proj/a.py" := source ("print(1)" ++ LF)]>
           (<["/proj/b.py" := File None (t0 - 86400000)]> ∅))
        t0 vars_dev []
        ∅
        (<["/proj/a.py" := Some (MD5.hexdigest "")]>
           (<["/proj/b.py" := Some (MD5.hexdigest "")]> ∅))
        [].

(** The active rule file was edited; no project file was. *)
Definition rule_file_path : Path := "/proj/rules/base_rules.md".

Definition rule_changed : world :=
  World (<[rule_file_path := source "# rules, second edition"]>
           (<["/proj/a.py" := source "# a"]> (<["/proj/notes.md" := source "notes"]> ∅)))
        t0 vars_dev [rule_file_path]
        (<[rule_file_path := Some (MD5.hexdigest "# rules, first edition")]> ∅)
        (<[rule_file_path := Some (MD5.hexdigest "# rules, second edition")]>
           (<["/proj/a.py" := Some (MD5.hexdigest "# a")]>
              (<["/proj/notes.md" := Some (MD5.hexdigest "notes")]> ∅)))
        [].

End Demo.

(** ** Two concurrent callers of [acquire_file_lock] on one path

    Each call advances one system call (or clock reading) at a time; the
    scheduler interleaves the two calls and lets time pass between any two
    steps.  The shared state is the clock and the sentinel of the path. *)

Module Race.

Inductive who := A | B.

(** Where a call stands in the body of [acquire_file_lock]. *)
Inductive pc :=
| AtStart              (* start_time = time.time() *)
| AtCheck              (* while time.time() - start_time < timeout *)
| AtCreate             (* open(lock_file, 'x') *)
| AtWrite              (* the two writes, flushed when the file is closed *)
| AtExists             (* if lock_file.exists() *)
| AtStat               (* lock_time = lock_file.stat().st_mtime *)
| AtAge                (* if time.time() - lock_time > 300 *)
| AtUnlink             (* lock_file.unlink() *)
| AtSleep              (* time.sleep(0.1) is entered *)
| Asleep               (* ... and left once 100 ms have passed *)
| Returned (r : bool).

Record caller := Caller {
  at_ : pc;
  start_time : Z;
  lock_time : Z;
  wake : Z
}.

(** The sentinel: who created it and its modification time. *)
Record sentinel := Sentinel {
  creator : option who;     (* None: left behind by an earlier process *)
  mtime : Z
}.

Record state := State {
  clock : Z;
  lock : option sentinel;
  callerA : caller;
  callerB : caller
}.

Inductive action := Run (i : who) | Tick (d : Z).

Definition who_eqb (i j : who) : bool :=
  match i, j with A, A | B, B => true | _, _ => false end.

Definition created_by (i : who) (s : sentinel) : bool :=
  match creator s with Some j => who_eqb i j | None => false end.

Definition goto (p : pc) (c : caller) : caller :=
  Caller p (start_time c) (lock_time c) (wake c).

(** One step of caller [i]: the new sentinel and the new caller state.
    [timeout] is in milliseconds. *)
Definition step_caller (timeout : Z) (i : who) (now : Z) (l : option sentinel) (c : caller)
  : option sentinel * caller :=
  match at_ c with
  | AtStart => (l, Caller AtCheck now (lock_time c) (wake c))
  | AtCheck => (l, goto (if now - start_time c <? timeout then AtCreate else Returned false) c)
  | AtCreate =>
    match l with
    | None => (Some (Sentinel (Some i) now), goto AtWrite c)
    | Some _ => (l, goto AtExists c)           (* FileExistsError *)
    end
  | AtWrite =>
    (match l with
     | Some s => if created_by i s then Some (Sentinel (Some i) now) else l
     | None => None
     end, goto (Returned true) c)
  | AtExists => (l, goto (match l with Some _ => AtStat | None => AtSleep end) c)
  | AtStat =>
    match l with
    | Some s => (l, Caller AtAge (start_time c) (mtime s) (wake c))
    | None => (l, goto AtSleep c)              (* stat raises, the handler logs it *)
    end
  | AtAge => (l, goto (if now - lock_time c >? 300000 then AtUnlink else AtSleep) c)
  | AtUnlink => (None, goto AtSleep c)         (* a missing file raises, logged *)
  | AtSleep => (l, Caller Asleep (start_time c) (lock_time c) (now + 100))
  | Asleep => (l, if wake c <=? now then goto AtCheck c else c)
  | Returned _ => (l, c)
  end.

Definition step (timeout : Z) (s : state) (a : action) : state :=
  match a with
  | Tick d => if 0 <? d then State (clock s + d) (lock s) (callerA s) (callerB s) else s
  | Run A =>
    let '(l, c) := step_caller timeout A (clock s) (lock s) (callerA s) in
    State (clock s) l c (callerB s)
  | Run B =>
    let '(l, c) := step_caller timeout B (clock s) (lock s) (callerB s) in
    State (clock s) l (callerA s) c
  end.

Definition run (timeout : Z) (schedule : list action) (s : state) : state :=
  fold_left (step timeout) schedule s.

Definition fresh_caller : caller := Caller AtStart 0 0 0.

Definition initial (now : Z) (l : option sentinel) : state :=
  State now l fresh_caller fresh_caller.

Definition succeeded (c : caller) : bool :=
  match at_ c with Returned true => true | _ => false end.

(** A schedule on which the staleness check of one caller is overtaken by
    the whole recovery of the other. *)
Definition overtaking : list action :=
  [ Run A; Run A; Run A;                          (* A: start, check, create fails *)
    Run B; Run B; Run B; Run B; Run B; Run B;     (* B: ... exists, stat, stale: about to unlink *)
    Run A; Run A; Run A; Run A; Run A;            (* A: exists, stat, stale, unlink, sleep *)
    Tick 100;
    Run A; Run A; Run A; Run A;                   (* A: wakes, check, create, write: returns True *)
    Run B; Run B;                                 (* B: unlinks the sentinel of A, sleeps *)
    Tick 100;
    Run B; Run B; Run B; Run B ].                 (* B: wakes, check, create, write: returns True *)

(** The schedule of a call running alone: it is given 100 ms whenever it sleeps. *)
Fixpoint alone (fuel : nat) (timeout : Z) (s : state) : state :=
  match fuel with
  | O => s
  | S fuel' =>
    match at_ (callerA s) with
    | Returned _ => s
    | Asleep => alone fuel' timeout (step timeout (step timeout s (Tick 100)) (Run A))
    | _ => alone fuel' timeout (step timeout s (Run A))
    end
  end.

(** A caller that has created the sentinel. *)
Definition holds (c : caller) : bool :=
  match at_ c with
  | AtWrite | Returned true => true
  | _ => false
  end.

Definition caller_ok (n0 : Z) (c : caller) : Prop :=
  at_ c <> AtUnlink /\ (at_ c = AtAge -> n0 <= lock_time c).

(** What holds of every state reached from a start at [n0] without a
    sentinel, for as long as the TTL has not passed since [n0]. *)
Definition inv (n0 : Z) (s : state) : Prop :=
  n0 <= clock s
  /\ (forall l, lock s = Some l -> n0 <= mtime l)
  /\ caller_ok n0 (callerA s)
  /\ caller_ok n0 (callerB s)
  /\ (holds (callerA s) = true \/ holds (callerB s) = true -> lock s <> None)
  /\ ~ (holds (callerA s) = true /\ holds (callerB s) = true).

(** The sentinel of a path as the sequential model has it. *)
Definition sentinel_of (w : world) (lock_file : Path) : option sentinel :=
  match fs w !! lock_file with
  | Some f => Some (Sentinel None (f_mtime f))
  | None => None
  end.

End Race.

(** ** Further concrete states *)

Module Cases.

(** A Python module that opens with its docstring and has no leading [#]. *)
Definition docstring_text : string :=
  triple_quote ++ "A module." ++ triple_quote ++ LF ++ "x = 1" ++ LF.

Definition docstring_module : world :=
  World (<["/proj/m.py" := Demo.source docstring_text]> ∅)
        Demo.t0 Demo.vars_dev [] ∅ ∅ [].

(** A shell script without a leading [#]. *)
Definition script_text : string := "echo hi" ++ LF.

Definition shell_script : world :=
  World (<["/proj/run.sh" := Demo.source script_text]> ∅)
        Demo.t0 Demo.vars_dev [] ∅ ∅ [].

(** Two callers that take turns, from a start without a sentinel. *)
Definition taking_turns : list Race.action :=
  [ Race.Run Race.A; Race.Run Race.B; Race.Run Race.A; Race.Run Race.B;
    Race.Run Race.A; Race.Run Race.B; Race.Run Race.A; Race.Run Race.B;
    Race.Run Race.B; Race.Run Race.B; Race.Run Race.B; Race.Tick 100;
    Race.Run Race.B; Race.Run Race.B; Race.Run Race.B ].

(** A variable file that sets the development mode in its last line. *)
Definition vars_text : string :=
  "# project variables" ++ LF
  ++ "PG_RuleFileName|project_var|" ++ quote ++ "./rules/base_rules.md" ++ quote ++ LF
  ++ "PG_ProdProjectRuleFileName|project_var|" ++ quote ++ "./rules/prod_rules.md" ++ quote ++ LF
  ++ project_mod_line "devP".

Definition with_vars_file : world :=
  World (<["/proj/rules/project_vars.txt" := Demo.source vars_text]> ∅)
        Demo.t0 ∅ [] ∅ ∅ [].

(** A rule file edited under 'proD' while the user is active. *)
Definition prod_rule_changed : world :=
  World (<[Demo.rule_file_path := Demo.source "# rules, second edition"]>
           (<["/proj/a.py" := Demo.source "# a"]>
              (<["/proj/notes.md" := Demo.source "notes"]>
                 (<[Demo.activity_file := Demo.touched_10s_ago]> ∅))))
        Demo.t0 Demo.vars_prod [Demo.rule_file_path]
        (<[Demo.rule_file_path := Some (MD5.hexdigest "# rules, first edition")]> ∅)
        (<[Demo.rule_file_path := Some (MD5.hexdigest "# rules, second edition")]>
           (<["/proj/a.py" := Some (MD5.hexdigest "# a")]>
              (<["/proj/notes.md" := Some (MD5.hexdigest "notes")]> ∅)))
        [].

(** Under 'proD', the sentinel of c.py is 400 s old and holds a note. *)
Definition prod_stale : world :=
  World (<[Demo.c_lock := File (Some "锁定时间: 2023-12-31T23:53:20") (Demo.t0 - 400000)]>
           (<["/proj/c.py" := Demo.source "print(1)"]> ∅))
        Demo.t0 Demo.vars_prod [] ∅ ∅ [].

End Cases.

(** * Properties *)

Section Proofs.
Context `{Host}.

(** ** What the operations leave alone *)

Lemma get_project_mode_variables (w w' : world) :
  variables w' = variables w -> get_project_mode w' = get_project_mode w.
Proof.
  intros E. unfold get_project_mode, get_project_mod_config, get_variable.
  now rewrite E.
Qed.

Lemma should_execute_evolution_eq (w : world) :
  should_execute_evolution w =
  if String.eqb (get_project_mode w) "devP" then true else negb (is_user_active w).
Proof. reflexivity. Qed.

(** ** C2: the should-execute decision *)

(** C2 (as amended).  The decision is a function of the operating mode and the
    human-activity state alone: under 'devP' it is always to proceed, under any
    other mode value ('proD' or an unknown one) it is to proceed exactly when the
    human is inactive, and when the mode source is missing or unparseable the
    mode defaults to 'devP', so the decision is to proceed. *)
Theorem should_execute_evolution_policy (w : world) :
  (forall w', get_project_mode w' = get_project_mode w ->
              is_user_active w' = is_user_active w ->
              should_execute_evolution w' = should_execute_evolution w)
  /\ (get_project_mode w = "devP" -> should_execute_evolution w = true)
  /\ (get_project_mode w = "proD" ->
      should_execute_evolution w = negb (is_user_active w))
  /\ (get_project_mode w <> "devP" ->
      should_execute_evolution w = negb (is_user_active w))
  /\ (get_project_mod_config w = None ->
      get_project_mode w = "devP" /\ should_execute_evolution w = true).
Proof.
  split; [|split; [|split; [|split]]].
  - intros w' Em Ea. rewrite !should_execute_evolution_eq. now rewrite Em, Ea.
  - intros Em. rewrite should_execute_evolution_eq, Em. reflexivity.
  - intros Em. rewrite should_execute_evolution_eq, Em. reflexivity.
  - intros Em. rewrite should_execute_evolution_eq.
    destruct (String.eqb_spec (get_project_mode w) "devP"); [contradiction | reflexivity].
  - intros E. rewrite should_execute_evolution_eq. unfold get_project_mode.
    now rewrite E.
Qed.

(** ** The lock loop *)

Lemma acquire_loop_log (fuel : nat) (lock_file : Path) (start timeout : Z)
    (l : list ConflictRecord) (w : world) :
  acquire_loop fuel lock_file start timeout (with_conflict_log l w) =
  (fst (acquire_loop fuel lock_file start timeout w),
   with_conflict_log l (snd (acquire_loop fuel lock_file start timeout w))).
Proof.
  revert w. induction fuel as [|fuel IH]; intros w; [reflexivity|].
  cbn [acquire_loop].
  change (now (with_conflict_log l w)) with (now w).
  change (fs (with_conflict_log l w)) with (fs w).
  destruct (now w - start <? timeout); [|reflexivity].
  destruct (fs w !! lock_file) as [f|]; [|reflexivity].
  destruct (now w - f_mtime f >? 300000).
  - apply (IH (sleep 100 (unlink lock_file w))).
  - apply (IH (sleep 100 w)).
Qed.

Lemma acquire_file_lock_log (l : list ConflictRecord) (w : world) (p : Path) (timeout : Z) :
  acquire_file_lock (with_conflict_log l w) p timeout =
  (fst (acquire_file_lock w p timeout),
   with_conflict_log l (snd (acquire_file_lock w p timeout))).
Proof. apply acquire_loop_log. Qed.

(** The fuel of the loop is never the reason it stops: beyond the number of
    100 ms sleeps that fit before the deadline, more fuel changes nothing. *)
Lemma acquire_loop_fuel (lock_file : Path) (start timeout : Z) (fuel fuel' : nat) (w : world) :
  (Z.to_nat ((start + timeout - now w + 99) / 100) < fuel)%nat ->
  (Z.to_nat ((start + timeout - now w + 99) / 100) < fuel')%nat ->
  acquire_loop fuel lock_file start timeout w = acquire_loop fuel' lock_file start timeout w.
Proof.
  revert fuel' w. induction fuel as [|fuel IH]; intros fuel' w Hf Hf'; [lia|].
  destruct fuel' as [|fuel']; [lia|].
  cbn [acquire_loop].
  destruct (Z.ltb_spec (now w - start) timeout) as [Hlt|Hge]; [|reflexivity].
  destruct (fs w !! lock_file) as [f|]; [|reflexivity].
  assert (Hstep : forall w0 : world, now w0 = now w ->
            (Z.to_nat ((start + timeout - now (sleep 100 w0) + 99) / 100)
             < Z.to_nat ((start + timeout - now w + 99) / 100))%nat).
  { intros w0 E. change (now (sleep 100 w0)) with (now w0 + 100). rewrite E.
    replace (start + timeout - (now w + 100) + 99)
      with (start + timeout - now w + 99 + (-1) * 100) by lia.
    rewrite Z.div_add by lia.
    assert (1 <= (start + timeout - now w + 99) / 100).
    { apply Z.div_le_lower_bound; lia. }
    lia. }
  destruct (now w - f_mtime f >? 300000).
  - specialize (Hstep (unlink lock_file w) eq_refl). apply IH; lia.
  - specialize (Hstep w eq_refl). apply IH; lia.
Qed.

Lemma acquire_file_lock_fuel (w : world) (p : Path) (timeout : Z) (fuel : nat) :
  (acquire_fuel (timeout * 1000) <= fuel)%nat ->
  acquire_loop fuel (get_lock_file_path p) (now w) (timeout * 1000) w =
  acquire_file_lock w p timeout.
Proof.
  intros Hf. unfold acquire_file_lock. apply acquire_loop_fuel.
  - unfold acquire_fuel in Hf.
    replace (now w + timeout * 1000 - now w + 99) with (timeout * 1000 + 99) by lia. lia.
  - unfold acquire_fuel.
    replace (now w + timeout * 1000 - now w + 99) with (timeout * 1000 + 99) by lia. lia.
Qed.

(** What the loop may change: the clock moves forward and only the sentinel
    of the path is touched. *)
Lemma acquire_loop_frame (fuel : nat) (lock_file : Path) (start timeout : Z) (w : world) :
  let w' := snd (acquire_loop fuel lock_file start timeout w) in
  variables w' = variables w
  /\ rule_files w' = rule_files w
  /\ rules_hash_cache w' = rules_hash_cache w
  /\ project_files_hash_cache w' = project_files_hash_cache w
  /\ conflict_log w' = conflict_log w
  /\ now w <= now w'
  /\ (forall k : string, k <> lock_file -> fs w' !! k = fs w !! k).
Proof.
  revert w. induction fuel as [|fuel IH]; intros w; cbn [acquire_loop].
  { cbn. repeat split; try reflexivity; lia. }
  destruct (now w - start <? timeout); [|cbn; repeat split; try reflexivity; lia].
  destruct (fs w !! lock_file) as [f|] eqn:Ef.
  - set (w0 := if now w - f_mtime f >? 300000 then unlink lock_file w else w).
    specialize (IH (sleep 100 w0)). cbn zeta in IH.
    destruct IH as (Hv & Hr & Hc & Hp & Hl & Hn & Hfs).
    assert (Hw0 : variables w0 = variables w /\ rule_files w0 = rule_files w
                  /\ rules_hash_cache w0 = rules_hash_cache w
                  /\ project_files_hash_cache w0 = project_files_hash_cache w
                  /\ conflict_log w0 = conflict_log w /\ now w0 = now w
                  /\ (forall k : string, k <> lock_file -> fs w0 !! k = fs w !! k)).
    { unfold w0. destruct (now w - f_mtime f >? 300000); repeat split; try reflexivity.
      intros k Hk. cbn. now rewrite lookup_delete_ne. }
    destruct Hw0 as (Hv0 & Hr0 & Hc0 & Hp0 & Hl0 & Hn0 & Hfs0).
    cbn zeta. change (variables (sleep 100 w0)) with (variables w0) in Hv.
    change (rule_files (sleep 100 w0)) with (rule_files w0) in Hr.
    change (rules_hash_cache (sleep 100 w0)) with (rules_hash_cache w0) in Hc.
    change (project_files_hash_cache (sleep 100 w0)) with (project_files_hash_cache w0) in Hp.
    change (conflict_log (sleep 100 w0)) with (conflict_log w0) in Hl.
    change (now (sleep 100 w0)) with (now w0 + 100) in Hn.
    change (fs (sleep 100 w0)) with (fs w0) in Hfs.
    repeat split; try congruence; try lia.
    intros k Hk. rewrite Hfs by exact Hk. now apply Hfs0.
  - cbn. repeat split; try reflexivity; try lia.
    intros k Hk. now rewrite lookup_insert_ne.
Qed.

(** ** The files of the monitor are distinct from every sentinel *)

Lemma append_assoc (a b c : string) : (a ++ b) ++ c = a ++ (b ++ c).
Proof.
  induction a as [|x a IH]; [reflexivity|].
  change (String x ((a ++ b) ++ c) = String x (a ++ (b ++ c))). now rewrite IH.
Qed.

Lemma lock_file_not_activity (p : Path) : get_lock_file_path p <> user_activity_file.
Proof.
  unfold get_lock_file_path, lock_dir, user_activity_file.
  rewrite append_assoc. intros E. apply String.app_inj in E. discriminate E.
Qed.

Lemma lock_file_not_todo (p : Path) : get_lock_file_path p <> todo_file_path.
Proof.
  unfold get_lock_file_path, lock_dir, todo_file_path.
  rewrite append_assoc. intros E. apply String.app_inj in E. discriminate E.
Qed.

Lemma is_user_active_unlink_lock (w : world) (p : Path) :
  is_user_active (unlink (get_lock_file_path p) w) = is_user_active w.
Proof.
  unfold is_user_active, unlink. cbn.
  rewrite lookup_delete_ne by apply lock_file_not_activity. reflexivity.
Qed.

(** ** C1: resolution of a reported conflict *)

Lemma resolve_path_conflict_other_modes (w : world) (p : Path) (reason : string) :
  get_project_mode w <> "devP" ->
  resolve_path_conflict w p reason =
  ("proD模式下跳过处理，尊重用户活动",
   log_conflict p reason "proD模式下跳过处理，尊重用户活动" (log_conflict p reason "待处理" w)).
Proof.
  intros Hm. unfold resolve_path_conflict.
  destruct (String.eqb_spec (get_project_mode w) "devP"); [contradiction | reflexivity].
Qed.

Lemma resolve_path_conflict_devP (w : world) (p : Path) (reason : string) :
  get_project_mode w = "devP" ->
  resolve_path_conflict w p reason =
  let w0 := log_conflict p reason "待处理" w in
  let r := acquire_file_lock w0 p 5 in
  let resolution :=
    if fst r then "devP模式下强制获取锁，执行自我进化" else "无法获取文件锁，跳过处理" in
  (resolution, log_conflict p reason resolution (snd r)).
Proof.
  intros Hm. unfold resolve_path_conflict. rewrite Hm. cbn [String.eqb Ascii.eqb Bool.eqb].
  cbv zeta. destruct (acquire_file_lock _ p 5) as [[|] w1]; reflexivity.
Qed.

Lemma acquire_file_lock_logged (q : Path) (reason resolution : string) (w : world)
    (p : Path) (timeout : Z) :
  acquire_file_lock (log_conflict q reason resolution w) p timeout =
  (fst (acquire_file_lock w p timeout),
   with_conflict_log (conflict_log (log_conflict q reason resolution w))
                     (snd (acquire_file_lock w p timeout))).
Proof. exact (acquire_file_lock_log _ w p timeout). Qed.

(** C1 (as amended).  For a path on which the conflict check reports a
    conflict: while the mode is anything but 'devP' ('proD' or unknown) the
    resolver makes no attempt on the lock (the file system and the clock are
    as before) and the outcome is SKIPPED; under 'devP' it attempts the lock
    with the 5 second timeout, and the outcome is FORCED_WITH_LOCK when the
    acquisition succeeds and SKIPPED when it fails. *)
Theorem conflict_resolution_by_mode (w : world) (p : Path) :
  fst (check_path_conflicts w p) = true ->
  (get_project_mode w <> "devP" ->
     fst (check_and_resolve w p) = SKIPPED
     /\ fs (snd (check_and_resolve w p)) = fs w
     /\ now (snd (check_and_resolve w p)) = now w)
  /\ (get_project_mode w = "devP" ->
     fst (check_and_resolve w p) =
       (if fst (acquire_file_lock w p 5) then FORCED_WITH_LOCK else SKIPPED)
     /\ fs (snd (check_and_resolve w p)) = fs (snd (acquire_file_lock w p 5))
     /\ now (snd (check_and_resolve w p)) = now (snd (acquire_file_lock w p 5))).
Proof.
  intros Hc. unfold check_and_resolve.
  destruct (check_path_conflicts w p) as [has_conflict reason]. cbn in Hc. subst has_conflict.
  split; intros Hm.
  - rewrite resolve_path_conflict_other_modes by exact Hm. cbn [fst snd].
    split; [vm_compute; reflexivity | split; reflexivity].
  - rewrite resolve_path_conflict_devP by exact Hm. cbv zeta.
    rewrite acquire_file_lock_logged. cbn [fst snd].
    generalize (acquire_file_lock w p 5). intros [acquired w1]. cbn [fst snd].
    destruct acquired.
    + split; [vm_compute; reflexivity | split; reflexivity].
    + split; [vm_compute; reflexivity | split; reflexivity].
Qed.

(** ** C6: a stale sentinel is removed and the lock taken *)

(** C6.  When the sentinel of a path exists and is older than the 300 second
    TTL, a call of [acquire_file_lock] with a timeout of at least one second
    removes it on its first attempt, and its second attempt, 100 ms later and
    within the timeout, creates the sentinel anew and returns true. *)
Theorem stale_lock_is_healed (w : world) (p : Path) (timeout : Z) (f : file) :
  1 <= timeout ->
  fs w !! get_lock_file_path p = Some f ->
  now w - f_mtime f > 300000 ->
  let lock_file := get_lock_file_path p in
  let w1 := sleep 100 (unlink lock_file w) in
  acquire_file_lock w p timeout = (true, write_text lock_file (lock_note w1) w1)
  /\ fs (snd (acquire_file_lock w p timeout)) !! lock_file
     = Some (File (Some (lock_note w1)) (now w + 100)).
Proof.
  intros Ht Hf Hstale lock_file w1.
  assert (E : acquire_file_lock w p timeout = (true, write_text lock_file (lock_note w1) w1)).
  { unfold acquire_file_lock, acquire_fuel.
    destruct (Z.to_nat ((timeout * 1000 + 99) / 100)) as [|k] eqn:Ek.
    { assert (1 <= (timeout * 1000 + 99) / 100) by (apply Z.div_le_lower_bound; lia). lia. }
    cbn [acquire_loop]. fold lock_file.
    replace (now w - now w <? timeout * 1000) with true by (symmetry; apply Z.ltb_lt; lia).
    unfold lock_file at 1. rewrite Hf.
    replace (now w - f_mtime f >? 300000) with true
      by (symmetry; apply Z.gtb_lt; lia).
    fold lock_file. fold w1.
    change (now w1) with (now w + 100).
    replace (now w + 100 - now w <? timeout * 1000) with true
      by (symmetry; apply Z.ltb_lt; lia).
    change (fs w1) with (delete lock_file (fs w)).
    rewrite lookup_delete_eq. reflexivity. }
  split; [exact E|].
  rewrite E. cbn. rewrite lookup_insert_eq. reflexivity.
Qed.

(** ** C10: sentinels without readable content *)

(** C10 (as amended).  When the sentinel of a path exists but cannot be read,
    [is_file_locked] answers that the path is not locked; when it can be read
    and holds nothing but white space, [is_file_locked] answers that the path
    is locked, with empty lock information.  In both cases the conflict check
    raises no lock-based conflict: its answer is the one it gives when the
    sentinel is absent. *)
Theorem blank_or_unreadable_sentinel (w : world) (p : Path) (f : file) :
  fs w !! get_lock_file_path p = Some f ->
  match f_data f with
  | None => True
  | Some data => strip (universal_newlines data) = ""
  end ->
  is_file_locked w p =
    match f_data f with None => (false, None) | Some _ => (true, Some "") end
  /\ check_path_conflicts w p = check_path_conflicts (unlink (get_lock_file_path p) w) p.
Proof.
  intros Hf Hblank.
  assert (E : is_file_locked w p =
              match f_data f with None => (false, None) | Some _ => (true, Some "") end).
  { unfold is_file_locked, exists_, read_text. rewrite Hf. cbn.
    destruct (f_data f) as [data|]; cbn; [now rewrite Hblank | reflexivity]. }
  split; [exact E|].
  unfold check_path_conflicts. rewrite E.
  assert (E' : is_file_locked (unlink (get_lock_file_path p) w) p = (false, None)).
  { unfold is_file_locked, exists_, unlink. cbn. now rewrite lookup_delete_eq. }
  rewrite E', is_user_active_unlink_lock.
  change (get_project_mode (unlink (get_lock_file_path p) w)) with (get_project_mode w).
  destruct (f_data f); reflexivity.
Qed.

(** ** Change detection *)

Lemma NoDup_list_filter {A} (f : A -> bool) (l : list A) :
  NoDup l -> NoDup (List.filter f l).
Proof.
  induction 1 as [|x l Hx Hl IH]; cbn; [constructor|].
  destruct (f x); [|exact IH].
  constructor; [|exact IH].
  intros Hin. apply Hx. apply list_elem_of_In in Hin. apply List.filter_In in Hin.
  apply list_elem_of_In. tauto.
Qed.

Lemma scan_project_files_NoDup (w : world) : NoDup (scan_project_files w).
Proof.
  unfold scan_project_files. apply NoDup_list_filter.
  exact (NoDup_fst_map_to_list (fs w)).
Qed.

Lemma project_change_step_changed (w : world) (changed : list Path)
    (cache : gmap string (option string)) (a q : Path) :
  q ∈ fst (project_change_step w (changed, cache) a) <->
  q ∈ changed \/
  (q = a /\ exists old, cache !! a = Some old /\ calculate_file_hash w a <> old
                        /\ a <> todo_file_path).
Proof.
  unfold project_change_step.
  destruct (cache !! a) as [old|] eqn:Ec; cbn [fst].
  - destruct (bool_decide_reflect (calculate_file_hash w a ≠ old)) as [Hne|He]; cbn [fst].
    + destruct (bool_decide_reflect (a ≠ todo_file_path)) as [Ht|Ht].
      * rewrite elem_of_app, list_elem_of_singleton. split.
        -- intros [?| ->]; [now left | right; split; [reflexivity | now exists old]].
        -- intros [?| [-> _]]; [now left | now right].
      * split; [now left|]. intros [?|(_ & o & _ & _ & Hneq)]; [assumption | contradiction].
    + split; [now left|]. intros [?|(_ & o & Ho & Hneq & _)]; [assumption|].
      injection Ho as <-. contradiction.
  - split; [now left|]. intros [?|(_ & o & Ho & _)]; [assumption | discriminate].
Qed.

Lemma project_change_step_cache_other (w : world) (changed : list Path)
    (cache : gmap string (option string)) (a q : Path) :
  q <> a -> snd (project_change_step w (changed, cache) a) !! q = cache !! q.
Proof.
  intros Hq. unfold project_change_step.
  destruct (cache !! a) as [old|]; cbn [snd].
  - destruct (bool_decide (calculate_file_hash w a ≠ old)); cbn [snd];
      [now rewrite lookup_insert_ne | reflexivity].
  - destruct (truthy (calculate_file_hash w a)); [now rewrite lookup_insert_ne | reflexivity].
Qed.

Lemma project_change_step_cache_tracked (w : world) (changed : list Path)
    (cache : gmap string (option string)) (a : Path) (old : option string) :
  cache !! a = Some old ->
  snd (project_change_step w (changed, cache) a) !! a = Some (calculate_file_hash w a).
Proof.
  intros Ec. unfold project_change_step. rewrite Ec.
  destruct (bool_decide_reflect (calculate_file_hash w a ≠ old)) as [Hne|He]; cbn [snd].
  - now rewrite lookup_insert_eq.
  - rewrite Ec. f_equal. symmetry. now apply dec_stable.
Qed.

(** Every enumerated file is judged on its own fingerprint, whatever
    happened to the files before it. *)
Lemma detect_fold_changed (w : world) (l : list Path) :
  NoDup l ->
  forall (changed : list Path) (cache : gmap string (option string)) (q : Path),
  q ∈ fst (fold_left (project_change_step w) l (changed, cache)) <->
  q ∈ changed \/
  (q ∈ l /\ exists old, cache !! q = Some old /\ calculate_file_hash w q <> old
                        /\ q <> todo_file_path).
Proof.
  induction 1 as [|a l Ha Hl IH]; intros changed cache q; cbn [fold_left].
  - cbn. split; [now left|]. intros [?|[Hin _]]; [assumption | now apply elem_of_nil in Hin].
  - destruct (project_change_step w (changed, cache) a) as [changed' cache'] eqn:Es.
    rewrite IH.
    assert (Hc := project_change_step_changed w changed cache a q). rewrite Es in Hc.
    cbn [fst] in Hc. rewrite Hc. clear Hc.
    assert (Ho : forall k, k <> a -> cache' !! k = cache !! k).
    { intros k Hk. generalize (project_change_step_cache_other w changed cache a k Hk).
      now rewrite Es. }
    rewrite elem_of_cons. split.
    + intros [[?| [-> Hx]]|[Hin (old & Hold & Hx)]].
      * now left.
      * right. split; [now left | exact Hx].
      * right. split; [now right|]. exists old.
        rewrite <- Ho; [tauto|]. intros ->. contradiction.
    + intros [?|[[->|Hin] (old & Hold & Hx)]].
      * left. now left.
      * left. right. split; [reflexivity | now exists old].
      * right. split; [assumption|]. exists old.
        rewrite Ho; [tauto|]. intros ->. contradiction.
Qed.

Lemma detect_fold_cache_tracked (w : world) (l : list Path) :
  NoDup l ->
  forall (changed : list Path) (cache : gmap string (option string)) (q : Path)
         (old : option string),
  q ∈ l -> cache !! q = Some old ->
  snd (fold_left (project_change_step w) l (changed, cache)) !! q
  = Some (calculate_file_hash w q).
Proof.
  assert (Hout : forall l changed cache q, q ∉ l ->
            snd (fold_left (project_change_step w) l (changed, cache)) !! q = cache !! q).
  { clear. intros l. induction l as [|a l IH]; intros changed cache q Hq; [reflexivity|].
    cbn [fold_left]. apply not_elem_of_cons in Hq as [Hqa Hql].
    destruct (project_change_step w (changed, cache) a) as [changed' cache'] eqn:Es.
    rewrite IH by exact Hql.
    generalize (project_change_step_cache_other w changed cache a q Hqa). now rewrite Es. }
  induction 1 as [|a l Ha Hl IH]; intros changed cache q old Hin Hc.
  - now apply elem_of_nil in Hin.
  - cbn [fold_left].
    destruct (project_change_step w (changed, cache) a) as [changed' cache'] eqn:Es.
    apply elem_of_cons in Hin as [->|Hin].
    + rewrite Hout by exact Ha.
      generalize (project_change_step_cache_tracked w changed cache a old Hc). now rewrite Es.
    + apply (IH changed' cache' q old Hin).
      assert (q <> a) by (intros ->; contradiction).
      generalize (project_change_step_cache_other w changed cache a q H0). rewrite Es.
      cbn [snd]. now intros ->.
Qed.

Lemma check_project_files_changes_eq (w : world) :
  check_project_files_changes w =
  (fst (detect_project_changes w (scan_project_files w)),
   with_project_files_hash_cache (snd (detect_project_changes w (scan_project_files w))) w).
Proof.
  unfold check_project_files_changes.
  now destruct (detect_project_changes w (scan_project_files w)).
Qed.

(** ** C3: a tracked file that cannot be hashed *)

(** C3 (as amended).  A tracked project file that the scan enumerates but
    cannot hash is reported as changed exactly when its cached fingerprint is a
    digest and it is not the ledger file; it is reported as unchanged only when
    the cache already holds a missing hash for it.  The missing hash is
    recorded.  The scan is not aborted: every enumerated file, before or after
    it, is reported exactly when its own fresh hash differs from its own cached
    entry. *)
Theorem unreadable_tracked_file (w : world) (p : Path) (cached : option string) :
  p ∈ scan_project_files w ->
  calculate_file_hash w p = None ->
  project_files_hash_cache w !! p = Some cached ->
  (p ∈ fst (check_project_files_changes w) <-> cached <> None /\ p <> todo_file_path)
  /\ project_files_hash_cache (snd (check_project_files_changes w)) !! p = Some None
  /\ (forall q : Path,
        q ∈ fst (check_project_files_changes w) <->
        q ∈ scan_project_files w /\
        exists old, project_files_hash_cache w !! q = Some old
                    /\ calculate_file_hash w q <> old /\ q <> todo_file_path).
Proof.
  intros Hin Hh Hc. rewrite check_project_files_changes_eq. cbn [fst snd].
  assert (Hall : forall q : Path,
            q ∈ fst (detect_project_changes w (scan_project_files w)) <->
            q ∈ scan_project_files w /\
            exists old, project_files_hash_cache w !! q = Some old
                        /\ calculate_file_hash w q <> old /\ q <> todo_file_path).
  { intros q. unfold detect_project_changes.
    rewrite (detect_fold_changed w _ (scan_project_files_NoDup w)).
    split; [intros [Hn|?]; [now apply elem_of_nil in Hn | assumption] | now right]. }
  split; [|split; [|exact Hall]].
  - rewrite Hall. split.
    + intros (_ & old & Ho & Hne & Ht). rewrite Hc in Ho. injection Ho as <-.
      rewrite Hh in Hne. split; [congruence | exact Ht].
    + intros [Hn Ht]. split; [exact Hin|]. exists cached. rewrite Hh. repeat split; congruence.
  - change (snd (detect_project_changes w (scan_project_files w)) !! p = Some None).
    unfold detect_project_changes.
    rewrite (detect_fold_cache_tracked w _ (scan_project_files_NoDup w) _ _ p cached Hin Hc).
    now rewrite Hh.
Qed.

(** ** C4: escalation of a rule change *)

Lemma check_rule_files_changes_eq (w : world) :
  check_rule_files_changes w =
  (fst (fold_left (rule_change_step w) (rule_files w) ([], rules_hash_cache w)),
   with_rules_hash_cache
     (snd (fold_left (rule_change_step w) (rule_files w) ([], rules_hash_cache w))) w).
Proof.
  unfold check_rule_files_changes.
  now destruct (fold_left (rule_change_step w) (rule_files w) ([], rules_hash_cache w)).
Qed.

Lemma not_nil_false {A} (l : list A) : not_nil l = false <-> l = [].
Proof. destruct l; cbn; split; congruence. Qed.

(** C4.  In a monitor cycle, when the rule check reports at least one changed
    rule file the list handed to the compliance pass is the whole project
    population, whatever the project check reported; when it reports none, the
    list is exactly what the project check reported as changed.  That list is
    the one [run_monitor_cycle] passes on. *)
Theorem candidates_escalate_on_rule_change (w : world) :
  (fst (check_rule_files_changes w) <> [] ->
     fst (cycle_candidates w) = scan_project_files w)
  /\ (fst (check_rule_files_changes w) = [] ->
     fst (cycle_candidates w) = fst (check_project_files_changes w))
  /\ run_monitor_cycle w =
     (let files_to_process := fst (cycle_candidates w) in
      let w2 := snd (cycle_candidates w) in
      if not_nil files_to_process && should_execute_evolution w2 then
        let r := process_files_for_compliance w2 files_to_process in
        if (snd (fst r) <? fst (fst r))%nat
        then add_files_to_todo (snd r) files_to_process else snd r
      else w2).
Proof.
  assert (E : cycle_candidates w =
    (if not_nil (fst (check_rule_files_changes w)) then scan_project_files w
     else if not_nil (fst (check_project_files_changes w))
          then fst (check_project_files_changes w) else [],
     with_project_files_hash_cache
       (project_files_hash_cache (snd (check_project_files_changes w)))
       (snd (check_rule_files_changes w)))).
  { unfold cycle_candidates. rewrite check_rule_files_changes_eq. cbn [fst snd].
    rewrite !check_project_files_changes_eq. reflexivity. }
  split; [|split].
  - intros Hne. rewrite E. cbn [fst].
    destruct (fst (check_rule_files_changes w)); [contradiction | reflexivity].
  - intros He. rewrite E, He. cbn [fst not_nil].
    destruct (fst (check_project_files_changes w)); reflexivity.
  - unfold run_monitor_cycle. destruct (cycle_candidates w) as [c w2]. cbn [fst snd].
    destruct (not_nil c && should_execute_evolution w2); [|reflexivity].
    destruct (process_files_for_compliance w2 c) as [[tc tu] w3]. reflexivity.
Qed.

(** ** The todo ledger *)

Lemma resolve_path_conflict_frame (w : world) (p : Path) (reason : string) :
  let w' := snd (resolve_path_conflict w p reason) in
  variables w' = variables w
  /\ now w <= now w'
  /\ (forall k : string, k <> get_lock_file_path p -> fs w' !! k = fs w !! k).
Proof.
  destruct (String.eqb_spec (get_project_mode w) "devP") as [Hm|Hm].
  - rewrite (resolve_path_conflict_devP w p reason Hm). cbv zeta. cbn [snd].
    unfold acquire_file_lock.
    destruct (acquire_loop_frame (acquire_fuel (5 * 1000)) (get_lock_file_path p)
                (now (log_conflict p reason "待处理" w)) (5 * 1000)
                (log_conflict p reason "待处理" w)) as (Hv & _ & _ & _ & _ & Hn & Hfs).
    split; [exact Hv | split; [exact Hn | exact Hfs]].
  - rewrite (resolve_path_conflict_other_modes w p reason Hm). cbn.
    split; [reflexivity | split; [lia | reflexivity]].
Qed.

Lemma todo_priority_variables (w w' : world) :
  variables w' = variables w -> todo_priority w' = todo_priority w.
Proof. intros E. unfold todo_priority. now rewrite (get_project_mode_variables w w' E). Qed.

(** What the loop of [add_files_to_todo] yields: every line to add is
    [path|PRIORITY|timestamp] for one of the given paths that the ledger did not
    hold, stamped with a clock reading of the call; and the loop touches
    nothing but sentinels. *)
Lemma todo_loop_spec (existing : gset string) (files : list Path) (w : world) :
  let r := todo_loop existing files w in
  Forall (fun item : string =>
            exists (p : Path) (t : Z),
              (p ∈ files) /\ (p ∉ existing) /\ now w <= t
              /\ item = p ++ "|" ++ todo_priority w ++ "|" ++ isoformat t) (fst (fst r))
  /\ variables (snd r) = variables w
  /\ now w <= now (snd r)
  /\ (forall k : string, (forall p : Path, k <> get_lock_file_path p) ->
        fs (snd r) !! k = fs w !! k).
Proof.
  revert w. induction files as [|file_path rest IH]; intros w.
  { cbn. repeat split; [constructor | lia]. }
  cbn [todo_loop]. destruct (check_path_conflicts w file_path) as [has_conflict reason].
  assert (Hweak : forall (w1 : world),
            variables w1 = variables w -> now w <= now w1 ->
            (forall k : string, (forall p : Path, k <> get_lock_file_path p) ->
                fs w1 !! k = fs w !! k) ->
            let r := todo_loop existing rest w1 in
            Forall (fun item : string =>
                      exists (p : Path) (t : Z),
                        (p ∈ file_path :: rest) /\ (p ∉ existing) /\ now w <= t
                        /\ item = p ++ "|" ++ todo_priority w ++ "|" ++ isoformat t)
                   (fst (fst r))
            /\ variables (snd r) = variables w
            /\ now w <= now (snd r)
            /\ (forall k : string, (forall p : Path, k <> get_lock_file_path p) ->
                  fs (snd r) !! k = fs w !! k)).
  { intros w1 Hv Hn Hfs. destruct (IH w1) as (Hitems & Hv' & Hn' & Hfs').
    split; [|split; [congruence | split; [lia|]]].
    - eapply Forall_impl; [exact Hitems|]. cbn beta.
      intros item (p & t & Hp & Hex & Ht & ->). exists p, t.
      split; [now right|]. split; [exact Hex|]. split; [lia|].
      now rewrite (todo_priority_variables w w1 Hv).
    - intros k Hk. rewrite Hfs' by exact Hk. now apply Hfs. }
  destruct (bool_decide_reflect (file_path ∈ existing)) as [Hin|Hnotin].
  { apply Hweak; [reflexivity | lia | reflexivity]. }
  destruct has_conflict.
  - destruct (resolve_path_conflict_frame w file_path reason) as (Hv & Hn & Hfs).
    destruct (resolve_path_conflict w file_path reason) as [resolution w1]. cbn [snd] in *.
    assert (Hfs1 : forall k : string, (forall p : Path, k <> get_lock_file_path p) ->
                     fs w1 !! k = fs w !! k) by (intros k Hk; apply Hfs, Hk).
    specialize (Hweak w1 Hv Hn Hfs1). cbv zeta in Hweak.
    destruct (is_skip resolution).
    + destruct (todo_loop existing rest w1) as [[adds skipped] w2]. exact Hweak.
    + destruct (todo_loop existing rest w1) as [[adds skipped] w2]. cbn [fst snd] in *.
      destruct Hweak as (Hitems & Hrest). split; [|exact Hrest].
      constructor; [|exact Hitems].
      exists file_path, (now w1). split; [now left|]. split; [exact Hnotin|].
      split; [exact Hn|]. unfold todo_item. now rewrite (todo_priority_variables w w1 Hv).
  - specialize (Hweak w eq_refl (Z.le_refl _) (fun _ _ => eq_refl)). cbv zeta in Hweak.
    destruct (todo_loop existing rest w) as [[adds skipped] w2]. cbn [fst snd] in *.
    destruct Hweak as (Hitems & Hrest). split; [|exact Hrest].
    constructor; [|exact Hitems].
    exists file_path, (now w). split; [now left|]. split; [exact Hnotin|].
    split; [lia | reflexivity].
Qed.

Lemma todo_file_not_lock (p : Path) : todo_file_path <> get_lock_file_path p.
Proof. intros E. symmetry in E. now apply lock_file_not_todo in E. Qed.

Lemma append_empty_r (s : string) : s ++ "" = s.
Proof.
  induction s as [|a s IH]; [reflexivity|].
  change (String a (s ++ "") = String a s). now rewrite IH.
Qed.

Lemma add_files_to_todo_eq (w : world) (files : list Path) (old : string) :
  ledger_data w = Some old ->
  let r := todo_loop (existing_files_of (universal_newlines old)) files w in
  add_files_to_todo w files =
  if not_nil (fst (fst r))
  then write_text todo_file_path (old ++ ledger_block (fst (fst r))) (snd r)
  else if not_nil files then snd r else w.
Proof.
  intros Hold. cbv zeta. unfold add_files_to_todo.
  destruct files as [|f0 files]; [reflexivity|].
  cbn [not_nil negb]. set (fl := f0 :: files).
  unfold ledger_data in Hold.
  destruct (todo_loop_spec (existing_files_of (universal_newlines old)) fl w)
    as (_ & _ & _ & Hfs).
  specialize (Hfs todo_file_path todo_file_not_lock).
  destruct (fs w !! todo_file_path) as [[data mt]|] eqn:Ef.
  - cbn in Hold. subst data. cbn [f_data from_option id].
    destruct (todo_loop (existing_files_of (universal_newlines old)) fl w)
      as [[adds skipped] w1]. cbn [fst snd] in *.
    destruct (not_nil adds); [|reflexivity].
    unfold append_text. rewrite Hfs. reflexivity.
  - injection Hold as <-.
    change (existing_files_of (universal_newlines "")) with (∅ : gset string) in *.
    destruct (todo_loop ∅ fl w) as [[adds skipped] w1]. cbn [fst snd] in *.
    destruct (not_nil adds); [|reflexivity].
    unfold append_text. rewrite Hfs. reflexivity.
Qed.

(** ** C9: what an enqueue writes *)

Lemma check_and_resolve_variables (w : world) (p : Path) :
  variables (snd (check_and_resolve w p)) = variables w.
Proof.
  unfold check_and_resolve. destruct (check_path_conflicts w p) as [c reason].
  destruct c; [|reflexivity].
  destruct (resolve_path_conflict_frame w p reason) as (Hv & _).
  destruct (resolve_path_conflict w p reason) as [resolution w1]. exact Hv.
Qed.

(** The loop of [add_files_to_todo] enqueues the survivors, all of them and
    nothing else, in the order given. *)
Lemma todo_loop_survivors (existing : gset string) (files : list Path) :
  forall w w0 : world, variables w = variables w0 ->
  fst (fst (todo_loop existing files w))
  = map (fun pt : Path * Z =>
           fst pt ++ "|" ++ todo_priority w0 ++ "|" ++ isoformat (snd pt))
        (surviving_paths existing files w).
Proof.
  induction files as [|file_path rest IH]; intros w w0 Hv; [reflexivity|].
  cbn [todo_loop surviving_paths].
  pose proof (check_and_resolve_variables w file_path) as Hv1.
  unfold check_and_resolve in *.
  destruct (check_path_conflicts w file_path) as [has_conflict reason].
  destruct (bool_decide (file_path ∈ existing)); [exact (IH w w0 Hv)|].
  destruct has_conflict.
  - destruct (resolve_path_conflict w file_path reason) as [resolution w1].
    cbn [snd] in Hv1.
    assert (Hv' : variables w1 = variables w0) by congruence.
    specialize (IH w1 w0 Hv').
    destruct (is_skip resolution).
    + destruct (todo_loop existing rest w1) as [[adds skipped] w2]. exact IH.
    + destruct (todo_loop existing rest w1) as [[adds skipped] w2]. cbn [fst snd map] in *.
      rewrite IH. unfold todo_item. now rewrite (todo_priority_variables w0 w1 Hv').
  - specialize (IH w w0 Hv).
    destruct (todo_loop existing rest w) as [[adds skipped] w2]. cbn [fst snd map] in *.
    rewrite IH. unfold todo_item. now rewrite (todo_priority_variables w0 w Hv).
Qed.

Lemma check_path_conflicts_frame (w1 w : world) (p : Path) :
  fs w1 = fs w -> now w1 = now w -> variables w1 = variables w ->
  check_path_conflicts w1 p = check_path_conflicts w p.
Proof.
  intros Hfs Hn Hv. unfold check_path_conflicts, is_file_locked, exists_, read_text,
    is_user_active.
  now rewrite Hfs, Hn, (get_project_mode_variables w w1 Hv).
Qed.

(** Where no given path is in conflict, the survivors are the paths the
    ledger does not list, all stamped with the time of the call. *)
Lemma surviving_paths_no_conflict (existing : gset string) (files : list Path) (w : world) :
  (forall p : Path, p ∈ files -> fst (check_path_conflicts w p) = false) ->
  surviving_paths existing files w
  = map (fun p => (p, now w))
        (List.filter (fun p => negb (bool_decide (p ∈ existing))) files).
Proof.
  induction files as [|file_path rest IH]; intros Hall; [reflexivity|].
  cbn [surviving_paths List.filter].
  assert (IH' := IH (fun p Hp => Hall p (list_elem_of_further _ _ _ Hp))).
  destruct (bool_decide (file_path ∈ existing)); cbn [negb]; [exact IH'|].
  unfold check_and_resolve. pose proof (Hall file_path (list_elem_of_here _ _)) as Hc.
  destruct (check_path_conflicts w file_path) as [c reason]. cbn [fst] in Hc. subst c.
  cbn [map]. now rewrite IH'.
Qed.

(** Outside 'devP' the resolver takes no lock, so the survivors are the
    paths that the ledger does not list and that are not in conflict when the
    enqueue starts, all stamped with the time of the call. *)
Lemma surviving_paths_other_modes (existing : gset string) (files : list Path) (w : world) :
  get_project_mode w <> "devP" ->
  forall w1 : world,
  fs w1 = fs w -> now w1 = now w -> variables w1 = variables w ->
  surviving_paths existing files w1
  = map (fun p => (p, now w))
        (List.filter (fun p => negb (bool_decide (p ∈ existing))
                                && negb (fst (check_path_conflicts w p))) files).
Proof.
  intros Hm. induction files as [|file_path rest IH]; intros w1 Hfs Hn Hv; [reflexivity|].
  cbn [surviving_paths List.filter].
  destruct (bool_decide (file_path ∈ existing)); cbn [negb andb]; [exact (IH w1 Hfs Hn Hv)|].
  unfold check_and_resolve.
  rewrite (check_path_conflicts_frame w1 w file_path Hfs Hn Hv).
  destruct (check_path_conflicts w file_path) as [c reason]. cbn [fst].
  destruct c; cbn [negb].
  - assert (Hm1 : get_project_mode w1 <> "devP")
      by now rewrite (get_project_mode_variables w w1 Hv).
    rewrite (resolve_path_conflict_other_modes w1 file_path reason Hm1).
    change (is_skip "proD模式下跳过处理，尊重用户活动") with true. cbv iota.
    apply IH; [exact Hfs | exact Hn | exact Hv].
  - cbn [map]. rewrite Hn. now rewrite (IH w1 Hfs Hn Hv).
Qed.

(** C9 (as amended).  An enqueue leaves the prior text of the ledger in place
    and appends to it, when at least one path survives, one block: the header
    comment line, written on every such enqueue and not only on the first
    write, followed by one line [path|PRIORITY|timestamp] for each surviving
    path, where the priority is HIGH when the mode is 'devP' and LOW otherwise
    and the timestamp renders a clock reading of the call in ISO-8601.  The
    lines are those of the survivors, one for each and in the order given: the
    given paths that the ledger does not list and that the conflict resolver
    does not skip.  Where no given path is in conflict these are all the paths
    the ledger does not list, and outside 'devP' they are the unlisted paths
    that are not in conflict when the enqueue starts; in both cases every line
    is stamped with the time of the call. *)
Theorem enqueue_appends_block (w : world) (files : list Path) (old : string) :
  ledger_data w = Some old ->
  let items :=
    fst (fst (todo_loop (existing_files_of (universal_newlines old)) files w)) in
  ledger_data (add_files_to_todo w files) =
    Some (old ++ (if not_nil items
                  then todo_header ++ String.concat "" (map (fun item => item ++ LF) items)
                  else ""))
  /\ Forall (fun item : string =>
               exists (p : Path) (t : Z),
                 (p ∈ files) /\ (p ∉ existing_files_of (universal_newlines old)) /\ now w <= t
                 /\ item = p ++ "|"
                           ++ (if String.eqb (get_project_mode w) "devP" then "HIGH" else "LOW")
                           ++ "|" ++ isoformat t) items
  /\ items
     = map (fun pt : Path * Z =>
              fst pt ++ "|"
              ++ (if String.eqb (get_project_mode w) "devP" then "HIGH" else "LOW")
              ++ "|" ++ isoformat (snd pt))
           (surviving_paths (existing_files_of (universal_newlines old)) files w)
  /\ ((forall p : Path, p ∈ files -> fst (check_path_conflicts w p) = false) ->
      items
      = map (fun p : Path =>
               p ++ "|"
               ++ (if String.eqb (get_project_mode w) "devP" then "HIGH" else "LOW")
               ++ "|" ++ isoformat (now w))
            (List.filter
               (fun p => negb (bool_decide
                                 (p ∈ existing_files_of (universal_newlines old))))
               files))
  /\ (get_project_mode w <> "devP" ->
      items
      = map (fun p : Path => p ++ "|LOW|" ++ isoformat (now w))
            (List.filter
               (fun p => negb (bool_decide
                                 (p ∈ existing_files_of (universal_newlines old)))
                         && negb (fst (check_path_conflicts w p)))
               files)).
Proof.
  intros Hold items.
  destruct (todo_loop_spec (existing_files_of (universal_newlines old)) files w)
    as (Hitems & _ & _ & Hfs).
  specialize (Hfs todo_file_path todo_file_not_lock).
  pose proof (todo_loop_survivors (existing_files_of (universal_newlines old)) files
                w w eq_refl) as Hsurv.
  fold items in Hsurv. unfold todo_priority in Hsurv.
  split; [|split; [exact Hitems|split; [exact Hsurv|split]]].
  - rewrite (add_files_to_todo_eq w files old Hold). cbv zeta. fold items.
    destruct (not_nil items).
    + unfold ledger_data, write_text. cbn. rewrite lookup_insert_eq. reflexivity.
    + rewrite append_empty_r.
      destruct (not_nil files); [|exact Hold].
      unfold ledger_data. rewrite Hfs. exact Hold.
  - intros Hall. rewrite Hsurv, (surviving_paths_no_conflict _ files w Hall).
    rewrite map_map. reflexivity.
  - intros Hm. rewrite Hsurv.
    rewrite (surviving_paths_other_modes _ files w Hm w eq_refl eq_refl eq_refl).
    rewrite map_map. cbn [fst snd].
    destruct (String.eqb_spec (get_project_mode w) "devP"); [contradiction | reflexivity].
Qed.

(** Scenario D in general: a path the ledger already lists is dropped, and
    an enqueue of that path alone changes nothing at all. *)
Lemma enqueue_known_path (w : world) (p : Path) (old : string) :
  ledger_data w = Some old ->
  p ∈ existing_files_of (universal_newlines old) ->
  add_files_to_todo w [p] = w.
Proof.
  intros Hold Hin. rewrite (add_files_to_todo_eq w [p] old Hold). cbv zeta.
  cbn [todo_loop]. destruct (check_path_conflicts w p) as [c reason].
  rewrite (bool_decide_eq_true_2 _ Hin). reflexivity.
Qed.

(** ** The interleaving model and the sequential loop *)

Lemma alone_returned (m : nat) (timeout : Z) (s : Race.state) (r : bool) :
  Race.at_ (Race.callerA s) = Race.Returned r -> Race.alone m timeout s = s.
Proof. intros E. destruct m; cbn; [reflexivity | now rewrite E]. Qed.

Lemma alone_run (m : nat) (timeout : Z) (s : Race.state) :
  match Race.at_ (Race.callerA s) with
  | Race.Returned _ | Race.Asleep => False
  | _ => True
  end ->
  Race.alone (S m) timeout s = Race.alone m timeout (Race.step timeout s (Race.Run Race.A)).
Proof. cbn [Race.alone]. now destruct (Race.at_ (Race.callerA s)). Qed.

Lemma alone_wake (m : nat) (timeout : Z) (s : Race.state) :
  Race.at_ (Race.callerA s) = Race.Asleep ->
  Race.alone (S m) timeout s =
  Race.alone m timeout
    (Race.step timeout (Race.step timeout s (Race.Tick 100)) (Race.Run Race.A)).
Proof. intros E. cbn [Race.alone]. now rewrite E. Qed.

Ltac run1 :=
  rewrite alone_run by exact I;
  cbn [Race.step Race.step_caller Race.callerA Race.at_ Race.clock Race.lock
       Race.callerB Race.goto Race.start_time Race.lock_time Race.wake
       Race.created_by Race.creator Race.who_eqb Race.mtime].

Ltac wake1 :=
  rewrite alone_wake by reflexivity;
  cbn [Race.step Race.step_caller Race.callerA Race.at_ Race.clock Race.lock
       Race.callerB Race.goto Race.start_time Race.lock_time Race.wake].

Lemma alone_refines_acquire_loop (lock_file : Path) (start timeout : Z) (fuel : nat) :
  forall (w : world) (lt wk : Z) (cB : Race.caller),
  (Z.to_nat ((start + timeout - now w + 99) / 100) < fuel)%nat ->
  exists n : nat, forall m : nat, (n <= m)%nat ->
  let s := Race.alone m timeout
             (Race.State (now w) (Race.sentinel_of w lock_file)
                         (Race.Caller Race.AtCheck start lt wk) cB) in
  let r := acquire_loop fuel lock_file start timeout w in
  Race.at_ (Race.callerA s) = Race.Returned (fst r)
  /\ Race.clock s = now (snd r)
  /\ Race.mtime <$> Race.lock s = f_mtime <$> (fs (snd r) !! lock_file)
  /\ Race.callerB s = cB.
Proof.
  induction fuel as [|fuel IH]; intros w lt wk cB Hf; [lia|].
  cbn [acquire_loop]. unfold Race.sentinel_of.
  destruct (now w - start <? timeout) eqn:Ec.
  2:{ exists 1%nat. intros [|m] Hm; [lia|]. run1. rewrite Ec.
      rewrite (alone_returned m timeout _ false) by reflexivity. cbn.
      destruct (fs w !! lock_file); repeat split; reflexivity. }
  destruct (fs w !! lock_file) as [f|] eqn:Ef.
  2:{ exists 3%nat. intros [|[|[|m]]] Hm; try lia.
      run1. rewrite Ec. run1. run1.
      rewrite (alone_returned m timeout _ true) by reflexivity. cbn.
      rewrite lookup_insert_eq. repeat split; reflexivity. }
  assert (Hnext : forall w0 : world, now w0 = now w ->
            (Z.to_nat ((start + timeout - now (sleep 100 w0) + 99) / 100) < fuel)%nat).
  { intros w0 E. change (now (sleep 100 w0)) with (now w0 + 100). rewrite E.
    apply Z.ltb_lt in Ec.
    replace (start + timeout - (now w + 100) + 99)
      with (start + timeout - now w + 99 + (-1) * 100) by lia.
    rewrite Z.div_add by lia.
    assert (1 <= (start + timeout - now w + 99) / 100)
      by (apply Z.div_le_lower_bound; lia).
    lia. }
  destruct (now w - f_mtime f >? 300000) eqn:Es.
  - destruct (IH (sleep 100 (unlink lock_file w)) (f_mtime f) (now w + 100) cB
                 (Hnext _ eq_refl)) as [n Hn].
    exists (n + 8)%nat. intros m0 Hm.
    assert (Hm8 : exists m, m0 = (8 + m)%nat /\ (n <= m)%nat)
      by (exists (m0 - 8)%nat; clear - Hm; lia).
    destruct Hm8 as (m & -> & Hm'). cbn [Nat.add].
    run1. rewrite Ec. run1. run1. run1. run1. rewrite Es. run1. run1. wake1.
    replace (0 <? 100) with true by reflexivity.
    cbn [Race.step Race.step_caller Race.callerA Race.at_ Race.clock Race.lock
         Race.callerB Race.goto Race.start_time Race.lock_time Race.wake].
    rewrite Z.leb_refl. cbn [Race.goto Race.start_time Race.lock_time Race.wake].
    specialize (Hn m Hm'). cbv zeta in Hn.
    unfold Race.sentinel_of in Hn. cbn [fs sleep unlink with_fs with_now] in Hn.
    rewrite lookup_delete_eq in Hn. exact Hn.
  - destruct (IH (sleep 100 w) (f_mtime f) (now w + 100) cB (Hnext _ eq_refl)) as [n Hn].
    exists (n + 7)%nat. intros m0 Hm.
    assert (Hm7 : exists m, m0 = (7 + m)%nat /\ (n <= m)%nat)
      by (exists (m0 - 7)%nat; clear - Hm; lia).
    destruct Hm7 as (m & -> & Hm'). cbn [Nat.add].
    run1. rewrite Ec. run1. run1. run1. run1. rewrite Es. run1. wake1.
    replace (0 <? 100) with true by reflexivity.
    cbn [Race.step Race.step_caller Race.callerA Race.at_ Race.clock Race.lock
         Race.callerB Race.goto Race.start_time Race.lock_time Race.wake].
    rewrite Z.leb_refl. cbn [Race.goto Race.start_time Race.lock_time Race.wake].
    specialize (Hn m Hm'). cbv zeta in Hn.
    unfold Race.sentinel_of in Hn. cbn [fs sleep with_now] in Hn.
    rewrite Ef in Hn. exact Hn.
Qed.

(** X24.  The interleaving model run for one caller alone is
    [acquire_file_lock]: same answer, same clock, same sentinel. *)
Lemma alone_refines_acquire_file_lock (w : world) (p : Path) (timeout : Z)
    (cB : Race.caller) :
  exists n : nat, forall m : nat, (n <= m)%nat ->
  let s := Race.alone m (timeout * 1000)
             (Race.State (now w) (Race.sentinel_of w (get_lock_file_path p))
                         Race.fresh_caller cB) in
  let r := acquire_file_lock w p timeout in
  Race.at_ (Race.callerA s) = Race.Returned (fst r)
  /\ Race.clock s = now (snd r)
  /\ Race.mtime <$> Race.lock s = f_mtime <$> (fs (snd r) !! get_lock_file_path p)
  /\ Race.callerB s = cB.
Proof.
  destruct (alone_refines_acquire_loop (get_lock_file_path p) (now w) (timeout * 1000)
              (acquire_fuel (timeout * 1000)) w 0 0 cB) as [n Hn].
  { unfold acquire_fuel.
    replace (now w + timeout * 1000 - now w + 99) with (timeout * 1000 + 99) by lia. lia. }
  exists (S n). intros [|m] Hm; [lia|].
  unfold Race.fresh_caller. run1.
  apply (Hn m). lia.
Qed.

(** * Further properties of the code *)

(** ** More on the file locks *)

Lemma acquire_loop_deadline (fuel : nat) (lock_file : Path) (start timeout : Z) (w : world) :
  now (snd (acquire_loop fuel lock_file start timeout w))
  < Z.max (now w + 1) (start + timeout + 100).
Proof.
  revert w. induction fuel as [|fuel IH]; intros w; cbn [acquire_loop]; [cbn; lia|].
  destruct (Z.ltb_spec (now w - start) timeout) as [Hlt|Hge]; [|cbn; lia].
  destruct (fs w !! lock_file) as [f|]; [|cbn; lia].
  set (w0 := if now w - f_mtime f >? 300000 then unlink lock_file w else w).
  assert (E : now (sleep 100 w0) = now w + 100)
    by (unfold w0; destruct (now w - f_mtime f >? 300000); reflexivity).
  specialize (IH (sleep 100 w0)). rewrite E in IH. lia.
Qed.

(** X1.  A call of [acquire_file_lock] never blocks for long: it returns
    less than 100 ms after its timeout has run out, whatever the state of the
    sentinel, and it touches nothing but the clock and the sentinel of the
    path. *)
Theorem acquire_file_lock_bounded (w : world) (p : Path) (timeout : Z) :
  0 <= timeout ->
  let w' := snd (acquire_file_lock w p timeout) in
  now w <= now w' < now w + timeout * 1000 + 100
  /\ variables w' = variables w
  /\ rules_hash_cache w' = rules_hash_cache w
  /\ project_files_hash_cache w' = project_files_hash_cache w
  /\ conflict_log w' = conflict_log w
  /\ (forall k : string, k <> get_lock_file_path p -> fs w' !! k = fs w !! k).
Proof.
  intros Ht. cbv zeta. unfold acquire_file_lock.
  destruct (acquire_loop_frame (acquire_fuel (timeout * 1000)) (get_lock_file_path p)
              (now w) (timeout * 1000) w) as (Hv & _ & Hc & Hp & Hl & Hn & Hfs).
  pose proof (acquire_loop_deadline (acquire_fuel (timeout * 1000)) (get_lock_file_path p)
                (now w) (timeout * 1000) w) as Hd.
  repeat split; try assumption. lia.
Qed.

Lemma acquire_loop_success (fuel : nat) (lock_file : Path) (start timeout : Z) (w : world) :
  let r := acquire_loop fuel lock_file start timeout w in
  fst r = true ->
  fs (snd r) !! lock_file = Some (File (Some (lock_note (snd r))) (now (snd r))).
Proof.
  revert w. induction fuel as [|fuel IH]; intros w; cbn [acquire_loop]; [discriminate|].
  destruct (now w - start <? timeout); [|discriminate].
  destruct (fs w !! lock_file) as [f|].
  - apply IH.
  - intros _. cbn. now rewrite lookup_insert_eq.
Qed.


Lemma acquire_loop_held (fuel : nat) (lock_file : Path) (start timeout : Z) (w : world)
    (f : file) :
  fs w !! lock_file = Some f ->
  start + timeout - f_mtime f <= 300000 ->
  (Z.to_nat ((start + timeout - now w + 99) / 100) < fuel)%nat ->
  let r := acquire_loop fuel lock_file start timeout w in
  fst r = false /\ fs (snd r) = fs w /\ start + timeout <= now (snd r)
  /\ snd r = with_now (now (snd r)) w.
Proof.
  revert w. induction fuel as [|fuel IH]; intros w Hf Hfresh Hfuel; [lia|].
  cbn [acquire_loop].
  destruct (Z.ltb_spec (now w - start) timeout) as [Hlt|Hge].
  2:{ cbn [fst snd]. split; [reflexivity|]. split; [reflexivity|]. split; [lia|].
      now destruct w. }
  rewrite Hf.
  destruct (Z.gtb_spec (now w - f_mtime f) 300000) as [Hgt|Hle]; [lia|].
  assert (Hfuel' : (Z.to_nat ((start + timeout - now (sleep 100 w) + 99) / 100) < fuel)%nat).
  { change (now (sleep 100 w)) with (now w + 100).
    replace (start + timeout - (now w + 100) + 99)
      with (start + timeout - now w + 99 + (-1) * 100) by lia.
    rewrite Z.div_add by lia.
    assert (1 <= (start + timeout - now w + 99) / 100)
      by (apply Z.div_le_lower_bound; lia).
    lia. }
  destruct (IH (sleep 100 w) Hf Hfresh Hfuel') as (Hr & Hfs & Hn & Hw).
  cbv zeta. split; [exact Hr|]. split; [exact Hfs|].
  split; [exact Hn|]. rewrite Hw at 1. reflexivity.
Qed.


(** X3.  A sentinel that stays younger than the TTL for the whole timeout is
    respected: [acquire_file_lock] returns false once the timeout is over, and
    leaves the file system, the sentinel included, as it was; only time has
    passed. *)
Theorem live_lock_is_respected (w : world) (p : Path) (timeout : Z) (f : file) :
  0 <= timeout ->
  fs w !! get_lock_file_path p = Some f ->
  now w + timeout * 1000 - f_mtime f <= 300000 ->
  let r := acquire_file_lock w p timeout in
  fst r = false
  /\ snd r = with_now (now (snd r)) w
  /\ now w + timeout * 1000 <= now (snd r).
Proof.
  intros Ht Hf Hfresh. cbv zeta. unfold acquire_file_lock.
  destruct (acquire_loop_held (acquire_fuel (timeout * 1000)) (get_lock_file_path p)
              (now w) (timeout * 1000) w f Hf Hfresh) as (Hr & _ & Hn & Hw).
  { unfold acquire_fuel.
    replace (now w + timeout * 1000 - now w + 99) with (timeout * 1000 + 99) by lia. lia. }
  split; [exact Hr|]. split; [exact Hw | exact Hn].
Qed.

(** X4.  Releasing is idempotent and exact: after [release_file_lock] the
    sentinel of the path is absent, every other file is untouched, a second
    release changes nothing, and releasing a lock that is not held is not an
    error and changes nothing. *)
Theorem release_file_lock_idempotent (w : world) (p : Path) :
  fs (release_file_lock p w) !! get_lock_file_path p = None
  /\ (forall k : string, k <> get_lock_file_path p ->
        fs (release_file_lock p w) !! k = fs w !! k)
  /\ release_file_lock p (release_file_lock p w) = release_file_lock p w
  /\ (fs w !! get_lock_file_path p = None -> release_file_lock p w = w).
Proof.
  unfold release_file_lock, exists_.
  destruct (fs w !! get_lock_file_path p) as [f|] eqn:Ef.
  - cbn. rewrite lookup_delete_eq. repeat split.
    + intros k Hk. now rewrite lookup_delete_ne.
    + discriminate.
  - rewrite Ef. repeat split; try assumption; reflexivity.
Qed.

(** X5.  Taking and releasing a free lock leaves no trace: when the sentinel
    is absent, [acquire_file_lock] (timeout of a second or more) succeeds at
    once, without sleeping, and the [release_file_lock] after it restores the
    state exactly. *)
Theorem acquire_release_round_trip (w : world) (p : Path) (timeout : Z) :
  1 <= timeout ->
  fs w !! get_lock_file_path p = None ->
  fst (acquire_file_lock w p timeout) = true
  /\ now (snd (acquire_file_lock w p timeout)) = now w
  /\ release_file_lock p (snd (acquire_file_lock w p timeout)) = w.
Proof.
  intros Ht Hf.
  assert (E : acquire_file_lock w p timeout
              = (true, write_text (get_lock_file_path p) (lock_note w) w)).
  { unfold acquire_file_lock, acquire_fuel. cbn [acquire_loop].
    replace (now w - now w <? timeout * 1000) with true by (symmetry; apply Z.ltb_lt; lia).
    now rewrite Hf. }
  rewrite E. cbn [fst snd]. split; [reflexivity|]. split; [reflexivity|].
  unfold release_file_lock, exists_, write_text, unlink. cbn.
  rewrite lookup_insert_eq. cbn. rewrite delete_insert_eq, delete_id by exact Hf.
  now destruct w.
Qed.

(** ** White space is stripped around a text, never into it *)

Lemma app_String (x : ascii) (u v : string) : String x u ++ v = String x (u ++ v).
Proof. reflexivity. Qed.

Lemma rev_acc_app (u v acc : string) : rev_acc (u ++ v) acc = rev_acc v (rev_acc u acc).
Proof.
  revert acc. induction u as [|x u IH]; intros acc; [reflexivity|].
  rewrite app_String. cbn [rev_acc]. apply IH.
Qed.

Lemma rev_acc_spec (s acc : string) : rev_acc s acc = rev s ++ acc.
Proof.
  unfold rev. revert acc. induction s as [|x s IH]; intros acc; [reflexivity|].
  cbn [rev_acc]. rewrite (IH (String x acc)), (IH (String x "")).
  now rewrite append_assoc.
Qed.

Lemma plain_head_facts (a : ascii) :
  plain_head a = true ->
  is_space1 a = false /\ is_code 194 a = false /\ is_code 225 a = false
  /\ is_code 226 a = false /\ is_code 227 a = false.
Proof.
  unfold plain_head. rewrite !andb_true_iff, !negb_true_iff. tauto.
Qed.

Lemma space_width_plain (a : ascii) (s : string) :
  plain_head a = true -> space_width (String a s) = 0%nat.
Proof.
  intros Hp. apply plain_head_facts in Hp as (H1 & H2 & H3 & H4 & H5).
  unfold space_width, is_space2, is_space3. rewrite H1, H2, H3, H4, H5. cbn.
  destruct s as [|b [|c s]]; reflexivity.
Qed.

Lemma lstrip_plain (a : ascii) (s : string) :
  plain_head a = true -> lstrip (String a s) = String a s.
Proof.
  intros Hp. unfold lstrip. cbn [String.length strip_loop].
  now rewrite space_width_plain.
Qed.

Lemma strip_loop_rev_keeps_head (a : ascii) (fuel : nat) :
  plain_head a = true ->
  forall u : string, exists u' : string,
    strip_loop space_width_rev fuel (u ++ String a "") = u' ++ String a "".
Proof.
  intros Hp. pose proof (plain_head_facts a Hp) as (H1 & H2 & H3 & H4 & H5).
  induction fuel as [|fuel IH]; intros u; [now exists u|].
  cbn [strip_loop].
  destruct u as [|x [|y [|z u]]]; rewrite ?app_String; cbn [String.append].
  - change ("" ++ String a "") with (String a "").
    unfold space_width_rev. rewrite H1. now exists "".
  - change ("" ++ String a "") with (String a "").
    unfold space_width_rev, is_space2. destruct (is_space1 x).
    + cbn [drop]. apply (IH "").
    + rewrite H2. cbn. now exists (String x "").
  - change ("" ++ String a "") with (String a "").
    unfold space_width_rev. destruct (is_space1 x).
    + cbn [drop]. apply (IH (String y "")).
    + destruct (is_space2 y x).
      * cbn [drop]. apply (IH "").
      * unfold is_space3. rewrite H3, H4, H5. cbn. now exists (String x (String y "")).
  - unfold space_width_rev. destruct (is_space1 x).
    + cbn [drop]. apply (IH (String y (String z u))).
    + destruct (is_space2 y x).
      * cbn [drop]. apply (IH (String z u)).
      * destruct (is_space3 z y x).
        -- cbn [drop]. apply (IH u).
        -- now exists (String x (String y (String z u))).
Qed.

(** [strip] keeps the first byte of a text that starts with a plain byte. *)
Lemma strip_plain (a : ascii) (s : string) :
  plain_head a = true -> exists t : string, strip (String a s) = String a t.
Proof.
  intros Hp. unfold strip. rewrite lstrip_plain by exact Hp. unfold rstrip.
  assert (E : rev (String a s) = rev s ++ String a "").
  { unfold rev at 1. cbn [rev_acc]. apply rev_acc_spec. }
  rewrite E.
  destruct (strip_loop_rev_keeps_head a (String.length (String a s)) Hp (rev s)) as [u' Hu].
  rewrite Hu. exists (rev u'). unfold rev at 1. rewrite rev_acc_app. reflexivity.
Qed.

(** X6.  A sentinel that can be read and holds more than white space is a
    conflict in every mode, whatever the user activity and however old the
    sentinel is: the conflict check gives its text as the reason.  Outside
    'devP' the path is then skipped and the sentinel stays where it is, so the
    path is in conflict at every later time as well: a sentinel left behind
    blocks the path until someone removes it. *)
Theorem readable_sentinel_is_a_conflict (w : world) (p : Path) (f : file) (data : string) :
  fs w !! get_lock_file_path p = Some f ->
  f_data f = Some data ->
  nonempty (strip (universal_newlines data)) = true ->
  is_file_locked w p = (true, Some (strip (universal_newlines data)))
  /\ check_path_conflicts w p
     = (true, "文件被锁定: " ++ strip (universal_newlines data))
  /\ (get_project_mode w <> "devP" ->
      fst (check_and_resolve w p) = SKIPPED
      /\ fs (snd (check_and_resolve w p)) = fs w
      /\ (forall d : Z,
            fst (check_path_conflicts (sleep d (snd (check_and_resolve w p))) p) = true)).
Proof.
  intros Hf Hd Hn.
  assert (Hgen : forall w1 : world, fs w1 = fs w ->
            is_file_locked w1 p = (true, Some (strip (universal_newlines data)))
            /\ check_path_conflicts w1 p
               = (true, "文件被锁定: " ++ strip (universal_newlines data))).
  { intros w1 Hfs.
    assert (E : is_file_locked w1 p = (true, Some (strip (universal_newlines data)))).
    { unfold is_file_locked, exists_, read_text. rewrite Hfs, Hf, Hd. reflexivity. }
    split; [exact E|]. unfold check_path_conflicts. rewrite E. cbn [truthy andb].
    now rewrite Hn. }
  destruct (Hgen w eq_refl) as [El Ec].
  split; [exact El|]. split; [exact Ec|].
  intros Hm. unfold check_and_resolve. rewrite Ec.
  rewrite (resolve_path_conflict_other_modes w p _ Hm).
  change (is_skip "proD模式下跳过处理，尊重用户活动") with true. cbn [fst snd].
  split; [reflexivity|]. split; [reflexivity|].
  intros d.
  exact (f_equal fst
           (proj2 (Hgen (sleep d (log_conflict p _ "proD模式下跳过处理，尊重用户活动"
                                    (log_conflict p _ "待处理" w))) eq_refl))).
Qed.

Lemma cycle_candidates_eq (w : world) :
  cycle_candidates w =
  (if not_nil (fst (check_rule_files_changes w)) then scan_project_files w
   else if not_nil (fst (check_project_files_changes w))
        then fst (check_project_files_changes w) else [],
   with_project_files_hash_cache
     (project_files_hash_cache (snd (check_project_files_changes w)))
     (snd (check_rule_files_changes w))).
Proof.
  unfold cycle_candidates. rewrite check_rule_files_changes_eq. cbn [fst snd].
  rewrite !check_project_files_changes_eq. reflexivity.
Qed.

Lemma cycle_candidates_escalated (w : world) :
  fst (check_rule_files_changes w) <> [] ->
  fst (cycle_candidates w) = scan_project_files w.
Proof.
  intros Hne. rewrite cycle_candidates_eq. cbn [fst].
  destruct (fst (check_rule_files_changes w)); [contradiction | reflexivity].
Qed.

(** ** More on change detection *)

Lemma md5_hexdigest_length (data : string) : String.length (MD5.hexdigest data) = 32%nat.
Proof.
  unfold MD5.hexdigest, MD5.digest.
  destruct (fold_left MD5.block _ _) as [[[a b] c] d]. reflexivity.
Qed.

Lemma md5_hexdigest_nonempty (data : string) : nonempty (MD5.hexdigest data) = true.
Proof.
  pose proof (md5_hexdigest_length data) as Hl.
  destruct (MD5.hexdigest data); [discriminate | reflexivity].
Qed.

(** A fresh hash is a truth value exactly when the file could be read. *)
Lemma truthy_calculate_file_hash (w : world) (p : Path) :
  truthy (calculate_file_hash w p) = true <-> calculate_file_hash w p <> None.
Proof.
  unfold calculate_file_hash.
  destruct (fs w !! p) as [[[data|] mt]|]; cbn; try (split; [discriminate | congruence]).
  rewrite md5_hexdigest_nonempty. split; [discriminate | reflexivity].
Qed.

Lemma detect_fold_cache_outside (w : world) (l : list Path) :
  forall (changed : list Path) (cache : gmap string (option string)) (q : Path),
  q ∉ l -> snd (fold_left (project_change_step w) l (changed, cache)) !! q = cache !! q.
Proof.
  induction l as [|a l IH]; intros changed cache q Hq; [reflexivity|].
  cbn [fold_left]. apply not_elem_of_cons in Hq as [Hqa Hql].
  destruct (project_change_step w (changed, cache) a) as [changed' cache'] eqn:Es.
  rewrite IH by exact Hql.
  generalize (project_change_step_cache_other w changed cache a q Hqa). now rewrite Es.
Qed.

Lemma detect_fold_cache_unseen (w : world) (l : list Path) :
  NoDup l ->
  forall (changed : list Path) (cache : gmap string (option string)) (q : Path),
  q ∈ l -> cache !! q = None ->
  snd (fold_left (project_change_step w) l (changed, cache)) !! q
  = if truthy (calculate_file_hash w q) then Some (calculate_file_hash w q) else None.
Proof.
  induction 1 as [|a l Ha Hl IH]; intros changed cache q Hin Hc.
  - now apply elem_of_nil in Hin.
  - cbn [fold_left].
    destruct (project_change_step w (changed, cache) a) as [changed' cache'] eqn:Es.
    apply elem_of_cons in Hin as [-> | Hin].
    + rewrite detect_fold_cache_outside by exact Ha.
      unfold project_change_step in Es. rewrite Hc in Es. injection Es as _ <-.
      destruct (truthy (calculate_file_hash w a)); [now rewrite lookup_insert_eq | exact Hc].
    + apply (IH changed' cache' q Hin).
      assert (Hqa : q <> a) by (intros ->; contradiction).
      generalize (project_change_step_cache_other w changed cache a q Hqa). rewrite Es.
      cbn [snd]. now intros ->.
Qed.

Lemma check_project_files_changes_spec (w : world) (q : Path) :
  q ∈ fst (check_project_files_changes w) <->
  q ∈ scan_project_files w /\
  exists old, project_files_hash_cache w !! q = Some old
              /\ calculate_file_hash w q <> old /\ q <> todo_file_path.
Proof.
  rewrite check_project_files_changes_eq. cbn [fst]. unfold detect_project_changes.
  rewrite (detect_fold_changed w _ (scan_project_files_NoDup w)).
  split; [intros [Hn|?]; [now apply elem_of_nil in Hn | assumption] | now right].
Qed.

(** The cache after a scan, on an enumerated file. *)
Lemma check_project_files_changes_cache (w : world) (q : Path) :
  q ∈ scan_project_files w ->
  project_files_hash_cache (snd (check_project_files_changes w)) !! q
  = match project_files_hash_cache w !! q with
    | Some _ => Some (calculate_file_hash w q)
    | None => if truthy (calculate_file_hash w q)
              then Some (calculate_file_hash w q) else None
    end.
Proof.
  intros Hin. rewrite check_project_files_changes_eq.
  cbn [snd project_files_hash_cache with_project_files_hash_cache].
  unfold detect_project_changes.
  destruct (project_files_hash_cache w !! q) as [old|] eqn:Ec.
  - exact (detect_fold_cache_tracked w _ (scan_project_files_NoDup w) _ _ q old Hin Ec).
  - exact (detect_fold_cache_unseen w _ (scan_project_files_NoDup w) _ _ q Hin Ec).
Qed.

(** X7.  Files seen for the first time are baselined, not flagged: a scan
    that starts from an empty fingerprint store reports no change, and leaves a
    fingerprint for exactly the enumerated files it could read. *)
Theorem first_scan_baselines (w : world) :
  project_files_hash_cache w = ∅ ->
  fst (check_project_files_changes w) = []
  /\ (forall q : Path,
        project_files_hash_cache (snd (check_project_files_changes w)) !! q
        = if bool_decide (q ∈ scan_project_files w)
          then (fun h => Some h) <$> calculate_file_hash w q
          else None).
Proof.
  intros He. split.
  - apply elem_of_nil_inv. intros q Hq.
    apply check_project_files_changes_spec in Hq as (_ & old & Ho & _).
    rewrite He, lookup_empty in Ho. discriminate.
  - intros q. destruct (bool_decide_reflect (q ∈ scan_project_files w)) as [Hin|Hout].
    + rewrite check_project_files_changes_cache by exact Hin.
      rewrite He, lookup_empty.
      destruct (calculate_file_hash w q) as [h|] eqn:Eh; [|reflexivity].
      assert (Ht : truthy (Some h) = true).
      { rewrite <- Eh. apply truthy_calculate_file_hash. congruence. }
      now rewrite Ht.
    + rewrite check_project_files_changes_eq.
      cbn [snd project_files_hash_cache with_project_files_hash_cache].
      unfold detect_project_changes. rewrite detect_fold_cache_outside by exact Hout.
      now rewrite He, lookup_empty.
Qed.

(** X8.  A scan commits what it has seen: a second scan of an unchanged file
    system, right after a first one, reports nothing. *)
Theorem second_scan_is_quiet (w : world) :
  fst (check_project_files_changes (snd (check_project_files_changes w))) = [].
Proof.
  apply elem_of_nil_inv. intros q Hq.
  apply check_project_files_changes_spec in Hq as (Hin & old & Ho & Hne & _).
  rewrite check_project_files_changes_eq in Hin, Ho, Hne. cbn [snd] in Hin, Ho, Hne.
  change (scan_project_files (with_project_files_hash_cache
            (snd (detect_project_changes w (scan_project_files w))) w))
    with (scan_project_files w) in Hin.
  change (calculate_file_hash (with_project_files_hash_cache
            (snd (detect_project_changes w (scan_project_files w))) w) q)
    with (calculate_file_hash w q) in Hne.
  pose proof (check_project_files_changes_cache w q Hin) as Hc.
  rewrite check_project_files_changes_eq in Hc. cbn [snd] in Hc.
  cbn [project_files_hash_cache with_project_files_hash_cache] in Ho, Hc.
  rewrite Hc in Ho.
  destruct (project_files_hash_cache w !! q).
  - injection Ho as <-. contradiction.
  - destruct (truthy (calculate_file_hash w q)); [|discriminate].
    injection Ho as <-. contradiction.
Qed.

Lemma strip_prefix_app (p s : string) : strip_prefix p (p ++ s) = Some s.
Proof.
  induction p as [|a p IH]; [reflexivity|].
  rewrite app_String. cbn [strip_prefix]. now rewrite Ascii.eqb_refl.
Qed.

(** X9.  The ledger file is never reported as changed by the project scan,
    yet it belongs to the project population whenever it exists: a rule change
    hands it to the compliance pass along with every other file. *)
Theorem ledger_file_in_population_never_changed (w : world) :
  (todo_file_path ∉ fst (check_project_files_changes w))
  /\ (exists_ w todo_file_path = true -> todo_file_path ∈ scan_project_files w)
  /\ (exists_ w todo_file_path = true -> fst (check_rule_files_changes w) <> [] ->
      todo_file_path ∈ fst (cycle_candidates w)).
Proof.
  assert (Hscan : exists_ w todo_file_path = true -> todo_file_path ∈ scan_project_files w).
  { unfold exists_. destruct (fs w !! todo_file_path) as [f|] eqn:Ef; [intros _|discriminate].
    unfold scan_project_files. apply list_elem_of_In, List.filter_In. split.
    - apply list_elem_of_In.
      change (map fst (map_to_list (fs w))) with ((map_to_list (fs w)).*1).
      apply list_elem_of_fmap. exists (todo_file_path, f). split; [reflexivity|].
      now apply elem_of_map_to_list.
    - unfold walk_selects, todo_file_path.
      change (project_root ++ "/rules/todo_Self-evolution_lists.txt")
        with (project_root ++ "/" ++ "rules/todo_Self-evolution_lists.txt").
      rewrite <- append_assoc, strip_prefix_app. vm_compute. reflexivity. }
  split; [|split; [exact Hscan|]].
  - intros Hin. apply check_project_files_changes_spec in Hin as (_ & old & _ & _ & Hne).
    now apply Hne.
  - intros He Hr.
    rewrite (cycle_candidates_escalated w Hr). now apply Hscan.
Qed.

Lemma rule_fold_changed (w : world) (l : list Path) :
  forall (changed : list Path) (cache : gmap string (option string)) (q : Path),
  q ∈ fst (fold_left (rule_change_step w) l (changed, cache)) <->
  q ∈ changed \/
  (q ∈ l /\ exists old, cache !! q = Some old /\ calculate_file_hash w q <> old).
Proof.
  induction l as [|a l IH]; intros changed cache q; cbn [fold_left].
  - cbn. split; [now left|]. intros [?|[Hin _]]; [assumption | now apply elem_of_nil in Hin].
  - destruct (rule_change_step w (changed, cache) a) as [changed' cache'] eqn:Es.
    rewrite IH. rewrite elem_of_cons. unfold rule_change_step in Es.
    destruct (cache !! a) as [olda|] eqn:Eca.
    + destruct (bool_decide_reflect (calculate_file_hash w a ≠ olda)) as [Hne|He];
        injection Es as <- <-.
      * rewrite elem_of_app, list_elem_of_singleton. split.
        -- intros [[?| ->]|[Hin (old & Ho & Hd)]].
           ++ now left.
           ++ right. split; [now left | now exists olda].
           ++ destruct (decide (q = a)) as [->|Hqa].
              ** rewrite lookup_insert_eq in Ho. injection Ho as <-. contradiction.
              ** rewrite lookup_insert_ne in Ho by congruence.
                 right. split; [now right | now exists old].
        -- intros [?|[[->|Hin] (old & Ho & Hd)]].
           ++ left. now left.
           ++ left. now right.
           ++ destruct (decide (q = a)) as [->|Hqa]; [left; now right|].
              right. split; [exact Hin|]. exists old.
              rewrite lookup_insert_ne by congruence. now split.
      * apply dec_stable in He. split.
        -- intros [?|[Hin (old & Ho & Hd)]]; [now left|].
           right. split; [now right | now exists old].
        -- intros [?|[[->|Hin] (old & Ho & Hd)]]; [now left| |].
           ++ rewrite Eca in Ho. injection Ho as <-. contradiction.
           ++ right. split; [exact Hin | now exists old].
    + injection Es as <- <-. split.
      * intros [?|[Hin (old & Ho & Hd)]]; [now left|].
        destruct (decide (q = a)) as [->|Hqa].
        -- destruct (truthy (calculate_file_hash w a)).
           ++ rewrite lookup_insert_eq in Ho. injection Ho as <-. contradiction.
           ++ rewrite Eca in Ho. discriminate.
        -- right. split; [now right|]. exists old.
           destruct (truthy (calculate_file_hash w a));
             [rewrite lookup_insert_ne in Ho by congruence|]; now split.
      * intros [?|[[->|Hin] (old & Ho & Hd)]]; [now left| |].
        -- rewrite Eca in Ho. discriminate.
        -- destruct (decide (q = a)) as [->|Hqa]; [rewrite Eca in Ho; discriminate|].
           right. split; [exact Hin|]. exists old.
           destruct (truthy (calculate_file_hash w a));
             [rewrite lookup_insert_ne by congruence|]; now split.
Qed.

Lemma check_rule_files_changes_spec (w : world) (q : Path) :
  q ∈ fst (check_rule_files_changes w) <->
  q ∈ rule_files w /\
  exists old, rules_hash_cache w !! q = Some old /\ calculate_file_hash w q <> old.
Proof.
  rewrite check_rule_files_changes_eq. cbn [fst]. rewrite rule_fold_changed.
  split; [intros [Hn|?]; [now apply elem_of_nil in Hn | assumption] | now right].
Qed.

(** X10.  The rule scan reports exactly the monitored rule files whose fresh
    hash differs from the cached entry, however often a file is listed.  A
    tracked rule file that can no longer be read therefore counts as changed,
    and escalates the cycle to the whole project. *)
Theorem rule_scan_reports (w : world) (q : Path) :
  (q ∈ fst (check_rule_files_changes w) <->
   q ∈ rule_files w /\
   exists old, rules_hash_cache w !! q = Some old /\ calculate_file_hash w q <> old)
  /\ (forall digest : string,
        q ∈ rule_files w -> rules_hash_cache w !! q = Some (Some digest) ->
        calculate_file_hash w q = None ->
        fst (cycle_candidates w) = scan_project_files w).
Proof.
  split; [apply check_rule_files_changes_spec|].
  intros digest Hin Hc Hh.
  apply cycle_candidates_escalated.
  intros Hnil. assert (Hq : q ∈ fst (check_rule_files_changes w)).
  { apply check_rule_files_changes_spec. split; [exact Hin|].
    exists (Some digest). split; [exact Hc|]. now rewrite Hh. }
  rewrite Hnil in Hq. now apply elem_of_nil in Hq.
Qed.

(** ** Compliance check and repair *)

Lemma acquire_file_lock_free (w : world) (p : Path) (timeout : Z) :
  1 <= timeout ->
  fs w !! get_lock_file_path p = None ->
  acquire_file_lock w p timeout
  = (true, write_text (get_lock_file_path p) (lock_note w) w).
Proof.
  intros Ht Hf. unfold acquire_file_lock, acquire_fuel. cbn [acquire_loop].
  replace (now w - now w <? timeout * 1000) with true by (symmetry; apply Z.ltb_lt; lia).
  now rewrite Hf.
Qed.

Lemma with_fs_id (w : world) : with_fs (fs w) w = w.
Proof. now destruct w. Qed.

(** With a free lock and a readable file, the repair is one rewrite of the
    file, and the sentinel is gone afterwards. *)
Lemma update_file_compliance_free (w : world) (p : Path) (info : list string)
    (content : string) :
  fs w !! get_lock_file_path p = None ->
  read_text w p = Some content ->
  update_file_compliance w p info
  = (true,
     if negb (String.eqb (updated_text (strftime_ymd (now w)) p info content) content)
     then write_text p (updated_text (strftime_ymd (now w)) p info content) w
     else w).
Proof.
  intros Hfree Hread. unfold update_file_compliance.
  rewrite (acquire_file_lock_free w p 5) by (lia || exact Hfree).
  cbn [negb].
  assert (Hne : p <> get_lock_file_path p).
  { intros E. unfold read_text in Hread. rewrite <- E in Hfree. now rewrite Hfree in Hread. }
  assert (Hread' : read_text (write_text (get_lock_file_path p) (lock_note w) w) p
                   = Some content).
  { unfold read_text, write_text. cbn [fs with_fs].
    rewrite lookup_insert_ne by congruence. exact Hread. }
  rewrite Hread'. cbn [now write_text with_fs].
  f_equal.
  destruct (negb (String.eqb (updated_text (strftime_ymd (now w)) p info content) content)).
  - unfold release_file_lock, exists_, write_text, unlink. cbn [fs with_fs now].
    rewrite lookup_insert_ne by congruence. rewrite lookup_insert_eq.
    cbn [fs with_fs now].
    rewrite delete_insert_ne by congruence.
    rewrite delete_insert_id by exact Hfree. reflexivity.
  - unfold release_file_lock, exists_, write_text, unlink. cbn [fs with_fs now].
    rewrite lookup_insert_eq. cbn [fs with_fs now].
    rewrite delete_insert_id by exact Hfree. destruct w; reflexivity.
Qed.

Lemma check_file_compliance_readable (w : world) (p : Path) (content : string) :
  read_text w p = Some content ->
  check_file_compliance w p
  = if negb (startswith "#" (strip content))
       && existsb (String.eqb (path_suffix p)) [".py"; ".sh"; ".ps1"]
    then {| is_compliant := false; issues := ["缺少标准头部注释"];
            update_info := ["header_comment"] |}
    else {| is_compliant := true; issues := []; update_info := [] |}.
Proof.
  intros Hread. unfold check_file_compliance, exists_.
  assert (He : fs w !! p <> None).
  { unfold read_text in Hread. destruct (fs w !! p); [discriminate | discriminate]. }
  destruct (fs w !! p) as [f|] eqn:Ef; [|contradiction].
  cbn [negb]. unfold get_applicable_rules_for_file. cbn [not_nil negb].
  rewrite Hread. cbn [fold_left]. unfold rule_check_step.
  cbn [String.eqb Ascii.eqb Bool.eqb andb issues update_info is_compliant].
  destruct (negb (startswith "#" (strip content))
            && existsb (String.eqb (path_suffix p)) [".py"; ".sh"; ".ps1"]); reflexivity.
Qed.

(** X11.  The outcome of a compliance check.  The rule dictionary has no
    [encoding_declaration] key, so the coding-line rule never fires: a readable
    file is non-compliant exactly when it is a [.py], [.sh] or [.ps1] file whose
    stripped text does not start with [#], and then the one repair asked for is
    the header comment. *)
Theorem check_file_compliance_outcomes (w : world) (p : Path) :
  has_key "encoding_declaration" (update_info (check_file_compliance w p)) = false
  /\ ("缺少UTF-8编码声明" ∉ issues (check_file_compliance w p))
  /\ (forall content : string,
        read_text w p = Some content ->
        check_file_compliance w p
        = if negb (startswith "#" (strip content))
             && existsb (String.eqb (path_suffix p)) [".py"; ".sh"; ".ps1"]
          then {| is_compliant := false; issues := ["缺少标准头部注释"];
                  update_info := ["header_comment"] |}
          else {| is_compliant := true; issues := []; update_info := [] |})
  /\ (read_text w p = None ->
      is_compliant (check_file_compliance w p) = false
      /\ update_info (check_file_compliance w p) = []).
Proof.
  destruct (read_text w p) as [content|] eqn:Hread.
  - rewrite (check_file_compliance_readable w p content Hread).
    destruct (negb (startswith "#" (strip content))
              && existsb (String.eqb (path_suffix p)) [".py"; ".sh"; ".ps1"]) eqn:Ec;
      cbn [update_info issues].
    + split; [reflexivity|]. split.
      * intros Hin. apply list_elem_of_singleton in Hin. discriminate.
      * split; [intros c [= <-]; now rewrite Ec | discriminate].
    + split; [reflexivity|]. split; [apply not_elem_of_nil|].
      split; [intros c [= <-]; now rewrite Ec | discriminate].
  - unfold check_file_compliance. rewrite Hread.
    destruct (negb (exists_ w p)); cbn [update_info issues is_compliant has_key existsb].
    + split; [reflexivity|]. split.
      * intros Hin. apply list_elem_of_singleton in Hin.
        apply (f_equal (fun s => match s with String a _ => Some a | _ => None end)) in Hin.
        discriminate.
      * split; [discriminate | now intros _].
    + unfold get_applicable_rules_for_file. cbn [not_nil negb update_info issues is_compliant].
      split; [reflexivity|]. split.
      * intros Hin. apply list_elem_of_singleton in Hin.
        apply (f_equal (fun s => match s with String a _ => Some a | _ => None end)) in Hin.
        discriminate.
      * split; [discriminate | now intros _].
Qed.

Lemma splitlines_acc_head (s : string) :
  forall (cur l0 : string) (rest : list string),
  splitlines_acc s O cur = l0 :: rest -> exists t : string, l0 = rev cur ++ t.
Proof.
  induction s as [|a r IH]; intros cur l0 rest.
  - cbn [splitlines_acc]. destruct (nonempty cur); [|discriminate].
    intros [= <- _]. exists "". now rewrite append_empty_r.
  - cbn [splitlines_acc]. destruct (linebreak_width (String a r)).
    + intros Hs. apply IH in Hs as [t ->]. exists (String a t).
      unfold rev at 1. cbn [rev_acc]. rewrite rev_acc_spec.
      now rewrite append_assoc.
    + intros [= <- _]. exists "". now rewrite append_empty_r.
Qed.

(** The first line of a text starts with [#] only if the text does. *)
Lemma first_line_hash (content l0 : string) (rest : list string) :
  splitlines content = l0 :: rest ->
  startswith "#" l0 = true ->
  startswith "#" (strip content) = true.
Proof.
  unfold splitlines. destruct content as [|a r]; [discriminate|].
  cbn [splitlines_acc]. destruct (linebreak_width (String a r)).
  - intros Hs Hh. apply splitlines_acc_head in Hs as [t ->].
    change (rev (String a "") ++ t) with (String a t) in Hh.
    cbn [startswith] in Hh. destruct (Ascii.eqb_spec "#" a) as [<-|]; [|discriminate].
    destruct (strip_plain "#" r) as [t' ->]; reflexivity.
  - intros [= <- _]. discriminate.
Qed.

Lemma no_shebang_without_hash (content : string) :
  startswith "#" (strip content) = false ->
  starts_with_shebang (splitlines content) = false.
Proof.
  intros Hh. destruct (splitlines content) as [|l0 rest] eqn:Es; [reflexivity|].
  cbn [starts_with_shebang].
  destruct (startswith "#!" l0) eqn:E; [|reflexivity].
  rewrite (first_line_hash content l0 rest Es) in Hh; [discriminate|].
  destruct l0 as [|a l0]; [discriminate|]. cbn [startswith] in E |- *.
  destruct (Ascii.eqb "#" a); [reflexivity | discriminate].
Qed.

Lemma no_coding_line_without_hash (content : string) :
  startswith "#" (strip content) = false ->
  (0 <? length (splitlines content))%nat
  && startswith coding_line (nth 0 (splitlines content) "") = false.
Proof.
  intros Hh. destruct (splitlines content) as [|l0 rest] eqn:Es; [reflexivity|].
  cbn [length Nat.ltb Nat.leb nth andb].
  destruct (startswith coding_line l0) eqn:E; [|reflexivity].
  rewrite (first_line_hash content l0 rest Es) in Hh; [discriminate|].
  destruct l0 as [|a l0]; [discriminate|]. unfold coding_line in E. cbn [startswith] in E |- *.
  destruct (Ascii.eqb "#" a); [reflexivity | discriminate].
Qed.

(** X12.  A file whose first line opens a docstring is never rewritten: the
    repair reports success and leaves the whole state as it was, so a file that
    was reported for a missing header stays as it is and stays non-compliant. *)
Theorem docstring_file_is_left_alone (w : world) (p : Path) (info : list string)
    (content l0 : string) (rest : list string) :
  has_key "encoding_declaration" info = false ->
  fs w !! get_lock_file_path p = None ->
  read_text w p = Some content ->
  splitlines content = l0 :: rest ->
  opens_docstring l0 = true ->
  update_file_compliance w p info = (true, w).
Proof.
  intros Hkey Hfree Hread Hsplit Hdoc.
  rewrite (update_file_compliance_free w p info content Hfree Hread).
  assert (E : updated_text (strftime_ymd (now w)) p info content = content).
  { unfold updated_text. rewrite Hkey. cbn [andb].
    destruct (has_key "header_comment" info); [|reflexivity].
    rewrite Hsplit.
    fold opens_docstring.
    destruct (String.eqb (path_suffix p) ".py"
              && negb (existsb (contains coding_line) (take 5 (l0 :: rest)))).
    - destruct (starts_with_shebang (l0 :: rest)).
      + change (list_insert_at 1 coding_line (l0 :: rest))
          with (l0 :: coding_line :: rest).
        cbn [take firstn existsb]. rewrite Hdoc. reflexivity.
      + change (list_insert_at 0 coding_line (l0 :: rest))
          with (coding_line :: l0 :: rest).
        cbn [take firstn existsb]. rewrite Hdoc, orb_true_r. reflexivity.
    - cbn [take firstn existsb]. rewrite Hdoc. reflexivity. }
  rewrite E, String.eqb_refl. reflexivity.
Qed.

Lemma universal_newlines_plain (a : ascii) (s : string) :
  plain_head a = true ->
  universal_newlines (String a s) = String a (universal_newlines s).
Proof.
  intros Hp. apply plain_head_facts in Hp as (H1 & _).
  cbn [universal_newlines].
  destruct (is_code 13 a) eqn:E; [|reflexivity].
  unfold is_code in E. apply N.eqb_eq in E. unfold is_space1 in H1. rewrite E in H1.
  discriminate.
Qed.

(** The compliance check of a file just written with a text that starts with
    a plain byte. *)
Lemma check_file_compliance_written (w : world) (p : Path) (a : ascii) (s : string) :
  plain_head a = true ->
  check_file_compliance (write_text p (String a s) w) p
  = if negb (Ascii.eqb "#" a)
       && existsb (String.eqb (path_suffix p)) [".py"; ".sh"; ".ps1"]
    then {| is_compliant := false; issues := ["缺少标准头部注释"];
            update_info := ["header_comment"] |}
    else {| is_compliant := true; issues := []; update_info := [] |}.
Proof.
  intros Hp.
  rewrite (check_file_compliance_readable _ p (String a (universal_newlines s))).
  - destruct (strip_plain a (universal_newlines s) Hp) as [t ->].
    cbn [startswith]. now destruct (Ascii.eqb "#" a).
  - unfold read_text, write_text. cbn [fs with_fs]. rewrite lookup_insert_eq.
    cbn [f_data fmap option_fmap option_map]. now rewrite universal_newlines_plain.
Qed.

Lemma no_hash_head (content : string) (a : ascii) (s : string) :
  startswith "#" (strip content) = false -> content = String a s -> a <> "#"%char.
Proof.
  intros Hh -> ->. destruct (strip_plain "#" s) as [t Ht]; [reflexivity|].
  rewrite Ht in Hh. discriminate.
Qed.

Lemma insert_all_header (pos_lines lines : list string) (h1 h2 h3 h4 h5 h6 h7 : string) :
  insert_all (length pos_lines) [h1; h2; h3; h4; h5; h6; h7] (pos_lines ++ lines)
  = (pos_lines ++ [h1; h2; h3; h4; h5; h6; h7] ++ lines)%list.
Proof.
  assert (Hstep : forall (pre : list string) (x : string) (l : list string),
            list_insert_at (length pre) x (pre ++ l) = ((pre ++ [x]) ++ l)%list).
  { intros pre x l. unfold list_insert_at.
    rewrite take_app_length, drop_app_length. now rewrite <- app_assoc. }
  assert (Hlen : forall (pre : list string) (x : string),
            S (length pre) = length (pre ++ [x])%list).
  { intros pre x. rewrite length_app. cbn. lia. }
  cbn [insert_all].
  rewrite Hstep, (Hlen pos_lines h1), Hstep, (Hlen _ h2), Hstep, (Hlen _ h3), Hstep,
    (Hlen _ h4), Hstep, (Hlen _ h5), Hstep, (Hlen _ h6), Hstep.
  now rewrite <- !app_assoc.
Qed.

(** What the repair writes into a script that is not Python and lacks the
    leading [#]: nothing new, or a text that opens with the docstring quotes. *)
Lemma updated_text_script (today : string) (p : Path) (content : string) :
  String.eqb (path_suffix p) ".py" = false ->
  startswith "#" (strip content) = false ->
  updated_text today p ["header_comment"] content = content
  \/ exists s : string,
       updated_text today p ["header_comment"] content = String (ascii_of_N 34) s.
Proof.
  intros Hpy Hh. unfold updated_text.
  change (has_key "encoding_declaration" ["header_comment"]) with false.
  change (has_key "header_comment" ["header_comment"]) with true.
  rewrite Hpy. cbn [andb].
  rewrite (no_shebang_without_hash content Hh).
  rewrite (no_coding_line_without_hash content Hh).
  destruct (existsb _ (take 10 (splitlines content))); [now left|].
  right. cbn [negb].
  rewrite (insert_all_header [] (splitlines content)).
  cbn [app join]. eexists. reflexivity.
Qed.

(** X13.  The repair does not fit shell and PowerShell scripts: a [.sh] or
    [.ps1] file reported for its missing header is given the Python docstring
    template at its top, or is left as it is, and in both cases the next check
    reports it again. *)
Theorem script_repair_keeps_it_noncompliant (w : world) (p : Path) (content : string) :
  existsb (String.eqb (path_suffix p)) [".sh"; ".ps1"] = true ->
  fs w !! get_lock_file_path p = None ->
  read_text w p = Some content ->
  startswith "#" (strip content) = false ->
  let info := update_info (check_file_compliance w p) in
  info = ["header_comment"]
  /\ fst (update_file_compliance w p info) = true
  /\ is_compliant (check_file_compliance (snd (update_file_compliance w p info)) p) = false.
Proof.
  intros Hsuf Hfree Hread Hh. cbv zeta.
  assert (Hpy : String.eqb (path_suffix p) ".py" = false).
  { cbn [existsb] in Hsuf. rewrite orb_false_r in Hsuf.
    apply orb_true_iff in Hsuf as [E|E]; apply String.eqb_eq in E; now rewrite E. }
  assert (Hin : existsb (String.eqb (path_suffix p)) [".py"; ".sh"; ".ps1"] = true).
  { cbn [existsb] in Hsuf |- *. rewrite Hpy. exact Hsuf. }
  assert (Hcheck : check_file_compliance w p
            = {| is_compliant := false; issues := ["缺少标准头部注释"];
                 update_info := ["header_comment"] |}).
  { rewrite (check_file_compliance_readable w p content Hread), Hh, Hin. reflexivity. }
  rewrite Hcheck. cbn [update_info].
  split; [reflexivity|].
  rewrite (update_file_compliance_free w p ["header_comment"] content Hfree Hread).
  cbn [fst snd]. split; [reflexivity|].
  destruct (String.eqb_spec (updated_text (strftime_ymd (now w)) p ["header_comment"] content)
              content) as [E|E]; cbn [negb].
  - now rewrite Hcheck.
  - destruct (updated_text_script (strftime_ymd (now w)) p content Hpy Hh) as [E'|[s E']];
      [contradiction|].
    rewrite E', check_file_compliance_written by reflexivity.
    rewrite Hin. reflexivity.
Qed.

(** X14.  The repair of a Python file that lacks the leading [#], has no
    coding line in its first five lines and opens no docstring in its first
    nine: the file is rewritten as the coding line, the header template and
    then its former lines, and the next check finds it compliant. *)
Theorem python_repair_makes_it_compliant (w : world) (p : Path) (content : string) :
  path_suffix p = ".py" ->
  fs w !! get_lock_file_path p = None ->
  read_text w p = Some content ->
  startswith "#" (strip content) = false ->
  existsb (contains coding_line) (take 5 (splitlines content)) = false ->
  existsb opens_docstring (take 9 (splitlines content)) = false ->
  let r := update_file_compliance w p (update_info (check_file_compliance w p)) in
  fst r = true
  /\ fs (snd r) !! p
     = Some (File (Some (join LF (coding_line
                                  :: standard_header (strftime_ymd (now w)) p
                                  ++ splitlines content)%list))
                  (now w))
  /\ check_file_compliance (snd r) p
     = {| is_compliant := true; issues := []; update_info := [] |}.
Proof.
  intros Hsuf Hfree Hread Hh Hcoding Hdoc. cbv zeta.
  assert (Hcheck : check_file_compliance w p
            = {| is_compliant := false; issues := ["缺少标准头部注释"];
                 update_info := ["header_comment"] |}).
  { rewrite (check_file_compliance_readable w p content Hread), Hh, Hsuf. reflexivity. }
  rewrite Hcheck. cbn [update_info].
  rewrite (update_file_compliance_free w p ["header_comment"] content Hfree Hread).
  cbn [fst snd].
  assert (E : updated_text (strftime_ymd (now w)) p ["header_comment"] content
              = join LF (coding_line :: standard_header (strftime_ymd (now w)) p
                         ++ splitlines content)%list).
  { unfold updated_text.
    change (has_key "encoding_declaration" ["header_comment"]) with false.
    change (has_key "header_comment" ["header_comment"]) with true.
    rewrite Hsuf. cbn [andb]. rewrite Hcoding.
    change (String.eqb ".py" ".py" && negb false) with true. cbv iota.
    rewrite (no_shebang_without_hash content Hh).
    change (list_insert_at 0 coding_line (splitlines content))
      with (coding_line :: splitlines content).
    fold opens_docstring.
    change (take 10 (coding_line :: splitlines content))
      with (coding_line :: take 9 (splitlines content)).
    cbn [existsb]. rewrite Hdoc.
    change (opens_docstring coding_line) with false.
    cbn [orb negb starts_with_shebang length nth].
    change (startswith "#!" coding_line) with false. cbv iota.
    change ((0 <? S (length (splitlines content)))%nat) with true.
    change (startswith coding_line coding_line) with true. cbn [andb].
    exact (f_equal (join LF)
             (insert_all_header [coding_line] (splitlines content) _ _ _ _ _ _ _)). }
  rewrite E.
  assert (Et : exists s : string,
            join LF (coding_line :: standard_header (strftime_ymd (now w)) p
                     ++ splitlines content)%list = String "#" s).
  { unfold standard_header. cbn [app join]. eexists. reflexivity. }
  destruct Et as [s Et]. rewrite Et.
  destruct (String.eqb_spec (String "#" s) content) as [Ec|Ec]; cbn [negb].
  - exfalso. symmetry in Ec. now apply (no_hash_head content "#" s Hh Ec).
  - split; [reflexivity|]. split.
    + unfold write_text. cbn [fs with_fs]. now rewrite lookup_insert_eq.
    + rewrite check_file_compliance_written by reflexivity. reflexivity.
Qed.

(** ** The conflict check, the gate and the audit trail *)

(** X15.  The conflict check reports a conflict exactly when the path has a
    readable, non-blank sentinel or the gate of the cycle is closed: on a path
    without a lock it agrees with [should_execute_evolution]. *)
Theorem conflict_check_agrees_with_gate (w : world) (p : Path) :
  fst (check_path_conflicts w p)
  = fst (is_file_locked w p) && truthy (snd (is_file_locked w p))
    || negb (should_execute_evolution w).
Proof.
  unfold check_path_conflicts. destruct (is_file_locked w p) as [l i]. cbn [fst snd].
  destruct (l && truthy i); [reflexivity|]. cbn [orb].
  rewrite should_execute_evolution_eq.
  destruct (String.eqb (get_project_mode w) "devP") eqn:Ed.
  - destruct (is_user_active w); reflexivity.
  - destruct (String.eqb (get_project_mode w) "proD"); destruct (is_user_active w);
      reflexivity.
Qed.

Lemma get_project_mode_logged (q : Path) (reason resolution : string) (w : world) :
  get_project_mode (log_conflict q reason resolution w) = get_project_mode w.
Proof. now apply get_project_mode_variables. Qed.

(** X16.  Every resolution leaves exactly two records in the conflict log,
    in this order: the conflict as pending, stamped when the resolver was
    entered, and the conflict with the resolution returned, stamped when the
    resolver left; both carry the path, the reason and the mode of the call. *)
Theorem resolve_path_conflict_audit (w : world) (p : Path) (reason : string) :
  let r := resolve_path_conflict w p reason in
  conflict_log (snd r)
  = (conflict_log w ++
     [{| cr_timestamp := isoformat (now w); cr_path := p;
         cr_mode := get_project_mode w; cr_reason := reason;
         cr_resolution := "待处理" |};
      {| cr_timestamp := isoformat (now (snd r)); cr_path := p;
         cr_mode := get_project_mode w; cr_reason := reason;
         cr_resolution := fst r |}])%list.
Proof.
  cbv zeta. destruct (String.eqb_spec (get_project_mode w) "devP") as [Hm|Hm].
  - rewrite (resolve_path_conflict_devP w p reason Hm). cbv zeta.
    rewrite acquire_file_lock_logged. cbn [fst snd].
    unfold acquire_file_lock.
    destruct (acquire_loop_frame (acquire_fuel (5 * 1000)) (get_lock_file_path p)
                (now w) (5 * 1000) w) as (Hv & _ & _ & _ & Hl & _ & _).
    destruct (acquire_loop (acquire_fuel (5 * 1000)) (get_lock_file_path p)
                (now w) (5 * 1000) w) as [acquired w1]. cbn [fst snd] in *.
    unfold log_conflict. cbn [conflict_log with_conflict_log now].
    rewrite <- app_assoc. cbn [app].
    rewrite (get_project_mode_variables w (with_conflict_log _ w1)) by exact Hv.
    reflexivity.
  - rewrite (resolve_path_conflict_other_modes w p reason Hm). cbn [fst snd].
    unfold log_conflict. cbn [conflict_log with_conflict_log now].
    rewrite <- app_assoc. reflexivity.
Qed.

(** X17.  A lock the resolver has forced is never released by the resolver,
    so the repair of that very file finds the lock taken: it waits out its
    five seconds, gives up, and leaves the file and the sentinel as they are. *)
Theorem forced_lock_blocks_own_repair (w : world) (p : Path) (info : list string) :
  fst (check_and_resolve w p) = FORCED_WITH_LOCK ->
  let w1 := snd (check_and_resolve w p) in
  let r := update_file_compliance w1 p info in
  fst r = false
  /\ fs (snd r) = fs w1
  /\ now w1 + 5000 <= now (snd r)
  /\ exists_ (snd r) (get_lock_file_path p) = true.
Proof.
  unfold check_and_resolve.
  destruct (check_path_conflicts w p) as [has_conflict reason].
  destruct has_conflict; [|discriminate].
  destruct (String.eqb_spec (get_project_mode w) "devP") as [Hm|Hm].
  2:{ rewrite (resolve_path_conflict_other_modes w p reason Hm). cbn [fst snd].
      change (is_skip "proD模式下跳过处理，尊重用户活动") with true. discriminate. }
  rewrite (resolve_path_conflict_devP w p reason Hm). cbv zeta.
  rewrite acquire_file_lock_logged. cbn [fst snd].
  pose proof (acquire_loop_success (acquire_fuel (5 * 1000)) (get_lock_file_path p)
                (now w) (5 * 1000) w) as Hs. cbv zeta in Hs.
  fold (acquire_file_lock w p 5) in Hs.
  destruct (acquire_file_lock w p 5) as [acquired w1]. cbn [fst snd] in *.
  destruct acquired.
  2:{ change (is_skip "无法获取文件锁，跳过处理") with true. discriminate. }
  intros _. specialize (Hs eq_refl).
  set (w2 := log_conflict p reason "devP模式下强制获取锁，执行自我进化"
               (with_conflict_log
                  (conflict_log (log_conflict p reason "待处理" w)) w1)).
  assert (Hfs : fs w2 = fs w1) by reflexivity.
  assert (Hnow : now w2 = now w1) by reflexivity.
  unfold update_file_compliance, acquire_file_lock.
  destruct (acquire_loop_held (acquire_fuel (5 * 1000)) (get_lock_file_path p)
              (now w2) (5 * 1000) w2
              (File (Some (lock_note w1)) (now w1))) as (Hr & Hf & Hn & _).
  { rewrite Hfs. exact Hs. }
  { cbn [f_mtime]. rewrite Hnow. lia. }
  { replace (now w2 + 5 * 1000 - now w2 + 99) with 5099 by lia. vm_compute. lia. }
  destruct (acquire_loop (acquire_fuel (5 * 1000)) (get_lock_file_path p)
              (now w2) (5 * 1000) w2) as [a w3]. cbn [fst snd] in *. subst a.
  cbn [negb fst snd]. split; [reflexivity|]. split; [exact Hf|].
  split; [lia|]. unfold exists_. rewrite Hf, Hfs, Hs. reflexivity.
Qed.

(** ** More on the ledger *)

Lemma check_path_conflicts_active (w : world) (p : Path) :
  get_project_mode w <> "devP" -> is_user_active w = true ->
  fst (check_path_conflicts w p) = true.
Proof.
  intros Hm Ha. unfold check_path_conflicts. destruct (is_file_locked w p) as [l i].
  destruct (l && truthy i); [reflexivity|].
  destruct (String.eqb_spec (get_project_mode w) "devP"); [contradiction|].
  rewrite Ha. destruct (String.eqb (get_project_mode w) "proD"); reflexivity.
Qed.

Lemma todo_loop_active (existing : gset string) (files : list Path) :
  forall w : world,
  get_project_mode w <> "devP" -> is_user_active w = true ->
  let r := todo_loop existing files w in
  fst (fst r) = []
  /\ fs (snd r) = fs w /\ now (snd r) = now w
  /\ length (conflict_log (snd r))
     = (length (conflict_log w)
        + 2 * length (List.filter (fun p => negb (bool_decide (p ∈ existing))) files))%nat.
Proof.
  induction files as [|file_path rest IH]; intros w Hm Ha; cbv zeta.
  { cbn. repeat split. lia. }
  cbn [todo_loop List.filter].
  pose proof (check_path_conflicts_active w file_path Hm Ha) as Hc.
  destruct (check_path_conflicts w file_path) as [c reason]. cbn [fst] in Hc. subst c.
  destruct (bool_decide_reflect (file_path ∈ existing)) as [Hin|Hout]; cbn [negb].
  { exact (IH w Hm Ha). }
  rewrite (resolve_path_conflict_other_modes w file_path reason Hm).
  change (is_skip "proD模式下跳过处理，尊重用户活动") with true. cbv iota.
  set (w1 := log_conflict file_path reason "proD模式下跳过处理，尊重用户活动"
               (log_conflict file_path reason "待处理" w)).
  assert (Hm1 : get_project_mode w1 <> "devP").
  { unfold w1. now rewrite !get_project_mode_logged. }
  assert (Ha1 : is_user_active w1 = true) by exact Ha.
  destruct (IH w1 Hm1 Ha1) as (Hadds & Hfs & Hnow & Hlog).
  destruct (todo_loop existing rest w1) as [[adds skipped] w2]. cbn [fst snd] in *.
  split; [exact Hadds|]. split; [exact Hfs|]. split; [exact Hnow|].
  rewrite Hlog. unfold w1, log_conflict. cbn [conflict_log with_conflict_log length].
  rewrite !length_app. cbn [length]. lia.
Qed.

(** X18.  Outside 'devP', while the user is active, an enqueue adds nothing:
    every path the ledger does not list is skipped, the file system and the
    clock are as before, and the conflict log grows by two records for each
    such path. *)
Theorem enqueue_respects_active_user (w : world) (files : list Path) :
  get_project_mode w <> "devP" -> is_user_active w = true ->
  fs (add_files_to_todo w files) = fs w
  /\ now (add_files_to_todo w files) = now w
  /\ (forall old : string, ledger_data w = Some old ->
      length (conflict_log (add_files_to_todo w files))
      = (length (conflict_log w)
         + 2 * length (List.filter
                         (fun p => negb (bool_decide
                                           (p ∈ existing_files_of (universal_newlines old))))
                         files))%nat).
Proof.
  intros Hm Ha.
  assert (Hgen : forall old : string, ledger_data w = Some old ->
            add_files_to_todo w files
            = if not_nil files
              then snd (todo_loop (existing_files_of (universal_newlines old)) files w)
              else w).
  { intros old Hold. rewrite (add_files_to_todo_eq w files old Hold). cbv zeta.
    destruct (todo_loop_active (existing_files_of (universal_newlines old)) files w Hm Ha)
      as (Hadds & _). now rewrite Hadds. }
  destruct (ledger_data w) as [old|] eqn:Hold.
  - rewrite (Hgen old eq_refl).
    destruct (todo_loop_active (existing_files_of (universal_newlines old)) files w Hm Ha)
      as (_ & Hfs & Hnow & Hlog).
    destruct files as [|f0 files]; cbn [not_nil].
    + split; [reflexivity|]. split; [reflexivity|]. intros old' _. cbn. lia.
    + split; [exact Hfs|]. split; [exact Hnow|]. intros old' [= <-]. exact Hlog.
  - assert (E : add_files_to_todo w files = w).
    { unfold add_files_to_todo, ledger_data in *.
      destruct (negb (not_nil files)); [reflexivity|].
      destruct (fs w !! todo_file_path) as [[[data|] mt]|]; try discriminate. reflexivity. }
    rewrite E. split; [reflexivity|]. split; [reflexivity|]. discriminate.
Qed.

Lemma todo_loop_listed (existing : gset string) (files : list Path) (w : world) :
  Forall (fun p => p ∈ existing) files -> todo_loop existing files w = ([], [], w).
Proof.
  induction 1 as [|p rest Hp _ IH]; [reflexivity|].
  cbn [todo_loop]. destruct (check_path_conflicts w p) as [c reason].
  now rewrite (bool_decide_eq_true_2 _ Hp).
Qed.

(** X19.  An enqueue of paths the ledger already lists is a no-op on the
    whole state: nothing is written, no lock is tried and nothing is logged,
    whatever the mode and the locks. *)
Theorem enqueue_listed_paths_is_noop (w : world) (files : list Path) (old : string) :
  ledger_data w = Some old ->
  Forall (fun p => p ∈ existing_files_of (universal_newlines old)) files ->
  add_files_to_todo w files = w.
Proof.
  intros Hold Hall. rewrite (add_files_to_todo_eq w files old Hold). cbv zeta.
  rewrite (todo_loop_listed _ files w Hall). cbn [fst snd not_nil].
  now destruct (not_nil files).
Qed.

(** ** The cycle as a whole *)

Lemma rule_fold_cache_outside (w : world) (l : list Path) :
  forall (changed : list Path) (cache : gmap string (option string)) (q : Path),
  q ∉ l -> snd (fold_left (rule_change_step w) l (changed, cache)) !! q = cache !! q.
Proof.
  induction l as [|a l IH]; intros changed cache q Hq; [reflexivity|].
  cbn [fold_left]. apply not_elem_of_cons in Hq as [Hqa Hql].
  destruct (rule_change_step w (changed, cache) a) as [changed' cache'] eqn:Es.
  rewrite IH by exact Hql. unfold rule_change_step in Es.
  destruct (cache !! a).
  - destruct (bool_decide _); injection Es as _ <-;
      [now rewrite lookup_insert_ne by congruence | reflexivity].
  - destruct (truthy _); injection Es as _ <-;
      [now rewrite lookup_insert_ne by congruence | reflexivity].
Qed.

Lemma rule_fold_cache (w : world) (l : list Path) :
  forall (changed : list Path) (cache : gmap string (option string)) (q : Path),
  q ∈ l ->
  snd (fold_left (rule_change_step w) l (changed, cache)) !! q
  = match cache !! q with
    | Some _ => Some (calculate_file_hash w q)
    | None => if truthy (calculate_file_hash w q)
              then Some (calculate_file_hash w q) else None
    end.
Proof.
  induction l as [|a l IH]; intros changed cache q Hin.
  { now apply elem_of_nil in Hin. }
  cbn [fold_left].
  destruct (rule_change_step w (changed, cache) a) as [changed' cache'] eqn:Es.
  destruct (decide (q = a)) as [->|Hqa].
  - assert (Ha : cache' !! a
                 = match cache !! a with
                   | Some _ => Some (calculate_file_hash w a)
                   | None => if truthy (calculate_file_hash w a)
                             then Some (calculate_file_hash w a) else None
                   end).
    { unfold rule_change_step in Es. destruct (cache !! a) as [old|] eqn:Ec.
      - destruct (bool_decide_reflect (calculate_file_hash w a ≠ old)) as [Hne|He];
          injection Es as _ <-.
        + now rewrite lookup_insert_eq.
        + apply dec_stable in He. now rewrite Ec, He.
      - destruct (truthy (calculate_file_hash w a)); injection Es as _ <-;
          [now rewrite lookup_insert_eq | exact Ec]. }
    destruct (decide (a ∈ l)) as [Hal|Hal].
    + rewrite (IH changed' cache' a Hal), Ha.
      destruct (cache !! a); [reflexivity|].
      destruct (truthy (calculate_file_hash w a)); reflexivity.
    + rewrite rule_fold_cache_outside by exact Hal. exact Ha.
  - apply elem_of_cons in Hin as [?|Hin]; [contradiction|].
    rewrite (IH changed' cache' q Hin).
    assert (Hc : cache' !! q = cache !! q).
    { unfold rule_change_step in Es. destruct (cache !! a).
      - destruct (bool_decide _); injection Es as _ <-;
          [now rewrite lookup_insert_ne by congruence | reflexivity].
      - destruct (truthy _); injection Es as _ <-;
          [now rewrite lookup_insert_ne by congruence | reflexivity]. }
    now rewrite Hc.
Qed.

Lemma calculate_file_hash_fs (w1 w : world) (q : Path) :
  fs w1 = fs w -> calculate_file_hash w1 q = calculate_file_hash w q.
Proof. intros E. unfold calculate_file_hash. now rewrite E. Qed.

Lemma scan_project_files_fs (w1 w : world) :
  fs w1 = fs w -> scan_project_files w1 = scan_project_files w.
Proof. intros E. unfold scan_project_files. now rewrite E. Qed.

Lemma rule_scan_quiet (w1 w : world) :
  fs w1 = fs w -> rule_files w1 = rule_files w ->
  rules_hash_cache w1 = rules_hash_cache (snd (check_rule_files_changes w)) ->
  fst (check_rule_files_changes w1) = [].
Proof.
  intros Hfs Hrf Hc. apply elem_of_nil_inv. intros q Hq.
  apply check_rule_files_changes_spec in Hq as (Hin & old & Ho & Hne).
  rewrite (calculate_file_hash_fs w1 w q Hfs) in Hne. rewrite Hrf in Hin.
  rewrite Hc, check_rule_files_changes_eq in Ho.
  cbn [snd rules_hash_cache with_rules_hash_cache] in Ho.
  rewrite (rule_fold_cache w _ _ _ q Hin) in Ho.
  destruct (rules_hash_cache w !! q).
  - injection Ho as <-. contradiction.
  - destruct (truthy (calculate_file_hash w q)); [|discriminate].
    injection Ho as <-. contradiction.
Qed.

Lemma project_scan_quiet (w1 w : world) :
  fs w1 = fs w ->
  project_files_hash_cache w1
  = project_files_hash_cache (snd (check_project_files_changes w)) ->
  fst (check_project_files_changes w1) = [].
Proof.
  intros Hfs Hc. apply elem_of_nil_inv. intros q Hq.
  apply check_project_files_changes_spec in Hq as (Hin & old & Ho & Hne & _).
  rewrite (calculate_file_hash_fs w1 w q Hfs) in Hne.
  rewrite (scan_project_files_fs w1 w Hfs) in Hin.
  rewrite Hc, (check_project_files_changes_cache w q Hin) in Ho.
  destruct (project_files_hash_cache w !! q).
  - injection Ho as <-. contradiction.
  - destruct (truthy (calculate_file_hash w q)); [|discriminate].
    injection Ho as <-. contradiction.
Qed.

Lemma cycle_candidates_frame (w : world) :
  let w1 := snd (cycle_candidates w) in
  fs w1 = fs w /\ now w1 = now w /\ variables w1 = variables w
  /\ rule_files w1 = rule_files w /\ conflict_log w1 = conflict_log w
  /\ rules_hash_cache w1 = rules_hash_cache (snd (check_rule_files_changes w))
  /\ project_files_hash_cache w1
     = project_files_hash_cache (snd (check_project_files_changes w)).
Proof.
  cbv zeta. rewrite cycle_candidates_eq. cbn [snd].
  rewrite check_rule_files_changes_eq. cbn [snd]. repeat split.
Qed.

Lemma second_cycle_quiet (w : world) :
  fst (cycle_candidates (snd (cycle_candidates w))) = [].
Proof.
  destruct (cycle_candidates_frame w) as (Hfs & _ & _ & Hrf & _ & Hrc & Hpc).
  rewrite (cycle_candidates_eq (snd (cycle_candidates w))). cbn [fst].
  rewrite (rule_scan_quiet _ w Hfs Hrf Hrc), (project_scan_quiet _ w Hfs Hpc).
  reflexivity.
Qed.

Lemma run_monitor_cycle_eq (w : world) :
  run_monitor_cycle w =
  (let files_to_process := fst (cycle_candidates w) in
   let w2 := snd (cycle_candidates w) in
   if not_nil files_to_process && should_execute_evolution w2 then
     let r := process_files_for_compliance w2 files_to_process in
     if (snd (fst r) <? fst (fst r))%nat
     then add_files_to_todo (snd r) files_to_process else snd r
   else w2).
Proof.
  unfold run_monitor_cycle. destruct (cycle_candidates w) as [c w2]. cbn [fst snd].
  destruct (not_nil c && should_execute_evolution w2); [|reflexivity].
  destruct (process_files_for_compliance w2 c) as [[tc tu] w3]. reflexivity.
Qed.

Lemma should_execute_evolution_frame (w1 w : world) :
  fs w1 = fs w -> now w1 = now w -> variables w1 = variables w ->
  should_execute_evolution w1 = should_execute_evolution w.
Proof.
  intros Hfs Hn Hv. rewrite !should_execute_evolution_eq.
  rewrite (get_project_mode_variables w w1 Hv). unfold is_user_active.
  now rewrite Hfs, Hn.
Qed.

(** X20.  A change is consumed by the cycle that detects it.  When the cycle
    detects nothing, or the gate is closed because the user is active outside
    'devP', the cycle only updates the two fingerprint stores: no file is
    checked, repaired or enqueued, nothing is logged, and the next cycle over
    the same files detects nothing, so the change is never acted upon. *)
Theorem gated_change_is_dropped (w : world) :
  fst (cycle_candidates w) = [] \/ should_execute_evolution w = false ->
  run_monitor_cycle w = snd (cycle_candidates w)
  /\ fs (run_monitor_cycle w) = fs w
  /\ now (run_monitor_cycle w) = now w
  /\ conflict_log (run_monitor_cycle w) = conflict_log w
  /\ fst (cycle_candidates (run_monitor_cycle w)) = [].
Proof.
  intros Hq.
  destruct (cycle_candidates_frame w) as (Hfs & Hn & Hv & _ & Hl & _).
  assert (E : run_monitor_cycle w = snd (cycle_candidates w)).
  { rewrite run_monitor_cycle_eq. cbv zeta.
    rewrite (should_execute_evolution_frame _ w Hfs Hn Hv).
    destruct Hq as [-> | ->]; [reflexivity | now rewrite andb_false_r]. }
  rewrite E. split; [reflexivity|]. split; [exact Hfs|]. split; [exact Hn|].
  split; [exact Hl | apply second_cycle_quiet].
Qed.

(** ** Start of monitoring *)

Lemma init_fold_lookup (w : world) (l : list Path) :
  forall (cache : gmap string (option string)) (q : Path),
  fold_left (init_cache_step w) l cache !! q
  = if bool_decide (q ∈ l) && truthy (calculate_file_hash w q)
    then Some (calculate_file_hash w q) else cache !! q.
Proof.
  induction l as [|a l IH]; intros cache q.
  { cbn [fold_left]. rewrite bool_decide_eq_false_2 by apply not_elem_of_nil. reflexivity. }
  cbn [fold_left]. rewrite IH. unfold init_cache_step.
  destruct (bool_decide_reflect (q ∈ l)) as [Hl|Hl].
  - rewrite (bool_decide_eq_true_2 (q ∈ a :: l)) by now right. cbn [andb].
    destruct (truthy (calculate_file_hash w q)) eqn:Et; [reflexivity|].
    destruct (truthy (calculate_file_hash w a)) eqn:Eta; [|reflexivity].
    rewrite lookup_insert_ne; [reflexivity|]. intros ->. congruence.
  - cbn [andb]. destruct (decide (q = a)) as [->|Hqa].
    + rewrite (bool_decide_eq_true_2 (a ∈ a :: l)) by now left. cbn [andb].
      destruct (truthy (calculate_file_hash w a)); [now rewrite lookup_insert_eq | reflexivity].
    + rewrite (bool_decide_eq_false_2 (q ∈ a :: l)).
      2:{ intros Hin. apply elem_of_cons in Hin as [?|?]; contradiction. }
      cbn [andb]. destruct (truthy (calculate_file_hash w a)); [|reflexivity].
      now rewrite lookup_insert_ne by congruence.
Qed.

Lemma rule_fold_stable (w : world) (l : list Path) :
  forall (changed : list Path) (cache : gmap string (option string)),
  (forall q : Path, q ∈ l ->
     cache !! q = Some (calculate_file_hash w q)
     \/ (cache !! q = None /\ truthy (calculate_file_hash w q) = false)) ->
  fold_left (rule_change_step w) l (changed, cache) = (changed, cache).
Proof.
  induction l as [|a l IH]; intros changed cache Hall; [reflexivity|].
  cbn [fold_left].
  assert (Es : rule_change_step w (changed, cache) a = (changed, cache)).
  { unfold rule_change_step. destruct (Hall a) as [E|[E Et]]; [now left| |].
    - rewrite E. now rewrite bool_decide_eq_false_2 by (intros Hne; now apply Hne).
    - now rewrite E, Et. }
  rewrite Es. apply IH. intros q Hq. apply Hall. now right.
Qed.

Lemma project_fold_stable (w : world) (l : list Path) :
  forall (changed : list Path) (cache : gmap string (option string)),
  (forall q : Path, q ∈ l ->
     cache !! q = Some (calculate_file_hash w q)
     \/ (cache !! q = None /\ truthy (calculate_file_hash w q) = false)) ->
  fold_left (project_change_step w) l (changed, cache) = (changed, cache).
Proof.
  induction l as [|a l IH]; intros changed cache Hall; [reflexivity|].
  cbn [fold_left].
  assert (Es : project_change_step w (changed, cache) a = (changed, cache)).
  { unfold project_change_step. destruct (Hall a) as [E|[E Et]]; [now left| |].
    - rewrite E. now rewrite bool_decide_eq_false_2 by (intros Hne; now apply Hne).
    - now rewrite E, Et. }
  rewrite Es. apply IH. intros q Hq. apply Hall. now right.
Qed.

Lemma init_fold_settled (w : world) (l : list Path) (q : Path) :
  q ∈ l ->
  fold_left (init_cache_step w) l ∅ !! q = Some (calculate_file_hash w q)
  \/ (fold_left (init_cache_step w) l ∅ !! q = None
      /\ truthy (calculate_file_hash w q) = false).
Proof.
  intros Hin. rewrite init_fold_lookup, (bool_decide_eq_true_2 _ Hin). cbn [andb].
  destruct (truthy (calculate_file_hash w q)); [now left | right].
  now rewrite lookup_empty.
Qed.

(** X21.  Monitoring starts from the state it finds.  With the empty stores
    the constructor leaves, the two initialisation loops of [start_monitoring]
    fingerprint every readable rule and project file, and the first cycle that
    follows is a no-op on the whole state: files that are out of compliance when
    monitoring starts are not looked at until they, or a rule file, change. *)
Theorem first_cycle_after_initialisation (w : world) :
  rules_hash_cache w = ∅ -> project_files_hash_cache w = ∅ ->
  start_monitoring_prologue w = init_hash_caches w
  /\ fs (init_hash_caches w) = fs w
  /\ (forall q : Path,
        project_files_hash_cache (init_hash_caches w) !! q
        = if bool_decide (q ∈ scan_project_files w)
          then (fun h => Some h) <$> calculate_file_hash w q else None).
Proof.
  intros Hr Hp.
  set (rc := fold_left (init_cache_step w) (rule_files w) ∅).
  set (pc := fold_left (init_cache_step w) (scan_project_files w) ∅).
  assert (E0 : init_hash_caches w
               = with_project_files_hash_cache pc (with_rules_hash_cache rc w)).
  { unfold init_hash_caches. cbv zeta. rewrite Hr.
    cbn [project_files_hash_cache with_rules_hash_cache]. rewrite Hp. reflexivity. }
  assert (Erule : check_rule_files_changes (init_hash_caches w) = ([], init_hash_caches w)).
  { rewrite check_rule_files_changes_eq, E0.
    cbn [rule_files rules_hash_cache with_project_files_hash_cache with_rules_hash_cache].
    rewrite (rule_fold_stable _ (rule_files w) [] rc).
    - reflexivity.
    - intros q Hq. exact (init_fold_settled w _ q Hq). }
  assert (Eproj : check_project_files_changes (init_hash_caches w)
                  = ([], init_hash_caches w)).
  { rewrite check_project_files_changes_eq, E0. unfold detect_project_changes.
    change (scan_project_files (with_project_files_hash_cache pc (with_rules_hash_cache rc w)))
      with (scan_project_files w).
    cbn [project_files_hash_cache with_project_files_hash_cache].
    rewrite (project_fold_stable _ (scan_project_files w) [] pc).
    - reflexivity.
    - intros q Hq. exact (init_fold_settled w _ q Hq). }
  split; [|split].
  - unfold start_monitoring_prologue. rewrite run_monitor_cycle_eq. cbv zeta.
    rewrite cycle_candidates_eq, Erule, Eproj. cbn [fst snd not_nil andb].
    rewrite E0. reflexivity.
  - rewrite E0. reflexivity.
  - intros q. rewrite E0. cbn [project_files_hash_cache with_project_files_hash_cache].
    unfold pc. rewrite init_fold_lookup, lookup_empty.
    destruct (bool_decide (q ∈ scan_project_files w)); [|reflexivity]. cbn [andb].
    destruct (calculate_file_hash w q) as [h|] eqn:Eh; [|reflexivity].
    assert (Ht : truthy (Some h) = true).
    { rewrite <- Eh. apply truthy_calculate_file_hash. congruence. }
    now rewrite Ht.
Qed.

(** ** Recording user activity *)

(** X22.  Recording activity pauses the evolution for five minutes and no
    longer: once the activity file has been written, the user counts as active
    for the next 300 seconds exactly, and over that time the gate is open in
    'devP' only. *)
Theorem user_activity_pauses_evolution (w : world) (d : Z) :
  (forall f : file, fs w !! user_activity_file = Some f -> f_data f <> None) ->
  let w' := sleep d (update_user_activity w) in
  is_user_active w' = (d <? 300000)
  /\ should_execute_evolution w'
     = (String.eqb (get_project_mode w) "devP" || (300000 <=? d)).
Proof.
  intros Hopen. cbv zeta.
  assert (E : update_user_activity w
              = write_text user_activity_file ("Last activity: " ++ isoformat (now w)) w).
  { unfold update_user_activity.
    destruct (fs w !! user_activity_file) as [[[data|] mt]|] eqn:Ef; try reflexivity.
    now destruct (Hopen _ eq_refl). }
  rewrite E.
  assert (Ha : is_user_active
                 (sleep d (write_text user_activity_file
                             ("Last activity: " ++ isoformat (now w)) w))
               = (d <? 300000)).
  { unfold is_user_active, sleep, write_text. cbn [fs now with_fs with_now].
    rewrite lookup_insert_eq. cbn [f_mtime]. f_equal. lia. }
  split; [exact Ha|].
  rewrite should_execute_evolution_eq, Ha.
  rewrite (get_project_mode_variables w
             (sleep d (write_text user_activity_file
                         ("Last activity: " ++ isoformat (now w)) w)) eq_refl).
  destruct (String.eqb (get_project_mode w) "devP"); [reflexivity|].
  cbn [orb]. symmetry. apply Z.leb_antisym.
Qed.

(** ** Reading back what an enqueue wrote *)

Lemma rev_String (a : ascii) (s : string) : rev (String a s) = rev s ++ String a "".
Proof. unfold rev at 1. cbn [rev_acc]. apply rev_acc_spec. Qed.

Lemma rev_app (u v : string) : rev (u ++ v) = rev v ++ rev u.
Proof. unfold rev at 1. rewrite rev_acc_app, rev_acc_spec. fold (rev u). reflexivity. Qed.

Lemma rev_involutive (s : string) : rev (rev s) = s.
Proof.
  induction s as [|a s IH]; [reflexivity|].
  rewrite rev_String, rev_app, IH. reflexivity.
Qed.

Lemma is_code_eqb (n : N) (a : ascii) :
  (n < 256)%N -> is_code n a = Ascii.eqb (ascii_of_N n) a.
Proof.
  intros Hn. unfold is_code, code.
  destruct (Ascii.eqb_spec (ascii_of_N n) a) as [<-|Hne].
  - rewrite N_ascii_embedding by exact Hn. apply N.eqb_refl.
  - apply N.eqb_neq. intros E. apply Hne. rewrite <- E. apply ascii_N_embedding.
Qed.

Lemma contains1_cons (c a : ascii) (s : string) :
  contains (String c "") (String a s) = Ascii.eqb c a || contains (String c "") s.
Proof. cbn [contains startswith]. now destruct (Ascii.eqb c a). Qed.

Lemma contains1_app (c : ascii) (u v : string) :
  contains (String c "") (u ++ v) = contains (String c "") u || contains (String c "") v.
Proof.
  induction u as [|a u IH].
  - change ("" ++ v) with v. cbn [contains startswith]. reflexivity.
  - rewrite app_String, !contains1_cons, IH. now rewrite orb_assoc.
Qed.

Lemma universal_newlines_app_clean (u v : string) :
  contains CR u = false ->
  universal_newlines (u ++ v) = u ++ universal_newlines v.
Proof.
  induction u as [|a u IH]; intros Hc; [reflexivity|].
  unfold CR in Hc. rewrite contains1_cons in Hc. apply orb_false_iff in Hc as [Ha Hu].
  rewrite app_String. cbn [universal_newlines].
  rewrite (is_code_eqb 13 a) by reflexivity. rewrite Ha.
  now rewrite (IH Hu).
Qed.

Lemma universal_newlines_prefix (n : nat) :
  forall (A y : string), (String.length A <= n)%nat ->
  exists A' : string,
    universal_newlines (A ++ LF ++ y) = A' ++ LF ++ universal_newlines y.
Proof.
  induction n as [|n IH]; intros A y Hlen.
  - destruct A; [|cbn in Hlen; lia]. exists "". reflexivity.
  - destruct A as [|a r]; [exists ""; reflexivity|].
    rewrite app_String. cbn [universal_newlines].
    destruct (is_code 13 a).
    + destruct r as [|b r2].
      * exists "". reflexivity.
      * rewrite app_String. destruct (is_code 10 b).
        -- destruct (IH r2 y) as [A' E]; [cbn in Hlen |- *; lia|].
           exists (String b A'). now rewrite E.
        -- destruct (IH (String b r2) y) as [A' E]; [cbn in Hlen |- *; lia|].
           rewrite app_String in E.
           exists (String (ascii_of_N 10) A'). now rewrite E.
    + destruct (IH r y) as [A' E]; [cbn in Hlen |- *; lia|].
      exists (String a A'). now rewrite E.
Qed.

Lemma readlines_acc_prefix (A b : string) :
  forall cur : string, exists ls : list string,
    readlines_acc (A ++ LF ++ b) cur = (ls ++ readlines b)%list.
Proof.
  induction A as [|a A IH]; intros cur.
  - exists [rev (String (ascii_of_N 10) cur)]. reflexivity.
  - rewrite app_String. cbn [readlines_acc]. destruct (is_code 10 a).
    + destruct (IH "") as [ls E]. exists (rev (String a cur) :: ls). now rewrite E.
    + apply IH.
Qed.

Lemma readlines_acc_first (v : string) :
  forall cur : string, nonempty cur = true ->
  exists (r1 : string) (ls : list string), readlines_acc v cur = (rev cur ++ r1) :: ls.
Proof.
  induction v as [|a r IH]; intros cur Hc.
  - cbn [readlines_acc]. rewrite Hc. exists "", []. now rewrite append_empty_r.
  - cbn [readlines_acc]. destruct (is_code 10 a).
    + exists (String a ""), (readlines_acc r ""). now rewrite rev_String.
    + destruct (IH (String a cur) eq_refl) as (r1 & ls & E).
      exists (String a r1), ls. rewrite E, rev_String, append_assoc. reflexivity.
Qed.

Lemma readlines_acc_first_line (u v : string) :
  contains LF u = false ->
  forall cur : string, nonempty cur = true ->
  exists (r1 : string) (ls : list string),
    readlines_acc (u ++ v) cur = (rev cur ++ u ++ r1) :: ls.
Proof.
  induction u as [|a u IH]; intros Hc cur Hn.
  - exact (readlines_acc_first v cur Hn).
  - unfold LF in Hc. rewrite contains1_cons in Hc. apply orb_false_iff in Hc as [Ha Hu].
    rewrite app_String. cbn [readlines_acc].
    rewrite (is_code_eqb 10 a) by reflexivity. rewrite Ha.
    destruct (IH Hu (String a cur) eq_refl) as (r1 & ls & E).
    exists r1, ls. rewrite E, rev_String, append_assoc. reflexivity.
Qed.

Lemma ascii_plain_facts (a : ascii) :
  ascii_plain a = true ->
  is_space1 a = false /\ (forall k : N, (128 <= k)%N -> is_code k a = false)
  /\ (128 <=? code a)%N = false.
Proof.
  unfold ascii_plain. rewrite andb_true_iff, negb_true_iff, N.ltb_lt. intros [Hlt Hs].
  split; [exact Hs|]. split.
  - intros k Hk. unfold is_code. apply N.eqb_neq. lia.
  - apply N.leb_gt. exact Hlt.
Qed.

Lemma strip_loop_rev_keeps (a : ascii) (v : string) (fuel : nat) :
  ascii_plain a = true ->
  forall u : string, exists u' : string,
    strip_loop space_width_rev fuel (u ++ String a v) = u' ++ String a v.
Proof.
  intros Hp. destruct (ascii_plain_facts a Hp) as (H1 & Hhi & Hlo).
  assert (F2 : forall b, is_space2 b a = false).
  { intros b. unfold is_space2. rewrite !Hhi by lia. now rewrite andb_false_r. }
  assert (F2' : forall x, is_space2 a x = false).
  { intros x. unfold is_space2. now rewrite Hhi by lia. }
  assert (F3 : forall c b, is_space3 c b a = false).
  { intros c b. unfold is_space3. rewrite Hlo. rewrite !Hhi by lia.
    now rewrite ?andb_false_r, ?orb_false_r. }
  assert (F3' : forall c x, is_space3 c a x = false).
  { intros c x. unfold is_space3. rewrite !Hhi by lia.
    now rewrite ?andb_false_r, ?andb_false_l, ?orb_false_r. }
  assert (F3'' : forall b x, is_space3 a b x = false).
  { intros b x. unfold is_space3. now rewrite !Hhi by lia. }
  induction fuel as [|fuel IH]; intros u; [now exists u|].
  cbn [strip_loop].
  destruct u as [|x [|y [|z u]]]; rewrite ?app_String.
  - change ("" ++ String a v) with (String a v).
    unfold space_width_rev. rewrite H1.
    destruct v as [|b [|c v]]; rewrite ?F2, ?F3; now exists "".
  - change ("" ++ String a v) with (String a v).
    unfold space_width_rev. destruct (is_space1 x).
    + cbn [drop]. apply (IH "").
    + rewrite F2'. destruct v as [|c v]; rewrite ?F3'; now exists (String x "").
  - change ("" ++ String a v) with (String a v).
    unfold space_width_rev. destruct (is_space1 x).
    + cbn [drop]. apply (IH (String y "")).
    + destruct (is_space2 y x).
      * cbn [drop]. apply (IH "").
      * rewrite F3''. now exists (String x (String y "")).
  - unfold space_width_rev. destruct (is_space1 x).
    + cbn [drop]. apply (IH (String y (String z u))).
    + destruct (is_space2 y x).
      * cbn [drop]. apply (IH (String z u)).
      * destruct (is_space3 z y x).
        -- cbn [drop]. apply (IH u).
        -- now exists (String x (String y (String z u))).
Qed.

(** [rstrip] removes nothing at or before a plain ASCII byte. *)
Lemma rstrip_keeps (X R : string) (a : ascii) :
  ascii_plain a = true ->
  exists R' : string, rstrip (X ++ String a R) = X ++ String a R'.
Proof.
  intros Hp. unfold rstrip.
  rewrite rev_app, rev_String, append_assoc. change (String a "" ++ rev X) with (String a (rev X)).
  destruct (strip_loop_rev_keeps a (rev X) (String.length (X ++ String a R)) Hp (rev R))
    as [u' E].
  rewrite E. exists (rev u').
  rewrite rev_app, rev_String, rev_involutive, append_assoc. reflexivity.
Qed.

Lemma split1_head_app (p R : string) :
  contains "|" p = false -> split1_head "|" (p ++ String "|" R) = p.
Proof.
  induction p as [|a p IH]; intros Hc; [reflexivity|].
  rewrite contains1_cons in Hc. apply orb_false_iff in Hc as [Ha Hp].
  rewrite app_String. cbn [split1_head].
  rewrite Ascii.eqb_sym, Ha. now rewrite (IH Hp).
Qed.

Lemma ledger_safe_facts (p : string) :
  ledger_safe p = true ->
  exists (a : ascii) (p' : string),
    p = String a p' /\ plain_head a = true /\ a <> "#"%char
    /\ contains "|" p = false /\ contains LF p = false /\ contains CR p = false
    /\ strip p = p.
Proof.
  unfold ledger_safe. rewrite !andb_true_iff, !negb_true_iff, String.eqb_eq.
  intros ((((Hh & Hb) & Hl) & Hc) & Hs).
  destruct p as [|a p']; [discriminate|].
  apply andb_true_iff in Hh as [Hp Hn]. apply negb_true_iff in Hn.
  exists a, p'. repeat split; try assumption.
  intros ->. discriminate.
Qed.

Lemma strip_keeps_line (a : ascii) (p' R : string) :
  plain_head a = true ->
  exists R' : string,
    strip (String a p' ++ String "|" R) = String a p' ++ String "|" R'.
Proof.
  intros Hp. unfold strip. rewrite app_String, lstrip_plain by exact Hp.
  rewrite <- app_String. now apply rstrip_keeps.
Qed.

(** The key of a ledger line that starts with a safe path and a separator
    is that path, whatever follows. *)
Lemma ledger_key_of_line (p R : string) :
  ledger_safe p = true -> ledger_key (p ++ String "|" R) = Some p.
Proof.
  intros Hs. destruct (ledger_safe_facts p Hs) as (a & p' & -> & Hp & Hn & Hb & _ & _ & Hst).
  unfold ledger_key. cbv zeta.
  destruct (strip_keeps_line a p' R Hp) as [R' ->].
  rewrite (split1_head_app _ R' Hb), Hst.
  rewrite app_String. cbn [nonempty startswith andb].
  destruct (Ascii.eqb_spec "#" a) as [E|_]; [now subst a | reflexivity].
Qed.

(** A line that follows a line break and starts with a safe path and a
    separator is read back as an entry for that path. *)
Lemma listed_of_line (A B p : string) :
  ledger_safe p = true ->
  p ∈ existing_files_of (universal_newlines (A ++ LF ++ p ++ String "|" B)).
Proof.
  intros Hs. destruct (ledger_safe_facts p Hs) as (a & p' & Ep & Hp & Hn & Hb & Hl & Hc & _).
  destruct (universal_newlines_prefix (String.length A) A (p ++ String "|" B) (le_n _))
    as [A' E].
  rewrite E, (universal_newlines_app_clean p _ Hc).
  change (universal_newlines (String "|" B)) with (String "|" (universal_newlines B)).
  unfold existing_files_of, readlines.
  destruct (readlines_acc_prefix A' (p ++ String "|" (universal_newlines B)) "") as [ls ->].
  apply elem_of_list_to_set, list_elem_of_omap.
  assert (Hline : exists (r1 : string) (ls' : list string),
            readlines (p ++ String "|" (universal_newlines B))
            = (p ++ String "|" r1) :: ls').
  { subst p. unfold readlines. rewrite app_String. cbn [readlines_acc].
    unfold LF in Hl. rewrite contains1_cons in Hl. apply orb_false_iff in Hl as [Ha Hl].
    rewrite (is_code_eqb 10 a) by reflexivity. rewrite Ha.
    destruct (readlines_acc_first_line (p' ++ String "|" "") (universal_newlines B))
      with (cur := String a "") as (r1 & ls' & E1).
    - unfold LF. rewrite contains1_app, Hl. reflexivity.
    - reflexivity.
    - exists r1, ls'. rewrite append_assoc in E1.
      change (String "|" "" ++ universal_newlines B)
        with (String "|" (universal_newlines B)) in E1.
      rewrite E1. rewrite append_assoc. reflexivity. }
  destruct Hline as (r1 & ls' & El).
  exists (p ++ String "|" r1). split.
  - rewrite El. apply elem_of_app. right. now left.
  - now apply ledger_key_of_line.
Qed.

Lemma concat_empty_cons (x : string) (xs : list string) :
  String.concat "" (x :: xs) = x ++ String.concat "" xs.
Proof. destruct xs as [|y ys]; [now rewrite append_empty_r | reflexivity]. Qed.

Lemma ledger_lines_split (item : string) (items : list string) :
  item ∈ items ->
  forall pre : string, exists A B : string,
    pre ++ LF ++ String.concat "" (map (fun item => item ++ LF) items)
    = A ++ LF ++ item ++ B.
Proof.
  induction items as [|x xs IH]; intros Hin pre.
  - now apply elem_of_nil in Hin.
  - cbn [map]. rewrite concat_empty_cons.
    apply elem_of_cons in Hin as [->|Hin].
    + exists pre, (LF ++ String.concat "" (map (fun item => item ++ LF) xs)).
      now rewrite !append_assoc.
    + destruct (IH Hin (pre ++ LF ++ x)) as (A & B & E).
      exists A, B. rewrite <- E. now rewrite !append_assoc.
Qed.

(** X25.  What an enqueue writes for a ledger-safe path is read back as that
    path: once its line is among the lines written, the path is found in the
    ledger, and a later enqueue of the path on any state with that ledger is a
    no-op. *)
Theorem enqueued_path_is_listed (w : world) (files : list Path) (old : string)
    (p : Path) (rest : string) :
  ledger_data w = Some old ->
  ledger_safe p = true ->
  p ++ "|" ++ rest ∈ fst (fst (todo_loop (existing_files_of (universal_newlines old)) files w)) ->
  exists new : string,
    ledger_data (add_files_to_todo w files) = Some new
    /\ p ∈ existing_files_of (universal_newlines new)
    /\ (forall w2 : world, ledger_data w2 = Some new -> add_files_to_todo w2 [p] = w2).
Proof.
  intros Hold Hs Hin.
  set (items := fst (fst (todo_loop (existing_files_of (universal_newlines old)) files w)))
    in *.
  assert (Hnew : ledger_data (add_files_to_todo w files) = Some (old ++ ledger_block items)).
  { rewrite (add_files_to_todo_eq w files old Hold). cbv zeta. fold items.
    destruct items as [|i0 items']; [now apply elem_of_nil in Hin|].
    cbn [not_nil]. unfold ledger_data, write_text. cbn [fs with_fs].
    now rewrite lookup_insert_eq. }
  exists (old ++ ledger_block items). split; [exact Hnew|].
  assert (Hl : p ∈ existing_files_of (universal_newlines (old ++ ledger_block items))).
  { unfold ledger_block, todo_header.
    destruct (ledger_lines_split _ items Hin (old ++ "# 待处理文件路径|优先级|添加时间"))
      as (A & B & E).
    rewrite !append_assoc in E. rewrite !append_assoc, E.
    change ("|" ++ rest) with (String "|" rest).
    replace (A ++ LF ++ (p ++ String "|" rest) ++ B)
      with (A ++ LF ++ p ++ String "|" (rest ++ B)).
    - now apply listed_of_line.
    - rewrite (append_assoc p). reflexivity. }
  split; [exact Hl|].
  intros w2 Hw2. exact (enqueue_known_path w2 p _ Hw2 Hl).
Qed.

(** ** The monitor's own files *)

Lemma split_not_nil (sep : ascii) (s : string) : split sep s <> [].
Proof.
  induction s as [|a s IH]; [discriminate|].
  cbn [split]. destruct (Ascii.eqb a sep); [discriminate|].
  destruct (split sep s); [contradiction | discriminate].
Qed.

(** Splitting a text that ends with a separator-free text. *)
Lemma split_app_last (sep : ascii) (u v : string) :
  contains (String sep "") v = false ->
  split sep (u ++ v)
  = (removelast (split sep u) ++ [(List.last (split sep u) "" ++ v)%string])%list.
Proof.
  intros Hv. induction u as [|a u IH].
  - change ("" ++ v) with v. cbn [split removelast List.last app].
    change ("" ++ v) with v.
    clear - Hv. induction v as [|b v IHv]; [reflexivity|].
    rewrite contains1_cons in Hv. apply orb_false_iff in Hv as [Hb Hv].
    cbn [split]. rewrite Ascii.eqb_sym, Hb, (IHv Hv). reflexivity.
  - rewrite app_String. cbn [split]. rewrite IH.
    pose proof (split_not_nil sep u) as Hn.
    destruct (Ascii.eqb a sep).
    + destruct (split sep u) as [|x xs]; [contradiction|]. reflexivity.
    + destruct (split sep u) as [|x [|y ys]]; [contradiction | reflexivity | reflexivity].
Qed.

Lemma walk_selects_lock_file (p : Path) :
  walk_selects default_extensions (get_lock_file_path p) = false.
Proof.
  unfold walk_selects, get_lock_file_path, lock_dir.
  replace ((project_root ++ "/.trae/.locks") ++ "/" ++ MD5.hexdigest p ++ ".lock")
    with ((project_root ++ "/") ++ (".trae/.locks/" ++ MD5.hexdigest p) ++ ".lock").
  2:{ rewrite !append_assoc. reflexivity. }
  rewrite strip_prefix_app.
  rewrite (split_app_last "/" (".trae/.locks/" ++ MD5.hexdigest p) ".lock" eq_refl).
  rewrite List.last_last.
  set (name := List.last (split "/" (".trae/.locks/" ++ MD5.hexdigest p)) "").
  assert (E : forall ext : string,
            endswith ext (name ++ ".lock")
            = startswith (rev ext) (String "k" (String "c" (String "o"
                (String "l" (String "." (rev name))))))).
  { intros ext. unfold endswith. now rewrite rev_app. }
  unfold default_extensions. cbn [existsb]. rewrite !E.
  cbn. apply andb_false_r.
Qed.

Lemma walk_selects_activity_file :
  walk_selects default_extensions user_activity_file = false.
Proof.
  unfold walk_selects, user_activity_file.
  change (project_root ++ "/.trae/.user_activity")
    with (project_root ++ "/" ++ ".trae/.user_activity").
  rewrite <- append_assoc, strip_prefix_app. reflexivity.
Qed.

Lemma scan_project_files_selected (w : world) (q : Path) :
  q ∈ scan_project_files w <->
  exists_ w q = true /\ walk_selects default_extensions q = true.
Proof.
  unfold scan_project_files, exists_.
  rewrite list_elem_of_In, List.filter_In, <- list_elem_of_In.
  change (map fst (map_to_list (fs w))) with ((map_to_list (fs w)).*1).
  rewrite list_elem_of_fmap. split.
  - intros [((k & f) & -> & Hin) Hsel]. apply elem_of_map_to_list in Hin.
    cbn [fst]. now rewrite Hin.
  - intros [He Hsel]. split; [|exact Hsel].
    destruct (fs w !! q) as [f|] eqn:Ef; [|discriminate].
    exists (q, f). split; [reflexivity | now apply elem_of_map_to_list].
Qed.

(** X26.  The project population is made of the existing files that the walk
    selects, and the monitor's own lock sentinels and activity file are never
    among them: taking or releasing a lock, or recording user activity, cannot
    show up as a project change. *)
Theorem sentinels_are_not_project_files (w : world) (p : Path) :
  (forall q : Path,
     q ∈ scan_project_files w <->
     exists_ w q = true /\ walk_selects default_extensions q = true)
  /\ (get_lock_file_path p ∉ scan_project_files w)
  /\ (user_activity_file ∉ scan_project_files w)
  /\ (forall (timeout : Z) (q : Path),
        q ∈ scan_project_files (snd (acquire_file_lock w p timeout))
        <-> q ∈ scan_project_files w).
Proof.
  split; [apply scan_project_files_selected|]. split; [|split].
  - intros Hin. apply scan_project_files_selected in Hin as [_ Hs].
    rewrite walk_selects_lock_file in Hs. discriminate.
  - intros Hin. apply scan_project_files_selected in Hin as [_ Hs].
    rewrite walk_selects_activity_file in Hs. discriminate.
  - intros timeout q. rewrite !scan_project_files_selected.
    destruct (decide (q = get_lock_file_path p)) as [->|Hq].
    + rewrite walk_selects_lock_file. split; intros [_ Hs]; discriminate.
    + unfold acquire_file_lock, exists_.
      destruct (acquire_loop_frame (acquire_fuel (timeout * 1000)) (get_lock_file_path p)
                  (now w) (timeout * 1000) w) as (_ & _ & _ & _ & _ & _ & Hfs).
      now rewrite (Hfs q Hq).
Qed.

(** ** The compliance pass while the user is active *)

Lemma dict_set_Forall {V} (P : string * V -> Prop) (key : string) (value : V)
    (d : list (string * V)) :
  (forall k : string, P (k, value)) -> Forall P d -> Forall P (dict_set key value d).
Proof.
  intros Hv. induction 1 as [|[k v] d Hkv Hd IH]; cbn [dict_set].
  - constructor; [apply Hv | constructor].
  - destruct (String.eqb k key); constructor; try assumption. apply Hv.
Qed.

Lemma dict_set_length {V} (key : string) (value : V) (d : list (string * V)) :
  (length d <= length (dict_set key value d) <= S (length d))%nat.
Proof.
  induction d as [|[k v] d IH]; cbn [dict_set length]; [lia|].
  destruct (String.eqb k key); cbn [length]; lia.
Qed.

Lemma compliance_loop_length (files : list Path) :
  forall (results : list (string * Compliance)) (w : world),
  (length (fst (compliance_loop files results w)) <= length results + length files)%nat.
Proof.
  induction files as [|file_path rest IH]; intros results w; cbn [compliance_loop length];
    [cbn; lia|].
  destruct (check_path_conflicts w file_path) as [c reason].
  destruct c.
  - destruct (resolve_path_conflict w file_path reason) as [resolution w1].
    destruct (is_skip resolution).
    + etransitivity; [apply IH|].
      pose proof (dict_set_length file_path
                    {| is_compliant := false; issues := [reason]; update_info := [] |}
                    results). lia.
    + etransitivity; [apply IH|].
      pose proof (dict_set_length file_path (check_file_compliance w1 file_path) results).
      lia.
  - etransitivity; [apply IH|].
    pose proof (dict_set_length file_path (check_file_compliance w file_path) results). lia.
Qed.

Lemma compliance_loop_active (files : list Path) :
  forall (results : list (string * Compliance)) (w : world),
  get_project_mode w <> "devP" -> is_user_active w = true ->
  Forall (fun kv => update_info (snd kv) = []) results ->
  let r := compliance_loop files results w in
  Forall (fun kv => update_info (snd kv) = []) (fst r)
  /\ fs (snd r) = fs w /\ now (snd r) = now w
  /\ project_files_hash_cache (snd r) = project_files_hash_cache w
  /\ length (conflict_log (snd r)) = (length (conflict_log w) + 2 * length files)%nat.
Proof.
  induction files as [|file_path rest IH]; intros results w Hm Ha Hres; cbv zeta.
  { cbn. repeat split; [exact Hres | lia]. }
  cbn [compliance_loop].
  pose proof (check_path_conflicts_active w file_path Hm Ha) as Hc.
  destruct (check_path_conflicts w file_path) as [c reason]. cbn [fst] in Hc. subst c.
  rewrite (resolve_path_conflict_other_modes w file_path reason Hm).
  change (is_skip "proD模式下跳过处理，尊重用户活动") with true. cbv iota.
  set (w1 := log_conflict file_path reason "proD模式下跳过处理，尊重用户活动"
               (log_conflict file_path reason "待处理" w)).
  assert (Hm1 : get_project_mode w1 <> "devP").
  { unfold w1. now rewrite !get_project_mode_logged. }
  assert (Ha1 : is_user_active w1 = true) by exact Ha.
  destruct (IH (dict_set file_path
                  {| is_compliant := false; issues := [reason]; update_info := [] |}
                  results) w1 Hm1 Ha1) as (Hall & Hfs & Hnow & Hpc & Hlog).
  { apply dict_set_Forall; [reflexivity | exact Hres]. }
  split; [exact Hall|]. split; [exact Hfs|]. split; [exact Hnow|]. split; [exact Hpc|].
  rewrite Hlog. unfold w1, log_conflict. cbn [conflict_log with_conflict_log length].
  rewrite !length_app. cbn [length]. lia.
Qed.

Lemma repair_loop_nothing (results : list (string * Compliance)) (n : nat) (w : world) :
  Forall (fun kv => update_info (snd kv) = []) results ->
  repair_loop results n w = (n, w).
Proof.
  induction 1 as [|[k r] results Hr _ IH]; [reflexivity|].
  cbn [repair_loop]. cbn [snd] in Hr. rewrite Hr. cbn [not_nil].
  rewrite andb_false_r. exact IH.
Qed.

(** X27.  The compliance pass holds back while the user is active outside
    'devP': every file is skipped and recorded with the conflict as its one
    issue, no repair is attempted, so no file is updated, and the file system
    and the clock are as before; each file costs two records in the conflict
    log.  In every mode the number of files checked is at most the number of
    files given. *)
Theorem compliance_pass_respects_active_user (w : world) (files : list Path) :
  (fst (fst (process_files_for_compliance w files)) <= length files)%nat
  /\ (get_project_mode w <> "devP" -> is_user_active w = true ->
      snd (fst (process_files_for_compliance w files)) = 0%nat
      /\ fs (snd (process_files_for_compliance w files)) = fs w
      /\ now (snd (process_files_for_compliance w files)) = now w
      /\ length (conflict_log (snd (process_files_for_compliance w files)))
         = (length (conflict_log w) + 2 * length files)%nat).
Proof.
  unfold process_files_for_compliance, check_project_files_compliance.
  pose proof (compliance_loop_length files [] w) as Hlen.
  split.
  - destruct (compliance_loop files [] w) as [results w1]. cbn [fst length] in Hlen.
    destruct (repair_loop results 0 w1) as [updated w2]. cbn [fst]. lia.
  - intros Hm Ha.
    destruct (compliance_loop_active files [] w Hm Ha (List.Forall_nil _))
      as (Hall & Hfs & Hnow & _ & Hlog).
    destruct (compliance_loop files [] w) as [results w1]. cbn [fst snd] in *.
    rewrite (repair_loop_nothing results 0 w1 Hall). cbn [fst snd].
    repeat split; assumption.
Qed.

(** ** Lines of a text *)

Lemma is_code_10 (a : ascii) : is_code 10 a = true -> String a "" = LF.
Proof.
  rewrite (is_code_eqb 10 a) by reflexivity. intros E. apply Ascii.eqb_eq in E.
  now subst a.
Qed.

Lemma readlines_acc_lines_of (s : string) :
  forall cur : string,
  readlines_acc s cur
  = match lines_of s with
    | [] => if nonempty cur then [rev cur] else []
    | l :: ls => (rev cur ++ l) :: ls
    end.
Proof.
  induction s as [|a r IH]; intros cur; [reflexivity|].
  cbn [readlines_acc lines_of]. destruct (is_code 10 a).
  - rewrite (IH ""). rewrite rev_String.
    destruct (lines_of r); reflexivity.
  - rewrite (IH (String a cur)). rewrite rev_String.
    destruct (lines_of r) as [|l ls]; [reflexivity|].
    now rewrite append_assoc.
Qed.

Lemma readlines_lines_of (s : string) : readlines s = lines_of s.
Proof.
  unfold readlines. rewrite readlines_acc_lines_of. now destruct (lines_of s).
Qed.

Lemma concat_empty_app (l1 l2 : list string) :
  String.concat "" (l1 ++ l2) = String.concat "" l1 ++ String.concat "" l2.
Proof.
  induction l1 as [|x l1 IH]; [reflexivity|].
  change ((x :: l1) ++ l2)%list with (x :: (l1 ++ l2))%list.
  now rewrite !concat_empty_cons, IH, append_assoc.
Qed.

Lemma concat_lines_of (s : string) : String.concat "" (lines_of s) = s.
Proof.
  induction s as [|a r IH]; [reflexivity|].
  cbn [lines_of]. destruct (is_code 10 a).
  - now rewrite concat_empty_cons, IH.
  - destruct (lines_of r) as [|l ls].
    + cbn in IH. now subst r.
    + rewrite concat_empty_cons in IH. rewrite concat_empty_cons, app_String. now rewrite IH.
Qed.

(** A line that is followed by another one is complete: it ends with LF,
    and it is a line of whatever text it is put in front of. *)
Lemma lines_of_head (T : string) :
  forall (l : string) (R : list string),
  lines_of T = l :: R -> R <> [] ->
  exists (T' b : string),
    T = l ++ T' /\ lines_of T' = R /\ l = b ++ LF
    /\ (forall Z : string, lines_of (l ++ Z) = l :: lines_of Z).
Proof.
  induction T as [|a r IH]; intros l R Hl HR; [discriminate|].
  cbn [lines_of] in Hl. destruct (is_code 10 a) eqn:Ea.
  - injection Hl as <- <-. exists r, "". repeat split.
    + now apply is_code_10.
    + intros Z. change (String a "" ++ Z) with (String a Z). cbn [lines_of]. now rewrite Ea.
  - destruct (lines_of r) as [|l' ls'] eqn:Er.
    + injection Hl as <- <-. contradiction.
    + injection Hl as <- <-.
      destruct (IH l' ls' eq_refl HR) as (T' & b & -> & Ht & -> & HZ).
      exists T', (String a b). repeat split; try assumption.
      intros Z. rewrite app_String. cbn [lines_of]. rewrite Ea, HZ. reflexivity.
Qed.

Lemma lines_of_split (L1 : list string) :
  forall (T : string) (L2 : list string),
  lines_of T = (L1 ++ L2)%list -> L2 <> [] ->
  (forall Z : string, lines_of (String.concat "" L1 ++ Z) = (L1 ++ lines_of Z)%list)
  /\ T = String.concat "" L1 ++ String.concat "" L2
  /\ lines_of (String.concat "" L2) = L2.
Proof.
  induction L1 as [|l L1 IH]; intros T L2 HT HL2.
  - cbn [app] in HT. split; [reflexivity|].
    rewrite <- HT, concat_lines_of. split; reflexivity.
  - change ((l :: L1) ++ L2)%list with (l :: (L1 ++ L2))%list in HT.
    destruct (lines_of_head T l (L1 ++ L2)%list HT) as (T' & b & -> & Ht & _ & HZ).
    { destruct L1; [exact HL2 | discriminate]. }
    destruct (IH T' L2 Ht HL2) as (HZ' & -> & HL).
    split; [|split].
    + intros Z. rewrite concat_empty_cons, append_assoc, HZ, HZ'. reflexivity.
    + now rewrite concat_empty_cons, append_assoc.
    + exact HL.
Qed.

Lemma lines_of_app_LF (u v : string) :
  lines_of (u ++ LF ++ v) = (lines_of (u ++ LF) ++ lines_of v)%list.
Proof.
  induction u as [|a u IH]; [reflexivity|].
  rewrite !app_String. cbn [lines_of]. destruct (is_code 10 a).
  - now rewrite IH.
  - rewrite IH. destruct (lines_of (u ++ LF)) as [|l ls] eqn:E; [|reflexivity].
    exfalso. apply (f_equal (String.concat "")) in E. rewrite concat_lines_of in E.
    destruct u; discriminate.
Qed.

(** ** Text-mode reads of a text without CR *)

Lemma universal_newlines_clean (n : nat) :
  forall s : string, (String.length s <= n)%nat ->
  contains CR (universal_newlines s) = false.
Proof.
  unfold CR. induction n as [|n IH]; intros s Hlen.
  - destruct s; [reflexivity | cbn in Hlen; lia].
  - destruct s as [|a r]; [reflexivity|].
    cbn [universal_newlines]. destruct (is_code 13 a) eqn:Ea.
    + destruct r as [|b r2]; [reflexivity|].
      destruct (is_code 10 b) eqn:Eb.
      * rewrite contains1_cons, IH by (cbn in Hlen; lia).
        rewrite (is_code_eqb 10 b) in Eb by reflexivity. apply Ascii.eqb_eq in Eb.
        now subst b.
      * rewrite contains1_cons, IH by (cbn in Hlen |- *; lia). reflexivity.
    + rewrite contains1_cons, IH by (cbn in Hlen; lia).
      rewrite (is_code_eqb 13 a) in Ea by reflexivity. now rewrite Ea.
Qed.

Lemma universal_newlines_id (s : string) :
  contains CR s = false -> universal_newlines s = s.
Proof.
  intros Hc. rewrite <- (append_empty_r s) at 1.
  rewrite (universal_newlines_app_clean s "" Hc). apply append_empty_r.
Qed.

(** ** Loading the variables *)

Lemma load_lines_keeps (lines : list string) :
  forall (vars : gmap string string) (k : string),
  vars !! k <> None -> fold_left load_step lines vars !! k <> None.
Proof.
  induction lines as [|line lines IH]; intros vars k Hk; [exact Hk|].
  cbn [fold_left]. apply IH. unfold load_step.
  destruct (parse_var_line line) as [[k' v']|]; [|exact Hk].
  destruct (decide (k' = k)) as [->|Hne];
    [now rewrite lookup_insert_eq | now rewrite lookup_insert_ne].
Qed.

Lemma load_lines_last (X Y : list string) (line k v : string) (vars : gmap string string) :
  parse_var_line line = Some (k, v) ->
  Forall (fun l => forall v' : string, parse_var_line l <> Some (k, v')) Y ->
  fold_left load_step (X ++ line :: Y) vars !! k = Some v.
Proof.
  intros Hline HY. rewrite fold_left_app. cbn [fold_left].
  unfold load_step at 2. rewrite Hline.
  generalize dependent (fold_left load_step X vars). intros m.
  assert (Hm : <[k := v]> m !! k = Some v) by apply lookup_insert_eq.
  generalize dependent (<[k := v]> m). clear m.
  induction HY as [|l Y Hl _ IH]; intros m Hm; [exact Hm|].
  cbn [fold_left]. apply IH. unfold load_step.
  destruct (parse_var_line l) as [[k' v']|] eqn:El; [|exact Hm].
  destruct (decide (k' = k)) as [->|Hne]; [now destruct (Hl v')|].
  now rewrite lookup_insert_ne.
Qed.

(** X28.  Loading the variable file: a variable takes the value of the last
    line of the file that defines it, and the dictionary is updated in place,
    so a variable that the file no longer defines keeps the value it had.  The
    load itself writes nothing. *)
Theorem load_variables_last_definition_wins (w : world) (text : string)
    (X Y : list string) (line k v : string) :
  read_text w project_vars_file = Some text ->
  readlines text = (X ++ line :: Y)%list ->
  parse_var_line line = Some (k, v) ->
  Forall (fun l => forall v' : string, parse_var_line l <> Some (k, v')) Y ->
  fst (load_variables w) = true
  /\ get_variable (snd (load_variables w)) k = Some v
  /\ (forall k' : string,
        get_variable w k' <> None -> get_variable (snd (load_variables w)) k' <> None)
  /\ fs (snd (load_variables w)) = fs w.
Proof.
  intros Hread Hlines Hline HY. unfold load_variables. rewrite Hread. cbn [fst snd].
  unfold get_variable. cbn [variables with_variables fs].
  split; [reflexivity|]. split; [|split; [|reflexivity]].
  - rewrite Hlines. now apply load_lines_last.
  - intros k'. apply load_lines_keeps.
Qed.

(** ** Switching the mode *)

Lemma read_text_clean (w : world) (p : Path) (text : string) :
  read_text w p = Some text -> contains CR text = false.
Proof.
  unfold read_text. destruct (fs w !! p) as [[[data|] mt]|]; try discriminate.
  cbn. intros [= <-]. exact (universal_newlines_clean _ data (le_n _)).
Qed.

Lemma replace_first_spec (new_line : string) (lines : list string) :
  forall lines' : list string,
  replace_first new_line lines = Some lines' ->
  exists (pre : list string) (m : string) (post : list string),
    lines = (pre ++ m :: post)%list /\ lines' = (pre ++ new_line :: post)%list
    /\ lines_after_match lines = post.
Proof.
  induction lines as [|line rest IH]; intros lines' Hr; [discriminate|].
  cbn [replace_first lines_after_match] in *.
  destruct (startswith "PG_ProjectMod|" (strip line)).
  - injection Hr as <-. now exists [], line, rest.
  - destruct (replace_first new_line rest) as [ls|]; [|discriminate].
    cbn in Hr. injection Hr as <-.
    destruct (IH ls eq_refl) as (pre & m & post & -> & -> & Hp).
    now exists (line :: pre), m, post.
Qed.

Lemma project_mod_line_facts (mode : string) :
  mode = "devP" \/ mode = "proD" ->
  parse_var_line (project_mod_line mode) = Some ("PG_ProjectMod", mode ++ "," ++ rule_var_of mode)
  /\ contains CR (project_mod_line mode) = false
  /\ (forall Z : string,
        lines_of (project_mod_line mode ++ Z) = project_mod_line mode :: lines_of Z)
  /\ (forall T : string,
        lines_of (T ++ LF ++ ("# PG_ProjectMod配置参数" ++ LF) ++ project_mod_line mode)
        = (lines_of (T ++ LF)
           ++ [("# PG_ProjectMod配置参数" ++ LF)%string; project_mod_line mode])%list).
Proof.
  intros [-> | ->].
  - split; [vm_compute; reflexivity|]. split; [vm_compute; reflexivity|]. split.
    + intros Z. reflexivity.
    + intros T. rewrite lines_of_app_LF. reflexivity.
  - split; [vm_compute; reflexivity|]. split; [vm_compute; reflexivity|]. split.
    + intros Z. reflexivity.
    + intros T. rewrite lines_of_app_LF. reflexivity.
Qed.

(** What the file holds after the rewrite, as the next load reads it. *)
Lemma switched_lines_read (mode text : string) :
  mode = "devP" \/ mode = "proD" ->
  contains CR text = false ->
  exists X : list string,
    readlines (universal_newlines (String.concat "" (switched_lines mode (readlines text))))
    = (X ++ project_mod_line mode :: lines_after_match (readlines text))%list.
Proof.
  intros Hmode Hclean.
  destruct (project_mod_line_facts mode Hmode) as (_ & Hcr & Hline & Happend).
  rewrite (readlines_lines_of text). unfold switched_lines.
  destruct (replace_first (project_mod_line mode) (lines_of text)) as [lines'|] eqn:Er.
  - destruct (replace_first_spec _ _ _ Er) as (pre & m & post & Hl & -> & ->).
    destruct (lines_of_split pre text (m :: post) Hl ltac:(discriminate))
      as (HZ & Ht & _).
    rewrite concat_empty_cons in Ht.
    assert (Hc : contains CR (String.concat "" pre) = false
                 /\ contains CR (String.concat "" post) = false).
    { rewrite Ht in Hclean. unfold CR in *. rewrite !contains1_app in Hclean.
      apply orb_false_iff in Hclean as [H1 H2]. apply orb_false_iff in H2 as [_ H2].
      now split. }
    destruct Hc as [Hc1 Hc2].
    assert (Hpost : lines_of (String.concat "" post) = post).
    { destruct post as [|p0 post']; [reflexivity|].
      assert (Hl' : lines_of text = ((pre ++ [m]) ++ p0 :: post')%list)
        by now rewrite <- app_assoc.
      now destruct (lines_of_split (pre ++ [m]) text (p0 :: post') Hl' ltac:(discriminate))
        as (_ & _ & Hp). }
    exists pre. rewrite concat_empty_app, concat_empty_cons.
    rewrite universal_newlines_id.
    + rewrite readlines_lines_of, HZ, Hline, Hpost. reflexivity.
    + unfold CR in *. rewrite !contains1_app, Hc1, Hcr, Hc2. reflexivity.
  - assert (Hnone : lines_after_match (lines_of text) = []).
    { clear - Er. induction (lines_of text) as [|line rest IH]; [reflexivity|].
      cbn [replace_first lines_after_match] in *.
      destruct (startswith "PG_ProjectMod|" (strip line)); [discriminate|].
      apply IH. now destruct (replace_first (project_mod_line mode) rest). }
    rewrite Hnone. exists (lines_of (text ++ LF) ++ [("# PG_ProjectMod配置参数" ++ LF)%string])%list.
    rewrite concat_empty_app, concat_lines_of.
    change (String.concat "" [(LF ++ "# PG_ProjectMod配置参数" ++ LF)%string;
                              project_mod_line mode])
      with (LF ++ ("# PG_ProjectMod配置参数" ++ LF) ++ project_mod_line mode).
    rewrite universal_newlines_id.
    + rewrite readlines_lines_of, Happend, <- app_assoc. reflexivity.
    + unfold CR in *. rewrite !contains1_app, Hclean, Hcr. reflexivity.
Qed.

(** X29.  Switching the mode takes effect: for 'devP' or 'proD' and a
    readable variable file in which no line after the first [PG_ProjectMod|]
    line defines that variable again, the call succeeds, touches no other file,
    and leaves [PG_ProjectMod] set to the mode and its rule variable; the mode
    the monitor reads is then the new one, provided the rule variable has a
    value. *)
Theorem switch_project_mode_takes_effect (w : world) (mode text : string) :
  mode = "devP" \/ mode = "proD" ->
  read_text w project_vars_file = Some text ->
  Forall (fun l => forall v : string, parse_var_line l <> Some ("PG_ProjectMod", v))
         (lines_after_match (readlines text)) ->
  let r := switch_project_mode w mode in
  fst r = true
  /\ get_variable (snd r) "PG_ProjectMod" = Some (mode ++ "," ++ rule_var_of mode)
  /\ (truthy (get_variable (snd r) (rule_var_of mode)) = true ->
      get_project_mode (snd r) = mode)
  /\ (forall q : Path, q <> project_vars_file -> fs (snd r) !! q = fs w !! q).
Proof.
  intros Hmode Hread Hlater. cbv zeta.
  destruct (project_mod_line_facts mode Hmode) as (Hparse & _).
  destruct (switched_lines_read mode text Hmode (read_text_clean w _ text Hread))
    as [X HX].
  unfold switch_project_mode. rewrite Hread.
  replace (negb (String.eqb mode "devP" || String.eqb mode "proD")) with false
    by (destruct Hmode as [-> | ->]; reflexivity).
  cbv zeta. unfold load_variables.
  set (text' := String.concat "" (switched_lines mode (readlines text))) in *.
  assert (Hread' : read_text (write_text project_vars_file text' w) project_vars_file
                   = Some (universal_newlines text')).
  { unfold read_text, write_text. cbn [fs with_fs]. now rewrite lookup_insert_eq. }
  rewrite Hread'. cbn [fst snd]. rewrite HX.
  assert (Hvar : fold_left load_step
                   (X ++ project_mod_line mode :: lines_after_match (readlines text))
                   (variables (write_text project_vars_file text' w))
                 !! "PG_ProjectMod" = Some (mode ++ "," ++ rule_var_of mode))
    by now apply load_lines_last.
  split; [reflexivity|]. split; [exact Hvar|]. split.
  - unfold get_project_mode, get_project_mod_config, get_variable.
    cbn [variables with_variables]. rewrite Hvar.
    destruct Hmode as [-> | ->].
    + change (nonempty ("devP" ++ "," ++ rule_var_of "devP")) with true.
      change (split "," ("devP" ++ "," ++ rule_var_of "devP"))
        with ["devP"; "PG_RuleFileName"].
      change (rule_var_of "devP") with "PG_RuleFileName".
      cbv iota beta.
      change (strip "PG_RuleFileName") with "PG_RuleFileName".
      intros ->. reflexivity.
    + change (nonempty ("proD" ++ "," ++ rule_var_of "proD")) with true.
      change (split "," ("proD" ++ "," ++ rule_var_of "proD"))
        with ["proD"; "PG_ProdProjectRuleFileName"].
      change (rule_var_of "proD") with "PG_ProdProjectRuleFileName".
      cbv iota beta.
      change (strip "PG_ProdProjectRuleFileName") with "PG_ProdProjectRuleFileName".
      intros ->. reflexivity.
  - intros q Hq. cbn [fs with_variables write_text with_fs].
    now rewrite lookup_insert_ne by congruence.
Qed.

(** X30.  When the switch does nothing, or less than it says.  For a mode
    name other than 'devP' and 'proD', or a variable file that cannot be read,
    [switch_project_mode] fails and leaves the state as it is.  And a later
    line that defines [PG_ProjectMod] again overrides the line the switch has
    rewritten: the call reports success, yet the variable holds the value of the
    last such line. *)
Theorem switch_project_mode_without_effect (w : world) (mode : string) :
  (mode <> "devP" -> mode <> "proD" -> switch_project_mode w mode = (false, w))
  /\ (read_text w project_vars_file = None -> switch_project_mode w mode = (false, w))
  /\ (forall (text : string) (Y1 Y2 : list string) (line v : string),
        mode = "devP" \/ mode = "proD" ->
        read_text w project_vars_file = Some text ->
        lines_after_match (readlines text) = (Y1 ++ line :: Y2)%list ->
        parse_var_line line = Some ("PG_ProjectMod", v) ->
        Forall (fun l => forall v' : string, parse_var_line l <> Some ("PG_ProjectMod", v'))
               Y2 ->
        fst (switch_project_mode w mode) = true
        /\ get_variable (snd (switch_project_mode w mode)) "PG_ProjectMod" = Some v).
Proof.
  split; [|split].
  - intros Hd Hp. unfold switch_project_mode.
    destruct (String.eqb_spec mode "devP"); [contradiction|].
    destruct (String.eqb_spec mode "proD"); [contradiction|]. reflexivity.
  - intros Hread. unfold switch_project_mode. rewrite Hread.
    now destruct (negb (String.eqb mode "devP" || String.eqb mode "proD")).
  - intros text Y1 Y2 line v Hmode Hread Hlater Hline HY2.
    destruct (switched_lines_read mode text Hmode (read_text_clean w _ text Hread))
      as [X HX].
    unfold switch_project_mode. rewrite Hread.
    replace (negb (String.eqb mode "devP" || String.eqb mode "proD")) with false
      by (destruct Hmode as [-> | ->]; reflexivity).
    cbv zeta. unfold load_variables.
    set (text' := String.concat "" (switched_lines mode (readlines text))) in *.
    assert (Hread' : read_text (write_text project_vars_file text' w) project_vars_file
                     = Some (universal_newlines text')).
    { unfold read_text, write_text. cbn [fs with_fs]. now rewrite lookup_insert_eq. }
    rewrite Hread'. cbn [fst snd]. split; [reflexivity|].
    unfold get_variable. cbn [variables with_variables].
    rewrite HX, Hlater.
    replace (X ++ project_mod_line mode :: Y1 ++ line :: Y2)%list
      with ((X ++ project_mod_line mode :: Y1) ++ line :: Y2)%list
      by (now rewrite <- app_assoc).
    now apply load_lines_last.
Qed.

End Proofs.

(** ** Two concurrent callers *)

Lemma race_clock_step (timeout : Z) (s : Race.state) (a : Race.action) :
  Race.clock s <= Race.clock (Race.step timeout s a).
Proof.
  destruct a as [[|]|d]; cbn.
  - destruct (Race.step_caller timeout Race.A (Race.clock s) (Race.lock s) (Race.callerA s)).
    cbn. lia.
  - destruct (Race.step_caller timeout Race.B (Race.clock s) (Race.lock s) (Race.callerB s)).
    cbn. lia.
  - destruct (Z.ltb_spec 0 d); cbn; lia.
Qed.

Lemma race_clock_run (timeout : Z) (schedule : list Race.action) (s : Race.state) :
  Race.clock s <= Race.clock (Race.run timeout schedule s).
Proof.
  revert s. induction schedule as [|a schedule IH]; intros s; cbn; [lia|].
  etransitivity; [apply (race_clock_step timeout s a) | apply IH].
Qed.

Lemma race_inv_step (timeout n0 : Z) (s : Race.state) (a : Race.action) :
  Race.inv n0 s ->
  Race.clock (Race.step timeout s a) <= n0 + 300000 ->
  Race.inv n0 (Race.step timeout s a).
Proof.
  destruct s as [clk l [pa sa lta wa] [pb sb ltb wb]].
  unfold Race.inv, Race.caller_ok, Race.holds.
  intros (Hclk & Hl & [HuA HaA] & [HuB HaB] & Hheld & Hexcl).
  cbn in Hclk, Hl, HuA, HaA, HuB, HaB, Hheld, Hexcl.
  destruct a as [[|]|d].
  - (* caller A moves *)
    cbn [Race.step Race.callerA Race.callerB Race.clock Race.lock].
    destruct pa; cbn [Race.step_caller Race.at_ Race.goto Race.start_time Race.lock_time Race.wake];
      cbn [Race.clock Race.lock Race.callerA Race.callerB Race.at_ Race.lock_time];
      intros Hbound; try contradiction.
    + repeat split; try assumption; try discriminate; intros; try discriminate; tauto.
    + destruct (clk - sa <? timeout); cbn;
        (repeat split; try assumption; try discriminate; intros; try discriminate; tauto).
    + destruct l as [s0|]; cbn.
      * repeat split; try assumption; try discriminate; intros; try discriminate; tauto.
      * repeat split; try assumption; try discriminate; try lia.
        -- intros l0 E. injection E as <-. cbn. lia.
        -- intros [_ Hb]. destruct Hheld; [now right | reflexivity].
    + assert (Hsome : l <> None) by (apply Hheld; now left).
      destruct l as [s0|]; [|contradiction]. cbn.
      repeat split; try assumption; try discriminate.
      * intros l0 E. destruct (Race.created_by Race.A s0).
        -- injection E as <-. cbn. lia.
        -- now apply Hl.
      * intros _. destruct (Race.created_by Race.A s0); discriminate.
    + destruct l; cbn;
        (repeat split; try assumption; try discriminate; intros; try discriminate; tauto).
    + destruct l as [s0|]; cbn.
      * repeat split; try assumption; try discriminate; try tauto.
        intros _. now apply Hl.
      * repeat split; try assumption; try discriminate; intros; try discriminate; tauto.
    + specialize (HaA eq_refl).
      destruct (Z.gtb_spec (clk - lta) 300000) as [Hgt|Hle]; [lia|]. cbn.
      repeat split; try assumption; try discriminate; intros; try discriminate; tauto.
    + repeat split; try assumption; try discriminate; intros; try discriminate; tauto.
    + destruct (wa <=? clk); cbn;
        (repeat split; try assumption; try discriminate; intros; try discriminate; tauto).
    + repeat split; try assumption; try discriminate; intros; try discriminate; tauto.
  - (* caller B moves *)
    cbn [Race.step Race.callerA Race.callerB Race.clock Race.lock].
    destruct pb; cbn [Race.step_caller Race.at_ Race.goto Race.start_time Race.lock_time Race.wake];
      cbn [Race.clock Race.lock Race.callerA Race.callerB Race.at_ Race.lock_time];
      intros Hbound; try contradiction.
    + repeat split; try assumption; try discriminate; intros; try discriminate; tauto.
    + destruct (clk - sb <? timeout); cbn;
        (repeat split; try assumption; try discriminate; intros; try discriminate; tauto).
    + destruct l as [s0|]; cbn.
      * repeat split; try assumption; try discriminate; intros; try discriminate; tauto.
      * repeat split; try assumption; try discriminate; try lia.
        -- intros l0 E. injection E as <-. cbn. lia.
        -- intros [Ha _]. destruct Hheld; [now left | reflexivity].
    + assert (Hsome : l <> None) by (apply Hheld; now right).
      destruct l as [s0|]; [|contradiction]. cbn.
      repeat split; try assumption; try discriminate.
      * intros l0 E. destruct (Race.created_by Race.B s0).
        -- injection E as <-. cbn. lia.
        -- now apply Hl.
      * intros _. destruct (Race.created_by Race.B s0); discriminate.
    + destruct l; cbn;
        (repeat split; try assumption; try discriminate; intros; try discriminate; tauto).
    + destruct l as [s0|]; cbn.
      * repeat split; try assumption; try discriminate; try tauto.
        intros _. now apply Hl.
      * repeat split; try assumption; try discriminate; intros; try discriminate; tauto.
    + specialize (HaB eq_refl).
      destruct (Z.gtb_spec (clk - ltb) 300000) as [Hgt|Hle]; [lia|]. cbn.
      repeat split; try assumption; try discriminate; intros; try discriminate; tauto.
    + repeat split; try assumption; try discriminate; intros; try discriminate; tauto.
    + destruct (wb <=? clk); cbn;
        (repeat split; try assumption; try discriminate; intros; try discriminate; tauto).
    + repeat split; try assumption; try discriminate; intros; try discriminate; tauto.
  - cbn [Race.step Race.clock Race.lock Race.callerA Race.callerB].
    destruct (Z.ltb_spec 0 d); cbn; intros Hbound;
      (repeat split; try assumption; try lia).
Qed.

Lemma race_inv_run (timeout n0 : Z) (schedule : list Race.action) (s : Race.state) :
  Race.inv n0 s ->
  Race.clock (Race.run timeout schedule s) <= n0 + 300000 ->
  Race.inv n0 (Race.run timeout schedule s).
Proof.
  revert s. induction schedule as [|a schedule IH]; intros s Hinv Hbound; [exact Hinv|].
  cbn in *. apply IH; [|exact Hbound].
  apply race_inv_step; [exact Hinv|].
  etransitivity; [apply (race_clock_run timeout schedule) | exact Hbound].
Qed.

(** X23.  Mutual exclusion where nothing can go stale: from a start without
    a sentinel, on every schedule, the two calls do not both return true before
    the TTL has passed. *)
Lemma race_exclusive_within_ttl (timeout n0 : Z) (schedule : list Race.action) :
  let s := Race.run timeout schedule (Race.initial n0 None) in
  Race.clock s <= n0 + 300000 ->
  ~ (Race.succeeded (Race.callerA s) = true /\ Race.succeeded (Race.callerB s) = true).
Proof.
  intros s Hbound [Ha Hb].
  assert (Hinv : Race.inv n0 s).
  { apply race_inv_run; [|exact Hbound].
    unfold Race.inv, Race.caller_ok, Race.holds. cbn.
    repeat split; try discriminate; try lia.
    all: intros Hh; try discriminate Hh; destruct Hh; discriminate. }
  destruct Hinv as (_ & _ & _ & _ & _ & Hexcl). apply Hexcl.
  unfold Race.succeeded in Ha, Hb. unfold Race.holds.
  destruct (Race.at_ (Race.callerA s)) as [| | | | | | | | | |[|]]; try discriminate.
  destruct (Race.at_ (Race.callerB s)) as [| | | | | | | | | |[|]]; try discriminate.
  now split.
Qed.

(** C7.  The sentinel of the path is 400 s old when two callers call
    [acquire_file_lock] on it with the 5 s timeout.  On the schedule
    [Race.overtaking] both calls return true: the second caller has found the
    old sentinel stale and removes, after the first caller has replaced it,
    the sentinel of the first caller. *)
Theorem stale_sentinel_race :
  let s := Race.run 5000 Race.overtaking
                    (Race.initial 400000 (Some (Race.Sentinel None 0))) in
  Race.succeeded (Race.callerA s) = true
  /\ Race.succeeded (Race.callerB s) = true
  /\ Race.clock s = 400200.
Proof. vm_compute. repeat split. Qed.

(** * The properties on concrete states *)

#[export] Existing Instance PosixUtc.host.

(** Under 'proD' with an active human and a free lock, the conflict is
    resolved by skipping: the lock, which could be had, is never requested. *)
Lemma prod_conflict_never_takes_lock :
  get_project_mode Demo.prod_active = "proD"
  /\ fst (check_path_conflicts Demo.prod_active "/proj/b.py") = true
  /\ fst (acquire_file_lock Demo.prod_active "/proj/b.py" 5) = true
  /\ fst (check_and_resolve Demo.prod_active "/proj/b.py") = SKIPPED
  /\ fs (snd (check_and_resolve Demo.prod_active "/proj/b.py"))
       !! get_lock_file_path "/proj/b.py" = None.
Proof. vm_compute. repeat split. Qed.

Lemma conflict_resolution_by_mode_witness :
  fst (check_path_conflicts Demo.prod_active "/proj/b.py") = true
  /\ fst (check_and_resolve Demo.prod_active "/proj/b.py") = SKIPPED
  /\ fs (snd (check_and_resolve Demo.prod_active "/proj/b.py")) = fs Demo.prod_active.
Proof.
  assert (Hc : fst (check_path_conflicts Demo.prod_active "/proj/b.py") = true)
    by (vm_compute; reflexivity).
  assert (Hm : get_project_mode Demo.prod_active <> "devP") by (vm_compute; discriminate).
  destruct (conflict_resolution_by_mode Demo.prod_active "/proj/b.py" Hc) as [Hother _].
  destruct (Hother Hm) as (Ho & Hfs & _).
  split; [exact Hc | split; [exact Ho | exact Hfs]].
Defined.

(** With the mode source missing and the human active the monitor goes
    ahead, where under 'proD' with the same activity it holds back. *)
Lemma missing_mode_is_not_proD :
  get_project_mod_config Demo.unset_active = None
  /\ is_user_active Demo.unset_active = true
  /\ should_execute_evolution Demo.unset_active = true
  /\ get_project_mode Demo.prod_active = "proD"
  /\ is_user_active Demo.prod_active = true
  /\ should_execute_evolution Demo.prod_active = false.
Proof. vm_compute. repeat split. Qed.

(** A tracked file that cannot be opened is in the changed set. *)
Lemma unreadable_file_reported_changed :
  calculate_file_hash Demo.a_unreadable "/proj/a.py" = None
  /\ project_files_hash_cache Demo.a_unreadable !! "/proj/a.py"
     = Some (Some (MD5.hexdigest "print(1)"))
  /\ fst (check_project_files_changes Demo.a_unreadable) = ["/proj/a.py"].
Proof. vm_compute. repeat split. Qed.

Lemma unreadable_tracked_file_witness :
  "/proj/a.py" ∈ scan_project_files Demo.a_unreadable
  /\ calculate_file_hash Demo.a_unreadable "/proj/a.py" = None
  /\ project_files_hash_cache Demo.a_unreadable !! "/proj/a.py"
     = Some (Some (MD5.hexdigest "print(1)"))
  /\ "/proj/a.py" ∈ fst (check_project_files_changes Demo.a_unreadable)
  /\ project_files_hash_cache (snd (check_project_files_changes Demo.a_unreadable))
       !! "/proj/a.py" = Some None.
Proof.
  assert (Hin : "/proj/a.py" ∈ scan_project_files Demo.a_unreadable).
  { replace (scan_project_files Demo.a_unreadable) with ["/proj/a.py"]
      by (vm_compute; reflexivity).
    constructor. }
  assert (Hh : calculate_file_hash Demo.a_unreadable "/proj/a.py" = None)
    by (vm_compute; reflexivity).
  assert (Hc : project_files_hash_cache Demo.a_unreadable !! "/proj/a.py"
               = Some (Some (MD5.hexdigest "print(1)"))) by (vm_compute; reflexivity).
  destruct (unreadable_tracked_file Demo.a_unreadable "/proj/a.py" _ Hin Hh Hc)
    as (Hiff & Hcache & _).
  split; [exact Hin | split; [exact Hh | split; [exact Hc | split; [|exact Hcache]]]].
  apply Hiff. split; [discriminate | vm_compute; discriminate].
Defined.

Lemma stale_lock_is_healed_witness :
  fs Demo.c_stale !! get_lock_file_path "/proj/c.py"
    = Some (File (Some "锁定时间: 2023-12-31T23:53:20") (Demo.t0 - 400000))
  /\ fst (acquire_file_lock Demo.c_stale "/proj/c.py" 5) = true
  /\ fs (snd (acquire_file_lock Demo.c_stale "/proj/c.py" 5)) !! get_lock_file_path "/proj/c.py"
     = Some (File (Some (lock_note (sleep 100 Demo.c_stale))) (Demo.t0 + 100)).
Proof.
  assert (Hf : fs Demo.c_stale !! get_lock_file_path "/proj/c.py"
               = Some (File (Some "锁定时间: 2023-12-31T23:53:20") (Demo.t0 - 400000)))
    by (vm_compute; reflexivity).
  assert (Ht : 1 <= 5) by lia.
  assert (Hs : now Demo.c_stale
               - f_mtime (File (Some "锁定时间: 2023-12-31T23:53:20") (Demo.t0 - 400000))
               > 300000) by (vm_compute; reflexivity).
  destruct (stale_lock_is_healed Demo.c_stale "/proj/c.py" 5 _ Ht Hf Hs) as [E Hnew].
  split; [exact Hf | split; [now rewrite E | exact Hnew]].
Defined.

(** The ledger has its header and one entry; the next enqueue writes the
    header again. *)
Lemma header_written_again :
  ledger_data Demo.d_listed = Some Demo.d_ledger
  /\ startswith todo_header Demo.d_ledger = true
  /\ ledger_data (add_files_to_todo Demo.d_listed ["/proj/e.py"])
     = Some (Demo.d_ledger ++ todo_header ++ "/proj/e.py|LOW|2024-01-01T00:01:00" ++ LF).
Proof. vm_compute. repeat split. Qed.

Lemma enqueue_appends_block_witness :
  ledger_data Demo.d_listed = Some Demo.d_ledger
  /\ ledger_data (add_files_to_todo Demo.d_listed ["/proj/d.py"; "/proj/e.py"])
     = Some (Demo.d_ledger ++ todo_header ++ "/proj/e.py|LOW|2024-01-01T00:01:00" ++ LF)
  /\ fst (fst (todo_loop (existing_files_of (universal_newlines Demo.d_ledger))
                 ["/proj/d.py"; "/proj/e.py"] Demo.d_listed))
     = ["/proj/e.py|LOW|2024-01-01T00:01:00"].
Proof.
  assert (Hold : ledger_data Demo.d_listed = Some Demo.d_ledger) by (vm_compute; reflexivity).
  destruct (enqueue_appends_block Demo.d_listed ["/proj/d.py"; "/proj/e.py"] _ Hold)
    as (E & _ & _ & _ & Hother).
  split; [exact Hold|]. split; [rewrite E; vm_compute; reflexivity|].
  rewrite Hother; [vm_compute; reflexivity | vm_compute; discriminate].
Defined.

(** A sentinel that holds no text yet: the lock query says locked. *)
Lemma blank_sentinel_query_says_locked :
  fs Demo.c_blank !! get_lock_file_path "/proj/c.py" = Some (File (Some "") (Demo.t0 - 1))
  /\ is_file_locked Demo.c_blank "/proj/c.py" = (true, Some "").
Proof. vm_compute. repeat split. Qed.

Lemma blank_or_unreadable_sentinel_witness :
  fs Demo.c_blank !! get_lock_file_path "/proj/c.py" = Some (File (Some "") (Demo.t0 - 1))
  /\ check_path_conflicts Demo.c_blank "/proj/c.py"
     = check_path_conflicts (unlink (get_lock_file_path "/proj/c.py") Demo.c_blank) "/proj/c.py".
Proof.
  assert (Hf : fs Demo.c_blank !! get_lock_file_path "/proj/c.py"
               = Some (File (Some "") (Demo.t0 - 1))) by (vm_compute; reflexivity).
  destruct (blank_or_unreadable_sentinel Demo.c_blank "/proj/c.py" _ Hf) as [_ E].
  - vm_compute. reflexivity.
  - split; [exact Hf | exact E].
Defined.

(** C5.  The project file [/proj/a|b.py] is enqueued in one cycle and, a minute
    later, in the next.  The reader of the ledger takes the text before the
    first separator, [/proj/a], for the path of the line written first, so the
    enqueued path is not found and a second line is written for it. *)
Theorem separator_path_enqueued_twice :
  let w1 := add_files_to_todo Demo.bar_world [Demo.bar_file] in
  let w2 := add_files_to_todo (sleep 60000 w1) [Demo.bar_file] in
  ledger_data w1 = Some (todo_header ++ "/proj/a|b.py|HIGH|2024-01-01T00:00:00" ++ LF)
  /\ elements (existing_files_of (todo_header ++ "/proj/a|b.py|HIGH|2024-01-01T00:00:00" ++ LF))
     = ["/proj/a"]
  /\ ledger_data w2 =
     Some (todo_header ++ "/proj/a|b.py|HIGH|2024-01-01T00:00:00" ++ LF
           ++ todo_header ++ "/proj/a|b.py|HIGH|2024-01-01T00:01:00" ++ LF).
Proof. vm_compute. repeat split. Qed.

(** A path without the separator, enqueued in two cycles, is listed once. *)
Example plain_path_enqueued_once :
  let w1 := add_files_to_todo Demo.bar_world ["/proj/c.py"] in
  let w2 := add_files_to_todo (sleep 60000 w1) ["/proj/c.py"] in
  ledger_data w1 = Some (todo_header ++ "/proj/c.py|HIGH|2024-01-01T00:00:00" ++ LF)
  /\ ledger_data w2 = ledger_data w1.
Proof. vm_compute. repeat split. Qed.

(** C8.  A cycle with two changed files under 'devP': [a.py] lacks its header
    and is repaired, [b.py] cannot be opened and stays non-compliant.  One of
    two checked files was updated, so the whole candidate list goes to the
    ledger: the repaired [a.py] is enqueued along with [b.py]. *)
Theorem repaired_file_is_enqueued :
  let w' := run_monitor_cycle Demo.two_changed in
  fst (cycle_candidates Demo.two_changed) = ["/proj/a.py"; "/proj/b.py"]
  /\ fst (process_files_for_compliance (snd (cycle_candidates Demo.two_changed))
                                        ["/proj/a.py"; "/proj/b.py"]) = (2%nat, 1%nat)
  /\ is_compliant (check_file_compliance Demo.two_changed "/proj/a.py") = false
  /\ is_compliant (check_file_compliance w' "/proj/a.py") = true
  /\ is_compliant (check_file_compliance w' "/proj/b.py") = false
  /\ ledger_data w' =
     Some (todo_header ++ "/proj/a.py|HIGH|2024-01-01T00:00:00" ++ LF
           ++ "/proj/b.py|HIGH|2024-01-01T00:00:00" ++ LF).
Proof. vm_compute. repeat split. Qed.

(** A rule file changed and no project file did: everything is rechecked. *)
Lemma candidates_escalate_witness :
  fst (check_rule_files_changes Demo.rule_changed) = [Demo.rule_file_path]
  /\ fst (check_project_files_changes Demo.rule_changed) = []
  /\ fst (cycle_candidates Demo.rule_changed) = scan_project_files Demo.rule_changed
  /\ length (scan_project_files Demo.rule_changed) = 3%nat.
Proof.
  destruct (candidates_escalate_on_rule_change Demo.rule_changed) as (Hrule & _ & _).
  split; [vm_compute; reflexivity|]. split; [vm_compute; reflexivity|].
  split; [apply Hrule; vm_compute; discriminate | vm_compute; reflexivity].
Defined.

(** ** The library stand-ins on known values *)

Example md5_rfc1321_empty : MD5.hexdigest "" = "d41d8cd98f00b204e9800998ecf8427e".
Proof. vm_compute. reflexivity. Qed.

Example md5_rfc1321_abc : MD5.hexdigest "abc" = "900150983cd24fb0d6963f7d28e17f72".
Proof. vm_compute. reflexivity. Qed.

Example md5_rfc1321_message_digest :
  MD5.hexdigest "message digest" = "f96b697d7cb7938d525a2f31aaf161d0".
Proof. vm_compute. reflexivity. Qed.

Example md5_two_blocks :
  MD5.hexdigest "xxxxxxxxxxxxxxxxxxxxxxxxxxxxxxxxxxxxxxxxxxxxxxxxxxxxxxxxxxxxxxxxxxxxxx"
  = "7d56c0f83fd1e320d60ea2f13dfdeedd".
Proof. vm_compute. reflexivity. Qed.

Example lock_file_of_b :
  get_lock_file_path "/proj/b.py" = "/proj/.trae/.locks/852176b2d6ea4fc7ab3ddbfcd5687446.lock".
Proof. vm_compute. reflexivity. Qed.

Example iso_new_year : PosixUtc.iso 1704067200000 = "2024-01-01T00:00:00".
Proof. vm_compute. reflexivity. Qed.

Example iso_leap_day : PosixUtc.iso 1709210096250 = "2024-02-29T12:34:56.250000".
Proof. vm_compute. reflexivity. Qed.

Example strip_unicode_space :
  strip (LF ++ " 　/proj/a.py　 " ++ CR ++ LF) = "/proj/a.py".
Proof. vm_compute. reflexivity. Qed.

Example ledger_key_of_entry :
  ledger_key ("/proj/d.py|HIGH|2024-01-01T00:00:00" ++ LF) = Some "/proj/d.py"
  /\ ledger_key todo_header = None
  /\ ledger_key LF = None.
Proof. vm_compute. repeat split. Qed.

Example splitlines_mixed :
  splitlines ("a" ++ LF ++ "b" ++ CR ++ LF ++ LF ++ "c" ++ CR) = ["a"; "b"; ""; "c"].
Proof. vm_compute. reflexivity. Qed.

Example suffixes :
  path_suffix "/proj/b.py" = ".py" /\ path_suffix "/proj/.bashrc" = ""
  /\ path_suffix "/proj/a.tar.gz" = ".gz" /\ path_name "/proj/x/y.txt" = "y.txt".
Proof. vm_compute. repeat split. Qed.

(** Scenario D: the listed path is not enqueued again. *)
Example scenario_D :
  add_files_to_todo Demo.d_listed ["/proj/d.py"] = Demo.d_listed.
Proof.
  apply (enqueue_known_path Demo.d_listed "/proj/d.py" Demo.d_ledger).
  - vm_compute. reflexivity.
  - apply (bool_decide_unpack
             ("/proj/d.py" ∈ existing_files_of (universal_newlines Demo.d_ledger))).
    vm_compute. exact I.
Qed.

(** A call running alone on the stale sentinel of scenario C returns true,
    and on a sentinel one second old it gives up when the 5 s are over. *)
Example alone_on_stale :
  Race.at_ (Race.callerA (Race.alone 100 5000
     (Race.initial 400000 (Some (Race.Sentinel None 0))))) = Race.Returned true.
Proof. vm_compute. reflexivity. Qed.

Example alone_on_fresh :
  let s := Race.alone 1000 5000 (Race.initial 400000 (Some (Race.Sentinel None 399000))) in
  Race.at_ (Race.callerA s) = Race.Returned false /\ Race.clock s = 405000.
Proof. vm_compute. repeat split. Qed.

(** ** The further properties on concrete states *)

Lemma acquire_file_lock_bounded_witness :
  now (snd (acquire_file_lock Demo.c_stale "/proj/c.py" 5)) < Demo.t0 + 5100
  /\ conflict_log (snd (acquire_file_lock Demo.c_stale "/proj/c.py" 5)) = []
  /\ fs (snd (acquire_file_lock Demo.c_stale "/proj/c.py" 5)) !! "/proj/c.py"
     = Some (Demo.source "print(1)").
Proof.
  destruct (acquire_file_lock_bounded Demo.c_stale "/proj/c.py" 5)
    as ((_ & Hn) & _ & _ & _ & Hl & Hfs); [lia|].
  split; [exact Hn | split; [exact Hl|]].
  rewrite Hfs; [vm_compute; reflexivity | vm_compute; discriminate].
Defined.


Lemma live_lock_is_respected_witness :
  fst (acquire_file_lock Demo.c_blank "/proj/c.py" 5) = false
  /\ Demo.t0 + 5000 <= now (snd (acquire_file_lock Demo.c_blank "/proj/c.py" 5)).
Proof.
  assert (Hf : fs Demo.c_blank !! get_lock_file_path "/proj/c.py"
               = Some (File (Some "") (Demo.t0 - 1))) by (vm_compute; reflexivity).
  destruct (live_lock_is_respected Demo.c_blank "/proj/c.py" 5 _ ltac:(lia) Hf)
    as (Hr & _ & Hn).
  - vm_compute. discriminate.
  - split; [exact Hr | exact Hn].
Defined.

Lemma acquire_release_round_trip_witness :
  fst (acquire_file_lock Demo.prod_active "/proj/b.py" 5) = true
  /\ release_file_lock "/proj/b.py" (snd (acquire_file_lock Demo.prod_active "/proj/b.py" 5))
     = Demo.prod_active.
Proof.
  destruct (acquire_release_round_trip Demo.prod_active "/proj/b.py" 5)
    as (Hs & _ & Hr); [lia | vm_compute; reflexivity |].
  split; [exact Hs | exact Hr].
Defined.

Lemma readable_sentinel_is_a_conflict_witness :
  now Cases.prod_stale - (Demo.t0 - 400000) > 300000
  /\ fst (check_path_conflicts Cases.prod_stale "/proj/c.py") = true
  /\ fst (check_and_resolve Cases.prod_stale "/proj/c.py") = SKIPPED
  /\ fst (check_path_conflicts
            (sleep 86400000 (snd (check_and_resolve Cases.prod_stale "/proj/c.py")))
            "/proj/c.py") = true.
Proof.
  destruct (readable_sentinel_is_a_conflict Cases.prod_stale "/proj/c.py"
              (File (Some "锁定时间: 2023-12-31T23:53:20") (Demo.t0 - 400000))
              "锁定时间: 2023-12-31T23:53:20") as (_ & Hc & Hother).
  - vm_compute. reflexivity.
  - reflexivity.
  - vm_compute. reflexivity.
  - destruct Hother as (Hs & _ & Hlater); [vm_compute; discriminate|].
    split; [vm_compute; reflexivity|]. split; [now rewrite Hc|].
    split; [exact Hs | apply Hlater].
Defined.

Lemma first_scan_baselines_witness :
  fst (check_project_files_changes Demo.prod_active) = []
  /\ project_files_hash_cache (snd (check_project_files_changes Demo.prod_active))
       !! "/proj/b.py" = Some (Some (MD5.hexdigest "print(1)")).
Proof.
  destruct (first_scan_baselines Demo.prod_active eq_refl) as [Hq Hc].
  split; [exact Hq|]. rewrite Hc.
  rewrite bool_decide_eq_true_2; [vm_compute; reflexivity|].
  replace (scan_project_files Demo.prod_active) with ["/proj/b.py"]
    by (vm_compute; reflexivity).
  constructor.
Defined.

Lemma docstring_file_is_left_alone_witness :
  is_compliant (check_file_compliance Cases.docstring_module "/proj/m.py") = false
  /\ update_file_compliance Cases.docstring_module "/proj/m.py" ["header_comment"]
     = (true, Cases.docstring_module).
Proof.
  split; [vm_compute; reflexivity|].
  eapply (docstring_file_is_left_alone Cases.docstring_module "/proj/m.py"
            ["header_comment"] Cases.docstring_text).
  - reflexivity.
  - vm_compute. reflexivity.
  - vm_compute. reflexivity.
  - vm_compute. reflexivity.
  - vm_compute. reflexivity.
Defined.

Lemma script_repair_keeps_it_noncompliant_witness :
  is_compliant (check_file_compliance Cases.shell_script "/proj/run.sh") = false
  /\ is_compliant
       (check_file_compliance
          (snd (update_file_compliance Cases.shell_script "/proj/run.sh"
                  (update_info (check_file_compliance Cases.shell_script "/proj/run.sh"))))
          "/proj/run.sh") = false.
Proof.
  destruct (script_repair_keeps_it_noncompliant Cases.shell_script "/proj/run.sh"
              Cases.script_text) as (_ & _ & Hc);
    try (vm_compute; reflexivity).
  split; [vm_compute; reflexivity | exact Hc].
Defined.

Lemma python_repair_makes_it_compliant_witness :
  is_compliant (check_file_compliance Demo.two_changed "/proj/a.py") = false
  /\ is_compliant
       (check_file_compliance
          (snd (update_file_compliance Demo.two_changed "/proj/a.py"
                  (update_info (check_file_compliance Demo.two_changed "/proj/a.py"))))
          "/proj/a.py") = true.
Proof.
  destruct (python_repair_makes_it_compliant Demo.two_changed "/proj/a.py"
              ("print(1)" ++ LF)) as (_ & _ & Hc);
    try (vm_compute; reflexivity).
  split; [vm_compute; reflexivity | now rewrite Hc].
Defined.

Lemma forced_lock_blocks_own_repair_witness :
  fst (check_and_resolve Demo.c_stale "/proj/c.py") = FORCED_WITH_LOCK
  /\ fst (update_file_compliance (snd (check_and_resolve Demo.c_stale "/proj/c.py"))
            "/proj/c.py" ["header_comment"]) = false.
Proof.
  assert (Hf : fst (check_and_resolve Demo.c_stale "/proj/c.py") = FORCED_WITH_LOCK)
    by (vm_compute; reflexivity).
  destruct (forced_lock_blocks_own_repair Demo.c_stale "/proj/c.py" ["header_comment"] Hf)
    as (Hr & _).
  split; [exact Hf | exact Hr].
Defined.

Lemma enqueue_respects_active_user_witness :
  fs (add_files_to_todo Demo.prod_active ["/proj/b.py"]) = fs Demo.prod_active
  /\ length (conflict_log (add_files_to_todo Demo.prod_active ["/proj/b.py"])) = 2%nat.
Proof.
  destruct (enqueue_respects_active_user Demo.prod_active ["/proj/b.py"])
    as (Hfs & _ & Hlog); [vm_compute; discriminate | vm_compute; reflexivity |].
  split; [exact Hfs|]. rewrite (Hlog "" eq_refl). vm_compute. reflexivity.
Defined.

Lemma enqueue_listed_paths_is_noop_witness :
  add_files_to_todo Demo.d_listed ["/proj/d.py"; "/proj/d.py"] = Demo.d_listed.
Proof.
  apply (enqueue_listed_paths_is_noop Demo.d_listed _ Demo.d_ledger).
  - vm_compute. reflexivity.
  - assert (Hin : "/proj/d.py" ∈ existing_files_of (universal_newlines Demo.d_ledger)).
    { apply (bool_decide_unpack
               ("/proj/d.py" ∈ existing_files_of (universal_newlines Demo.d_ledger))).
      vm_compute. exact I. }
    repeat constructor; exact Hin.
Defined.

Lemma gated_change_is_dropped_witness :
  length (fst (cycle_candidates Cases.prod_rule_changed)) = 3%nat
  /\ should_execute_evolution Cases.prod_rule_changed = false
  /\ fs (run_monitor_cycle Cases.prod_rule_changed) = fs Cases.prod_rule_changed
  /\ conflict_log (run_monitor_cycle Cases.prod_rule_changed) = []
  /\ fst (cycle_candidates (run_monitor_cycle Cases.prod_rule_changed)) = [].
Proof.
  assert (Hg : should_execute_evolution Cases.prod_rule_changed = false)
    by (vm_compute; reflexivity).
  destruct (gated_change_is_dropped Cases.prod_rule_changed (or_intror Hg))
    as (_ & Hfs & _ & Hl & Hq).
  split; [vm_compute; reflexivity|].
  split; [exact Hg | split; [exact Hfs | split; [exact Hl | exact Hq]]].
Defined.

Lemma first_cycle_after_initialisation_witness :
  start_monitoring_prologue Demo.prod_active = init_hash_caches Demo.prod_active
  /\ project_files_hash_cache (init_hash_caches Demo.prod_active) !! "/proj/b.py"
     = Some (Some (MD5.hexdigest "print(1)")).
Proof.
  destruct (first_cycle_after_initialisation Demo.prod_active eq_refl eq_refl)
    as (E & _ & Hc).
  split; [exact E|]. rewrite Hc.
  rewrite bool_decide_eq_true_2; [vm_compute; reflexivity|].
  replace (scan_project_files Demo.prod_active) with ["/proj/b.py"]
    by (vm_compute; reflexivity).
  constructor.
Defined.

Lemma user_activity_pauses_evolution_witness :
  should_execute_evolution (sleep 299999 (update_user_activity Demo.prod_active)) = false
  /\ should_execute_evolution (sleep 300000 (update_user_activity Demo.prod_active)) = true.
Proof.
  assert (Hopen : forall f : file,
            fs Demo.prod_active !! user_activity_file = Some f -> f_data f <> None).
  { intros f Hf. vm_compute in Hf. injection Hf as <-. discriminate. }
  destruct (user_activity_pauses_evolution Demo.prod_active 299999 Hopen) as [_ E1].
  destruct (user_activity_pauses_evolution Demo.prod_active 300000 Hopen) as [_ E2].
  split; [rewrite E1 | rewrite E2]; vm_compute; reflexivity.
Defined.

Lemma race_exclusive_within_ttl_witness :
  Race.succeeded (Race.callerA (Race.run 5000 Cases.taking_turns (Race.initial 0 None)))
  = true
  /\ Race.succeeded (Race.callerB (Race.run 5000 Cases.taking_turns (Race.initial 0 None)))
     <> true.
Proof.
  assert (Ha : Race.succeeded
                 (Race.callerA (Race.run 5000 Cases.taking_turns (Race.initial 0 None)))
               = true) by (vm_compute; reflexivity).
  split; [exact Ha|]. intros Hb.
  apply (race_exclusive_within_ttl 5000 0 Cases.taking_turns).
  - vm_compute. discriminate.
  - split; [exact Ha | exact Hb].
Defined.

Lemma enqueued_path_is_listed_witness :
  ledger_safe "/proj/e.py" = true
  /\ exists new : string,
       ledger_data (add_files_to_todo Demo.d_listed ["/proj/e.py"]) = Some new
       /\ "/proj/e.py" ∈ existing_files_of (universal_newlines new).
Proof.
  split; [vm_compute; reflexivity|].
  destruct (enqueued_path_is_listed Demo.d_listed ["/proj/e.py"] Demo.d_ledger
              "/proj/e.py" "LOW|2024-01-01T00:01:00") as (new & Hn & Hin & _).
  - vm_compute. reflexivity.
  - vm_compute. reflexivity.
  - replace (fst (fst (todo_loop (existing_files_of (universal_newlines Demo.d_ledger))
                         ["/proj/e.py"] Demo.d_listed)))
      with ["/proj/e.py|LOW|2024-01-01T00:01:00"] by (vm_compute; reflexivity).
    constructor.
  - exists new. split; [exact Hn | exact Hin].
Defined.

Lemma load_variables_last_definition_wins_witness :
  get_variable Cases.with_vars_file "PG_ProjectMod" = None
  /\ get_variable (snd (load_variables Cases.with_vars_file)) "PG_ProjectMod"
     = Some "devP,PG_RuleFileName".
Proof.
  split; [vm_compute; reflexivity|].
  destruct (load_variables_last_definition_wins Cases.with_vars_file Cases.vars_text
              (take 3 (readlines Cases.vars_text)) [] (project_mod_line "devP")
              "PG_ProjectMod" "devP,PG_RuleFileName") as (_ & Hv & _).
  - vm_compute. reflexivity.
  - vm_compute. reflexivity.
  - vm_compute. reflexivity.
  - constructor.
  - exact Hv.
Defined.

Lemma switch_project_mode_takes_effect_witness :
  get_project_mode (snd (load_variables Cases.with_vars_file)) = "devP"
  /\ get_project_mode (snd (switch_project_mode Cases.with_vars_file "proD")) = "proD".
Proof.
  split; [vm_compute; reflexivity|].
  destruct (switch_project_mode_takes_effect Cases.with_vars_file "proD" Cases.vars_text)
    as (_ & _ & Hm & _).
  - now right.
  - vm_compute. reflexivity.
  - replace (lines_after_match (readlines Cases.vars_text)) with (@nil string)
      by (vm_compute; reflexivity).
    constructor.
  - apply Hm. vm_compute. reflexivity.
Defined.
